(** * NSR specialist scraper: discovery and extraction engine

    A shallow embedding of the JavaScript sources
    [src/constants.js], [src/utils.js], [src/parser.js], [src/main.js]
    and of the Cheerio crawler variant that defines [isValidNextPageUrl],
    [findNextPageUrl] and [handleListPage], followed by the properties
    of these functions.

    Conventions of the embedding.
    - A JavaScript string is a [string] holding its UTF-8 bytes.  The
      white-space class is its ASCII part (TAB, LF, VT, FF, CR, SP) and
      case conversion acts on the letters A-Z and a-z, so texts with
      other Unicode spaces or cased letters are outside the model.
    - [null] and [undefined] are [None].
    - A JavaScript number that holds a page index or an id is an exact
      integer of [Z]; [NaN] is [None].
    - A parsed document (the Cheerio root [$]) is a list of [node]s;
      [$.html()] followed by [cheerio.load] is taken to give the same
      tree back.
    - The platform services the sources call but do not define (the
      WHATWG [URL] class, [Date], the request queue's default unique
      key) are the fields of the class [Platform]. *)

From Stdlib Require Import ZArith Ascii String List Bool Lia.
From stdpp Require Import base option list gmap strings pretty.

Import ListNotations.
Local Open Scope Z_scope.

(** ** JavaScript string primitives *)

Module JS.

Definition code (c : ascii) : N := N_of_ascii c.

(** [\d] *)
Definition is_digit (c : ascii) : bool :=
  ((48 <=? code c) && (code c <=? 57))%N.

(** [\s], its ASCII part: TAB, LF, VT, FF, CR, SP. *)
Definition is_space (c : ascii) : bool :=
  (((9 <=? code c) && (code c <=? 13)) || (code c =? 32))%N.

Definition is_upper (c : ascii) : bool :=
  ((65 <=? code c) && (code c <=? 90))%N.

Definition is_lower (c : ascii) : bool :=
  ((97 <=? code c) && (code c <=? 122))%N.

(** [\w] *)
Definition is_word (c : ascii) : bool :=
  is_digit c || is_upper c || is_lower c || (code c =? 95)%N.

Definition lower_char (c : ascii) : ascii :=
  if is_upper c then ascii_of_N (code c + 32) else c.

Definition upper_char (c : ascii) : ascii :=
  if is_lower c then ascii_of_N (code c - 32) else c.

Fixpoint map_str (f : ascii -> ascii) (s : string) : string :=
  match s with
  | EmptyString => EmptyString
  | String c s' => String (f c) (map_str f s')
  end.

Fixpoint filter_str (p : ascii -> bool) (s : string) : string :=
  match s with
  | EmptyString => EmptyString
  | String c s' => if p c then String c (filter_str p s') else filter_str p s'
  end.

(** [s.toLowerCase()], on the letters A-Z. *)
Definition toLowerCase (s : string) : string := map_str lower_char s.

Definition toUpperCase (s : string) : string := map_str upper_char s.

Fixpoint rev_str (acc s : string) : string :=
  match s with
  | EmptyString => acc
  | String c s' => rev_str (String c acc) s'
  end.

Fixpoint trimStart (s : string) : string :=
  match s with
  | EmptyString => EmptyString
  | String c s' => if is_space c then trimStart s' else s
  end.

Definition trimEnd (s : string) : string :=
  rev_str EmptyString (trimStart (rev_str EmptyString s)).

(** [s.trim()] *)
Definition trim (s : string) : string := trimEnd (trimStart s).

(** [s.includes(needle)] *)
Fixpoint includes (needle s : string) : bool :=
  if String.prefix needle s then true
  else match s with
       | EmptyString => false
       | String _ s' => includes needle s'
       end.

(** Truthiness of a value that is a string, [null] or [undefined]. *)
Definition truthy (v : option string) : bool :=
  match v with
  | Some (String _ _) => true
  | _ => false
  end.

(** [a || b] on such values, [b] being a string. *)
Definition or_else (a : option string) (b : string) : string :=
  match a with
  | Some (String c s) => String c s
  | _ => b
  end.

(** [s.replace(/\s+/g, ' ')]: [in_run] tells that the previous code
    unit was white space, already replaced. *)
Fixpoint collapse_spaces (in_run : bool) (s : string) : string :=
  match s with
  | EmptyString => EmptyString
  | String c s' =>
      if is_space c
      then (if in_run then collapse_spaces true s'
            else String " " (collapse_spaces true s'))
      else String c (collapse_spaces false s')
  end.

(** [s.split(/[sep]+/)] for a class [sep] of separators: the pieces
    between maximal runs of separators.  A run at either end of a
    non-empty string leaves an empty piece there, as in JavaScript. *)
Fixpoint split_runs (sep : ascii -> bool) (cur : string) (in_run : bool)
         (s : string) : list string :=
  match s with
  | EmptyString => [rev_str EmptyString cur]
  | String c s' =>
      if sep c
      then (if in_run then split_runs sep cur true s'
            else rev_str EmptyString cur :: split_runs sep EmptyString true s')
      else split_runs sep (String c cur) false s'
  end.

Definition split_on (sep : ascii -> bool) (s : string) : list string :=
  split_runs sep EmptyString false s.

(** [s.split(c)[0]] for a one-character separator. *)
Fixpoint before_char (c : ascii) (s : string) : string :=
  match s with
  | EmptyString => EmptyString
  | String d s' => if Ascii.eqb c d then EmptyString else String d (before_char c s')
  end.

Definition nonempty (s : string) : bool :=
  match s with EmptyString => false | _ => true end.

(** *** [parseInt(s)] with no radix argument *)

Definition digit_val (radix : Z) (c : ascii) : option Z :=
  let v :=
    if is_digit c then Z.of_N (code c) - 48
    else if is_lower c then Z.of_N (code c) - 87
    else if is_upper c then Z.of_N (code c) - 55
    else 36 in
  if v <? radix then Some v else None.

(** Longest prefix of digits of the radix; [None] when it is empty. *)
Fixpoint digits_prefix (radix : Z) (acc : option Z) (s : string) : option Z :=
  match s with
  | EmptyString => acc
  | String c s' =>
      match digit_val radix c with
      | Some v => digits_prefix radix (Some (radix * default 0 acc + v)) s'
      | None => acc
      end
  end.

Definition unsigned_int (s : string) : option Z :=
  match s with
  | String "0" (String "x" s') => digits_prefix 16 None s'
  | String "0" (String "X" s') => digits_prefix 16 None s'
  | _ => digits_prefix 10 None s
  end.

Definition parseInt (s : string) : option Z :=
  match trimStart s with
  | String "-" s' => Z.opp <$> unsigned_int s'
  | String "+" s' => unsigned_int s'
  | s' => unsigned_int s'
  end.

(** *** [encodeURIComponent(s)]

    The characters left as they are, and the escape [%XX] of any other
    byte of the UTF-8 form, in upper-case hexadecimal. *)
Definition is_unreserved (c : ascii) : bool :=
is_digit c || is_upper c || is_lower c
|| existsb (Ascii.eqb c) ["-"; "_"; "."; "!"; "~"; "*"; "'"; "("; ")"]%char.

Definition hex_digit (n : N) : ascii :=
if (n <? 10)%N then ascii_of_N (48 + n) else ascii_of_N (55 + n).

Definition escape_byte (c : ascii) : string :=
String "%" (String (hex_digit (code c / 16)) (String (hex_digit (code c mod 16)) EmptyString)).

Fixpoint encodeURIComponent (s : string) : string :=
match s with
| EmptyString => EmptyString
| String c s' =>
    if is_unreserved c then String c (encodeURIComponent s')
    else escape_byte c +:+ encodeURIComponent s'
end.

(** [parts.join(sep)] *)
Fixpoint join (sep : string) (parts : list string) : string :=
match parts with
| [] => EmptyString
| [x] => x
| x :: parts' => x +:+ sep +:+ join sep parts'
end.

(** The longest prefix of [s] whose characters satisfy [p], and the rest. *)
Fixpoint span (p : ascii -> bool) (s : string) : string * string :=
match s with
| String c s' =>
    if p c then let '(a, b) := span p s' in (String c a, b)
    else (EmptyString, s)
| EmptyString => (EmptyString, EmptyString)
end.

End JS.

(** ** Parsed documents and the Cheerio selections the sources use *)

Module Dom.

Definition attr : Type := string * string.

#[warnings="-register-all"] Inductive node : Type :=
| Text (s : string)
| Element (tag : string) (attrs : list attr) (children : list node).

Definition document : Type := list node.

(** An element together with its place in the tree: its position
    among its siblings, these siblings (the parent's child nodes, or
    the roots), and its ancestors, the parent first. *)
#[warnings="-register-all"] Inductive elem : Type :=
| mkElem (tag : string) (attrs : list attr) (children : list node)
         (index : nat) (siblings : list node) (ancestors : list elem).

Definition tag (e : elem) : string := let 'mkElem t _ _ _ _ _ := e in t.
Definition attrs (e : elem) : list attr := let 'mkElem _ a _ _ _ _ := e in a.
Definition children (e : elem) : list node := let 'mkElem _ _ c _ _ _ := e in c.
Definition index (e : elem) : nat := let 'mkElem _ _ _ i _ _ := e in i.
Definition siblings (e : elem) : list node := let 'mkElem _ _ _ _ s _ := e in s.
Definition ancestors (e : elem) : list elem := let 'mkElem _ _ _ _ _ a := e in a.

(** The child indices from the root down to the element: its identity. *)
Definition path (e : elem) : list nat :=
  rev (index e :: map index (ancestors e)).

Fixpoint lookup_attr (name : string) (l : list attr) : option string :=
  match l with
  | [] => None
  | (k, v) :: l' => if String.eqb k name then Some v else lookup_attr name l'
  end.

(** Text content: the text nodes below, in document order. *)
Fixpoint node_text (n : node) : string :=
  match n with
  | Text s => s
  | Element _ _ cs =>
      (fix go (l : list node) : string :=
         match l with
         | [] => EmptyString
         | c :: l' => node_text c +:+ go l'
         end) cs
  end.

Definition elem_text (e : elem) : string :=
  node_text (Element (tag e) (attrs e) (children e)).

(** The element [n] (if it is one) and the elements below it, in
    document order. *)
Fixpoint elems_of (anc : list elem) (sibs : list node) (i : nat) (n : node)
  : list elem :=
  match n with
  | Text _ => []
  | Element t a cs =>
      let e := mkElem t a cs i sibs anc in
      e :: (fix go (j : nat) (l : list node) : list elem :=
              match l with
              | [] => []
              | c :: l' => elems_of (e :: anc) cs j c ++ go (S j) l'
              end) 0%nat cs
  end.

Fixpoint elems_from (anc : list elem) (sibs : list node) (j : nat)
         (l : list node) : list elem :=
  match l with
  | [] => []
  | c :: l' => elems_of anc sibs j c ++ elems_from anc sibs (S j) l'
  end.

Definition all_elems (d : document) : list elem := elems_from [] d 0%nat d.

(** The elements strictly below [e]. *)
Definition descendants (e : elem) : list elem :=
  elems_from (e :: ancestors e) (children e) 0%nat (children e).

Definition is_element (n : node) : bool :=
  match n with Element _ _ _ => true | Text _ => false end.

(** *** Selectors *)

Inductive simple : Type :=
| STag (t : string)              (* a *)
| SClass (c : string)            (* .c *)
| SId (i : string)               (* #i *)
| SAttr (a : string)             (* [a] *)
| SAttrEq (a v : string)         (* [a="v"] *)
| SAttrHas (a v : string)        (* [a*="v"] *)
| SContains (t : string)         (* :contains("t") *)
| SLastChild                     (* :last-child *)
| SSelected                      (* :selected *)
| SChecked.                      (* :checked *)

(** A compound selector is a conjunction of simple ones; a complex
    selector is a chain of compounds joined by the descendant
    combinator, the subject last; a selector is a comma list. *)
Definition compound : Type := list simple.
Definition complex : Type := list compound.
Definition selector : Type := list complex.

Definition class_list (e : elem) : list string :=
  filter (fun s => s <> EmptyString)
         (JS.split_on JS.is_space (default EmptyString (lookup_attr "class" (attrs e)))).

Definition hasClass (c : string) (e : elem) : bool :=
  existsb (String.eqb c) (class_list e).

Definition hasAttr (a : string) (e : elem) : bool :=
  match lookup_attr a (attrs e) with Some _ => true | None => false end.

Definition node_has_attr (t a : string) (n : node) : bool :=
  match n with
  | Element t' l _ =>
      String.eqb t t' && match lookup_attr a l with Some _ => true | None => false end
  | Text _ => false
  end.

Definition node_is_tag (t : string) (n : node) : bool :=
  match n with Element t' _ _ => String.eqb t t' | Text _ => false end.

(** [:last-child]: no element follows among the siblings. *)
Definition is_last_child (e : elem) : bool :=
  negb (existsb is_element (drop (S (index e)) (siblings e))).

(** [:selected]: an [option] carrying [selected], or the first
    [option] of a [select] that is not [multiple] and has no option
    carrying [selected]. *)
Definition is_selected (e : elem) : bool :=
  String.eqb (tag e) "option" &&
  (hasAttr "selected" e ||
   match ancestors e with
   | p :: _ =>
       String.eqb (tag p) "select" && negb (hasAttr "multiple" p) &&
       negb (existsb (node_has_attr "option" "selected") (siblings e)) &&
       negb (existsb (node_is_tag "option") (take (index e) (siblings e)))
   | [] => false
   end).

(** [:checked]: a checkbox or radio [input] carrying [checked], or a
    selected [option]. *)
Definition is_checked (e : elem) : bool :=
  (String.eqb (tag e) "input" && hasAttr "checked" e &&
   match lookup_attr "type" (attrs e) with
   | Some t => String.eqb t "radio" || String.eqb t "checkbox"
   | None => false
   end)
  || is_selected e.

Definition matches_simple (s : simple) (e : elem) : bool :=
  match s with
  | STag t => String.eqb t (tag e)
  | SClass c => hasClass c e
  | SId i => match lookup_attr "id" (attrs e) with
             | Some v => String.eqb v i
             | None => false
             end
  | SAttr a => hasAttr a e
  | SAttrEq a v => match lookup_attr a (attrs e) with
                   | Some w => String.eqb w v
                   | None => false
                   end
  | SAttrHas a v => match lookup_attr a (attrs e) with
                    | Some w => JS.nonempty v && JS.includes v w
                    | None => false
                    end
  | SContains t => JS.includes t (elem_text e)
  | SLastChild => is_last_child e
  | SSelected => is_selected e
  | SChecked => is_checked e
  end.

Definition matches_compound (c : compound) (e : elem) : bool :=
  forallb (fun s => matches_simple s e) c.

(** The chain [cs] (innermost compound first) is matched upwards
    along the ancestors [anc] (parent first), each compound by the
    nearest ancestor that fits. *)
Fixpoint matches_up (cs : list compound) (anc : list elem) : bool :=
  match cs with
  | [] => true
  | c :: cs' =>
      (fix climb (l : list elem) : bool :=
         match l with
         | [] => false
         | a :: l' => if matches_compound c a then matches_up cs' l' else climb l'
         end) anc
  end.

Definition matches_complex (c : complex) (e : elem) : bool :=
  match rev c with
  | [] => false
  | subject :: outer => matches_compound subject e && matches_up outer (ancestors e)
  end.

Definition matches (s : selector) (e : elem) : bool :=
  existsb (fun c => matches_complex c e) s.

(** *** Selections: lists of elements in document order *)

(** [$(sel)] *)
Definition select (sel : selector) (d : document) : list elem :=
  filter (fun e => matches sel e) (all_elems d).

Definition is_strict_prefix (p q : list nat) : bool :=
  (length p <? length q)%nat && bool_decide (take (length p) q = p).

(** [set.find(sel)]: the elements below some member of the set, each
    once.  Members lying below another member are dropped first. *)
Definition remove_subsets (set : list elem) : list elem :=
  filter (fun e => negb (existsb (fun s => is_strict_prefix (path s) (path e)) set)) set.

Definition find (sel : selector) (set : list elem) : list elem :=
  flat_map (fun e => filter (fun x => matches sel x) (descendants e))
           (remove_subsets set).

(** [set.not(sel)] *)
Definition not_ (sel : selector) (set : list elem) : list elem :=
  filter (fun e => negb (matches sel e)) set.

(** [set.attr(name)]: the attribute of the first member. *)
Definition attr_of (name : string) (set : list elem) : option string :=
  match set with
  | [] => None
  | e :: _ => lookup_attr name (attrs e)
  end.

(** [set.text()]: the text contents of the members, concatenated. *)
Fixpoint text (set : list elem) : string :=
  match set with
  | [] => EmptyString
  | e :: set' => elem_text e +:+ text set'
  end.

(** [set.hasClass(c)]: some member carries the class. *)
Definition set_hasClass (c : string) (set : list elem) : bool :=
  existsb (hasClass c) set.

(** [set.is(sel)] *)
Definition is_ (sel : selector) (set : list elem) : bool :=
  existsb (fun e => matches sel e) set.

(** [set.first()] *)
Definition first (set : list elem) : list elem := take 1 set.

End Dom.

(** ** JavaScript objects with string values

    The own properties of an object in the order of their creation.
    [Object.entries] lists the keys that are array indices first, in
    ascending order, then the other keys in the order of creation.  An
    assignment to [__proto__] with a string creates no property. *)

Module JSObject.

Definition object : Type := list (string * string).

Fixpoint put (k v : string) (o : object) : object :=
match o with
| [] => [(k, v)]
| (k', v') :: o' =>
    if String.eqb k' k then (k', v) :: o' else (k', v') :: put k v o'
end.

(** [o[k] = v] *)
Definition set (k v : string) (o : object) : object :=
if String.eqb k "__proto__" then o else put k v o.

(** [o[k]] on an own property *)
Fixpoint get (k : string) (o : object) : option string :=
match o with
| [] => None
| (k', v') :: o' => if String.eqb k' k then Some v' else get k o'
end.

Fixpoint all_digits (s : string) : bool :=
match s with
| EmptyString => true
| String c s' => JS.is_digit c && all_digits s'
end.

(** The array index a key denotes: a canonical numeral below 2^32 - 1. *)
Definition array_index (k : string) : option Z :=
match k with
| EmptyString => None
| String "0" EmptyString => Some 0
| String "0" _ => None
| String _ _ =>
    if all_digits k then
      match JS.digits_prefix 10 None k with
      | Some n => if n <=? 4294967294 then Some n else None
      | None => None
      end
    else None
end.

Fixpoint insert_index (x : Z * (string * string)) (l : list (Z * (string * string)))
  : list (Z * (string * string)) :=
match l with
| [] => [x]
| y :: l' => if fst x <=? fst y then x :: y :: l' else y :: insert_index x l'
end.

Definition index_entries (o : object) : list (Z * (string * string)) :=
foldr insert_index [] (omap (fun kv => (fun i => (i, kv)) <$> array_index (fst kv)) o).

(** [Object.entries(o)] *)
Definition entries (o : object) : list (string * string) :=
map snd (index_entries o)
++ filter (fun kv => array_index (fst kv) = None) o.

(** The properties that an object written as a literal inherits from
    [Object.prototype].  Reading one of them off an object that has
    no own property of the name gives a function or, for
    [__proto__], the prototype itself: a truthy value that is no
    number and no string. *)
Definition prototype_keys : list string :=
[ "constructor"; "__defineGetter__"; "__defineSetter__"; "hasOwnProperty";
  "__lookupGetter__"; "__lookupSetter__"; "isPrototypeOf"; "propertyIsEnumerable";
  "toString"; "valueOf"; "__proto__"; "toLocaleString" ].

Definition inherits (k : string) : bool := existsb (String.eqb k) prototype_keys.

End JSObject.

(** ** Platform services *)

(** A parsed URL: what precedes the query, the query as the ordered
    list behind [searchParams], and the fragment. *)
Record URL : Type := mkURL {
  url_base : string;
  url_query : list (string * string);
  url_hash : string
}.

Class Platform : Type := {
  (** [new URL(s)], [None] when it throws *)
  URL_new : string -> option URL;
  (** [new URL(href, base)], [None] when it throws *)
  URL_new_rel : string -> string -> option URL;
  (** [u.href] and [u.toString()] *)
  URL_href : URL -> string;
  (** [new Date(s).toISOString()], [None] when the time value is NaN *)
  Date_toISOString : string -> option string;
  (** the unique key the request queue derives from a URL when the
      request names none *)
  defaultUniqueKey : string -> string
}.

(** [u.searchParams.get(name)]: the value of the first pair. *)
Fixpoint searchParams_get (name : string) (q : list (string * string)) : option string :=
match q with
| [] => None
| (k, v) :: q' => if String.eqb k name then Some v else searchParams_get name q'
end.

(** [u.searchParams.set(name, value)]: the first pair of that name
    takes the value and the others of that name go; with no such pair
    one is appended. *)
Fixpoint searchParams_set (name value : string) (q : list (string * string))
  : list (string * string) :=
match q with
| [] => [(name, value)]
| (k, v) :: q' =>
    if String.eqb k name
    then (k, value) :: filter (fun kv => negb (String.eqb (fst kv) name)) q'
    else (k, v) :: searchParams_set name value q'
end.

(** ** [src/constants.js] *)

Module Constants.

Record state_info : Type := mkState {
  name : string;
  displayName : string;
  category : string;
  aliases : list string
}.

(** [MALAYSIAN_STATES], in the order [Object.entries] lists the keys. *)
Definition MALAYSIAN_STATES : list (Z * state_info) :=
[ (1, mkState "johor" "Johor" "regular" []);
  (2, mkState "kedah" "Kedah" "regular" []);
  (3, mkState "kelantan" "Kelantan" "regular" []);
  (4, mkState "melaka" "Melaka" "regular" []);
  (5, mkState "negeri sembilan" "Negeri Sembilan" "regular" []);
  (6, mkState "pahang" "Pahang" "regular" []);
  (7, mkState "perak" "Perak" "regular" []);
  (8, mkState "perlis" "Perlis" "regular" []);
  (9, mkState "pulau pinang" "Pulau Pinang" "regular" ["penang"]);
  (10, mkState "sabah" "Sabah" "regular" []);
  (11, mkState "sarawak" "Sarawak" "regular" []);
  (12, mkState "selangor" "Selangor" "regular" []);
  (13, mkState "terengganu" "Terengganu" "regular" []);
  (14, mkState "kuala lumpur" "Kuala Lumpur" "federal_territory" []);
  (15, mkState "labuan" "Labuan" "federal_territory" []);
  (16, mkState "putrajaya" "Putrajaya" "federal_territory" []);
  (20, mkState "foreign" "Foreign, specify" "special" []);
  (9999, mkState "missing" "Missing" "special" []) ].

(** [STATE_NAME_TO_ID], filled entry by entry: the name, then the aliases. *)
Definition add_state (m : gmap string Z) (entry : Z * state_info) : gmap string Z :=
let '(id, data) := entry in
foldl (fun m alias => <[JS.toLowerCase alias := id]> m)
      (<[JS.toLowerCase (name data) := id]> m)
      (aliases data).

Definition STATE_NAME_TO_ID : gmap string Z :=
foldl add_state ∅ MALAYSIAN_STATES.

Definition NSR_BASE_URL : string := "https://nsr.org.my".

Definition NSR_SEARCH_URL : string := NSR_BASE_URL +:+ "/list11.asp".

(** *** [PATTERNS.state] and [PATTERNS.gender]

    Both patterns are an alternation of words matched without regard to
    case; in a word of [state_words] a blank stands for [\s+]. *)

Definition state_words : list string :=
[ "johor"; "kedah"; "kelantan"; "melaka"; "negeri sembilan"; "pahang";
  "perak"; "perlis"; "pulau pinang"; "penang"; "sabah"; "sarawak";
  "selangor"; "terengganu"; "kuala lumpur"; "labuan"; "putrajaya" ].

Definition gender_words : list string := [ "male"; "female" ].

(** The white space at the head of [s] and what follows it. *)
Fixpoint span_spaces (s : string) : string * string :=
match s with
| String c s' =>
    if JS.is_space c
    then let '(sp, rest) := span_spaces s' in (String c sp, rest)
    else (EmptyString, s)
| EmptyString => (EmptyString, EmptyString)
end.

(** Match the word [w] at the head of [s]: the text matched and the rest. *)
Fixpoint match_word (w s : string) : option (string * string) :=
match w with
| EmptyString => Some (EmptyString, s)
| String " " w' =>
    match span_spaces s with
    | (String c sp, rest) =>
        '(m, rest') ← match_word w' rest; Some (String c sp +:+ m, rest')
    | _ => None
    end
| String c w' =>
    match s with
    | String d s' =>
        if Ascii.eqb (JS.lower_char d) c
        then '(m, rest') ← match_word w' s'; Some (String d m, rest')
        else None
    | EmptyString => None
    end
end.

Definition at_word_end (rest : string) : bool :=
match rest with
| EmptyString => true
| String c _ => negb (JS.is_word c)
end.

(** The first alternative that matches at the head of [s]; with
    [bounded], a word boundary must follow it. *)
Fixpoint match_alternatives (bounded : bool) (ws : list string) (s : string)
  : option string :=
match ws with
| [] => None
| w :: ws' =>
    match match_word w s with
    | Some (m, rest) =>
        if negb bounded || at_word_end rest then Some m
        else match_alternatives bounded ws' s
    | None => match_alternatives bounded ws' s
    end
end.

(** Leftmost match of the alternation in [s]; [prev_word] tells that
    the code unit before [s] is a word character. *)
Fixpoint search (bounded : bool) (ws : list string) (prev_word : bool) (s : string)
  : option string :=
match (if bounded && prev_word then None else match_alternatives bounded ws s) with
| Some m => Some m
| None =>
    match s with
    | EmptyString => None
    | String c s' => search bounded ws (JS.is_word c) s'
    end
end.

(** [s.match(PATTERNS.state)], the captured group *)
Definition match_state (s : string) : option string :=
search true state_words false s.

(** [s.match(PATTERNS.gender)], the captured group *)
Definition match_gender (s : string) : option string :=
search false gender_words false s.

(** *** [PATTERNS.qualification]

    [/^([A-Z][A-Za-z\s\.]+)\s*\(([^)]+)\)$/]: a capital, then letters,
    white space and full stops up to the first opening parenthesis,
    then text without closing parenthesis up to the closing
    parenthesis that ends the line.  The first group is greedy and
    its class holds the white space, so the [\s*] after it is empty. *)
Definition in_degree_class (c : ascii) : bool :=
JS.is_upper c || JS.is_lower c || JS.is_space c || Ascii.eqb c ".".

Definition not_closing (c : ascii) : bool := negb (Ascii.eqb c ")").

(** [line.match(PATTERNS.qualification)], the two captured groups *)
Definition match_qualification (line : string) : option (string * string) :=
match line with
| String c0 rest =>
    if JS.is_upper c0 then
      let '(g, after) := JS.span in_degree_class rest in
      if JS.nonempty g then
        match after with
        | String "(" inner =>
            let '(body, close) := JS.span not_closing inner in
            if JS.nonempty body then
              match close with
              | String ")" EmptyString => Some (String c0 g, body)
              | _ => None
              end
            else None
        | _ => None
        end
      else None
    else None
| EmptyString => None
end.

End Constants.

(** ** [src/utils.js] *)

Module Utils.
Import Constants.

(** What [STATE_NAME_TO_ID[normalized] || null] gives when it is not
    [null]: the id of an entry of the mapping, or the member that the
    mapping inherits under that name. *)
#[warnings="-register-all"] Inductive stateIdValue : Type :=
| StateId (id : Z)
| InheritedMember (key : string).

(** [getStateIdByName]; a missing key and the id 0 both give [null].
    The mapping is a plain object: a name that is none of its keys
    but a property of [Object.prototype] finds that property. *)
Definition getStateIdByName (stateName : option string) : option stateIdValue :=
match stateName with
| Some (String c s) =>
    let normalized := JS.trim (JS.toLowerCase (String c s)) in
    match STATE_NAME_TO_ID !! normalized with
    | Some id => if id =? 0 then None else Some (StateId id)
    | None =>
        if JSObject.inherits normalized then Some (InheritedMember normalized)
        else None
    end
| _ => None
end.

Fixpoint lookup_state (stateId : Z) (l : list (Z * state_info)) : option state_info :=
match l with
| [] => None
| (id, data) :: l' => if id =? stateId then Some data else lookup_state stateId l'
end.

Definition getStateById (stateId : Z) : option state_info :=
lookup_state stateId MALAYSIAN_STATES.

Record stateInfo : Type := mkStateInfo {
  stateId : Z;
  stateName : string;
  stateCategory : string
}.

Definition missing_state : stateInfo := mkStateInfo 9999 "Missing" "special".

(** [extractStateFromAddress].  [None] stands for the [TypeError] of
    reading [displayName] off [null]: [getStateById] gives [null] for
    an id the table lacks and for an inherited member, which is no
    key of the table.  Neither case is ever met, as the name looked
    up is text that [PATTERNS.state] matched (see
    [extractState_total]). *)
Definition extractStateFromAddress (address : option string) : option stateInfo :=
match address with
| Some (String c s) =>
    match match_state (String c s) with
    | Some m =>
        let stateName := JS.trim (JS.toLowerCase m) in
        match getStateIdByName (Some stateName) with
        | Some (StateId stateId) =>
            info ← getStateById stateId;
            Some (mkStateInfo stateId (displayName info) (category info))
        | Some (InheritedMember _) => None
        | None => Some missing_state
        end
    | None => Some missing_state
    end
| _ => Some missing_state
end.

Definition is_sep_comma_nl (c : ascii) : bool :=
(JS.code c =? 44)%N || (JS.code c =? 10)%N.

(** [s.replace(/\d{5,}/g, '')]: every maximal run of digits of length
    five or more is removed.  [run] holds the digits of the current
    run, last first. *)
Fixpoint strip_long_digit_runs (run : string) (s : string) : string :=
let flush (run : string) : string :=
  if (5 <=? String.length run)%nat then EmptyString else JS.rev_str EmptyString run in
match s with
| EmptyString => flush run
| String c s' =>
    if JS.is_digit c then strip_long_digit_runs (String c run) s'
    else flush run +:+ String c (strip_long_digit_runs EmptyString s')
end.

(** [extractCityFromAddress] *)
Definition extractCityFromAddress (address : option string) : option string :=
match address with
| Some (String c s) =>
    let cleaned := strip_long_digit_runs EmptyString (String c s) in
    let parts := filter (fun p => p <> EmptyString)
                        (map JS.trim (JS.split_on is_sep_comma_nl cleaned)) in
    if (2 <=? length parts)%nat then
      match parts !! (length parts - 2)%nat with
      | Some potentialCity =>
          match match_state potentialCity with
          | None => Some potentialCity
          | Some _ => None
          end
      | None => None
      end
    else None
| _ => None
end.

(** [isValidNsrNumber] *)
Definition isValidNsrNumber (nsrNo : option string) : bool :=
match nsrNo with
| Some (String c s) =>
    let cleaned := JS.filter_str JS.is_digit (String c s) in
    (6 <=? String.length cleaned)%nat
| _ => false
end.

(** [cleanText] *)
Definition cleanText (text : option string) : string :=
match text with
| Some (String c s) => JS.trim (JS.collapse_spaces false (String c s))
| _ => EmptyString
end.

(** [extractGender] *)
Definition extractGender (text : option string) : option string :=
match text with
| Some (String c s) =>
    match match_gender (String c s) with
    | Some (String m0 m) => Some (String (JS.upper_char m0) (JS.toLowerCase m))
    | Some EmptyString => Some EmptyString
    | None => None
    end
| _ => None
end.

(** [parseDate] *)
Definition parseDate `{Platform} (dateStr : option string) : option string :=
match dateStr with
| Some (String c s) =>
    iso ← Date_toISOString (String c s);
    Some (JS.before_char "T" iso)
| _ => None
end.

(** [buildProfileUrl] *)
Definition buildProfileUrl (nsrNo : string) : string :=
"https://nsr.org.my/nsr/ViewSpecialistProfile.jsp?nsrNo=" +:+ nsrNo.

(** [parseQualifications] *)
Record parsedQualification : Type := mkParsedQualification {
  pq_degree : string;
  pq_awardingBody : option string
}.

Definition is_sep_qualification (c : ascii) : bool :=
(JS.code c =? 44)%N || (JS.code c =? 59)%N || (JS.code c =? 10)%N.

Definition qualification_lines (qualificationsText : string) : list string :=
filter (fun l => l <> EmptyString)
       (map JS.trim (JS.split_on is_sep_qualification qualificationsText)).

Definition parse_qualification_line (line : string) : parsedQualification :=
match match_qualification line with
| Some (g1, g2) => mkParsedQualification (JS.trim g1) (Some (JS.trim g2))
| None => mkParsedQualification line None
end.

Definition parseQualifications (qualificationsText : option string)
  : list parsedQualification :=
match qualificationsText with
| Some (String c s) => map parse_qualification_line (qualification_lines (String c s))
| _ => []
end.

End Utils.

(** ** [src/parser.js] *)

Module Parser.
Import Dom Utils.

(** The selectors of the module. *)
Definition sel_tag (t : string) : selector := [[[STag t]]].

(** [table.searchlist tbody tr] *)
Definition sel_listing_rows : selector :=
[[[STag "table"; SClass "searchlist"]; [STag "tbody"]; [STag "tr"]]].

(** [.table-heading] *)
Definition sel_table_heading : selector := [[[SClass "table-heading"]]].

(** [table.table-bordered] *)
Definition sel_bordered_tables : selector := [[[STag "table"; SClass "table-bordered"]]].

(** [#specialistName, .specialist-name, [data-field="name"]] *)
Definition sel_name_element : selector :=
[[[SId "specialistName"]]; [[SClass "specialist-name"]]; [[SAttrEq "data-field" "name"]]].

(** [#specialty, .specialty, [data-field="specialty"]] *)
Definition sel_specialty_element : selector :=
[[[SId "specialty"]]; [[SClass "specialty"]]; [[SAttrEq "data-field" "specialty"]]].

(** [.pagination, .paging, [class*="page"]] *)
Definition sel_pagination : selector :=
[[[SClass "pagination"]]; [[SClass "paging"]]; [[SAttrHas "class" "page"]]].

(** [.active, .current, [class*="active"]] *)
Definition sel_active : selector :=
[[[SClass "active"]]; [[SClass "current"]]; [[SAttrHas "class" "active"]]].

(** [a, button, [data-page]] *)
Definition sel_page_links : selector :=
[[[STag "a"]]; [[STag "button"]]; [[SAttr "data-page"]]].

(** [a:contains("Next"), a:contains("â€º"), a:contains(">>"), [data-action="next"]] *)
Definition sel_next_control : selector :=
[[[STag "a"; SContains "Next"]]; [[STag "a"; SContains "â€º"]];
 [[STag "a"; SContains ">>"]]; [[SAttrEq "data-action" "next"]]].

(** *** [parseListingPage] *)

Record stub : Type := mkStub {
  stub_nsrNo : string;
  stub_title : string;
  stub_name : string;
  stub_gender : string;
  stub_location : string;
  stub_specialty : string;
  stub_profileUrl : string
}.

Definition cell_text (c : elem) : string := cleanText (Some (elem_text c)).

(** The body of the [each] callback: the stub a row contributes, or
    [None] where the callback returns early. *)
Definition listing_row (row : elem) : option stub :=
if hasClass "table-heading" row then None
else
  match find (sel_tag "td") [row] with
  | c0 :: c1 :: c2 :: c3 :: c4 :: c5 :: _ =>
      let nsrNo := cell_text c0 in
      if negb (isValidNsrNumber (Some nsrNo)) then None
      else
        let title := cell_text c1 in
        let nameLink := find (sel_tag "a") [c2] in
        let name := cleanText (Some (JS.or_else (Some (text nameLink)) (elem_text c2))) in
        let profileUrl :=
          match attr_of "href" nameLink with
          | Some (String h href) => "https://www.nsr.org.my/" +:+ String h href
          | _ => buildProfileUrl nsrNo
          end in
        Some (mkStub nsrNo title name (cell_text c3) (cell_text c4) (cell_text c5)
                     profileUrl)
  | _ => None
  end.

Definition push_row (specialists : list stub) (row : elem) : list stub :=
match listing_row row with
| Some s => specialists ++ [s]
| None => specialists
end.

Definition parseListingRows (rows : list elem) : list stub :=
foldl push_row [] rows.

Definition parseListingPage (html : document) : list stub :=
parseListingRows (select sel_listing_rows html).

(** *** [parseProfilePage] *)

(** The [year] of a structured qualification: [null], [NaN] or a number. *)
Inductive year_value : Type :=
| YearNull
| YearNaN
| YearNum (y : Z).

Record qualification : Type := mkQualification {
  degree : string;
  awardingBody : string;
  year : year_value
}.

Record specialist : Type := mkSpecialist {
  nsrNo : string;
  profileUrl : string;
  name : option string;
  jobTitle : option string;
  title : option string;
  gender : option string;
  specialty : option string;
  qualifications : list string;
  qualificationsStructured : list qualification;
  state : option string;
  stateId : option Z;
  state_category : option string;
  city : option string;
  address : option string;
  establishment : option string;
  sector : option string;
  lastRenewalDate : option string
}.

(** Assignments to the fields of the record. *)
Definition set_nsrNo (v : string) (s : specialist) : specialist :=
mkSpecialist v (profileUrl s) (name s) (jobTitle s) (title s) (gender s) (specialty s)
  (qualifications s) (qualificationsStructured s) (state s) (stateId s)
  (state_category s) (city s) (address s) (establishment s) (sector s) (lastRenewalDate s).

Definition set_name (v : option string) (s : specialist) : specialist :=
mkSpecialist (nsrNo s) (profileUrl s) v (jobTitle s) (title s) (gender s) (specialty s)
  (qualifications s) (qualificationsStructured s) (state s) (stateId s)
  (state_category s) (city s) (address s) (establishment s) (sector s) (lastRenewalDate s).

Definition set_title (v : option string) (s : specialist) : specialist :=
mkSpecialist (nsrNo s) (profileUrl s) (name s) (jobTitle s) v (gender s) (specialty s)
  (qualifications s) (qualificationsStructured s) (state s) (stateId s)
  (state_category s) (city s) (address s) (establishment s) (sector s) (lastRenewalDate s).

Definition set_gender (v : option string) (s : specialist) : specialist :=
mkSpecialist (nsrNo s) (profileUrl s) (name s) (jobTitle s) (title s) v (specialty s)
  (qualifications s) (qualificationsStructured s) (state s) (stateId s)
  (state_category s) (city s) (address s) (establishment s) (sector s) (lastRenewalDate s).

Definition set_specialty (v : option string) (s : specialist) : specialist :=
mkSpecialist (nsrNo s) (profileUrl s) (name s) (jobTitle s) (title s) (gender s) v
  (qualifications s) (qualificationsStructured s) (state s) (stateId s)
  (state_category s) (city s) (address s) (establishment s) (sector s) (lastRenewalDate s).

Definition push_qualification (raw : string) (q : qualification) (s : specialist)
  : specialist :=
mkSpecialist (nsrNo s) (profileUrl s) (name s) (jobTitle s) (title s) (gender s)
  (specialty s) (qualifications s ++ [raw]) (qualificationsStructured s ++ [q])
  (state s) (stateId s) (state_category s) (city s) (address s) (establishment s)
  (sector s) (lastRenewalDate s).

Definition set_state (i : stateInfo) (s : specialist) : specialist :=
mkSpecialist (nsrNo s) (profileUrl s) (name s) (jobTitle s) (title s) (gender s)
  (specialty s) (qualifications s) (qualificationsStructured s)
  (Some (stateName i)) (Some (Utils.stateId i)) (Some (stateCategory i))
  (city s) (address s) (establishment s) (sector s) (lastRenewalDate s).

Definition set_city (v : option string) (s : specialist) : specialist :=
mkSpecialist (nsrNo s) (profileUrl s) (name s) (jobTitle s) (title s) (gender s)
  (specialty s) (qualifications s) (qualificationsStructured s) (state s) (stateId s)
  (state_category s) v (address s) (establishment s) (sector s) (lastRenewalDate s).

Definition set_address (v : option string) (s : specialist) : specialist :=
mkSpecialist (nsrNo s) (profileUrl s) (name s) (jobTitle s) (title s) (gender s)
  (specialty s) (qualifications s) (qualificationsStructured s) (state s) (stateId s)
  (state_category s) (city s) v (establishment s) (sector s) (lastRenewalDate s).

Definition set_establishment (v : option string) (s : specialist) : specialist :=
mkSpecialist (nsrNo s) (profileUrl s) (name s) (jobTitle s) (title s) (gender s)
  (specialty s) (qualifications s) (qualificationsStructured s) (state s) (stateId s)
  (state_category s) (city s) (address s) v (sector s) (lastRenewalDate s).

Definition set_sector (v : option string) (s : specialist) : specialist :=
mkSpecialist (nsrNo s) (profileUrl s) (name s) (jobTitle s) (title s) (gender s)
  (specialty s) (qualifications s) (qualificationsStructured s) (state s) (stateId s)
  (state_category s) (city s) (address s) (establishment s) v (lastRenewalDate s).

Definition set_lastRenewalDate (v : option string) (s : specialist) : specialist :=
mkSpecialist (nsrNo s) (profileUrl s) (name s) (jobTitle s) (title s) (gender s)
  (specialty s) (qualifications s) (qualificationsStructured s) (state s) (stateId s)
  (state_category s) (city s) (address s) (establishment s) (sector s) v.

(** The record the parser starts from. *)
Definition initial_specialist (nsrNo : string) : specialist :=
mkSpecialist nsrNo (buildProfileUrl nsrNo) None None None None None [] []
             None None None None None None None None.

(** The three section flags. *)
Record section : Type := mkSection {
  inPersonalData : bool;
  inClinicalPractice : bool;
  inQualifications : bool
}.

Definition enter_section (tableText : string) (f : section) : section :=
if JS.includes "Personal Data" tableText then mkSection true false false
else if JS.includes "Clinical Practice" tableText then mkSection false true false
else if JS.includes "Qualifications" tableText
        || JS.includes "Degree/Membership/Fellowship" tableText
     then mkSection false false true
else f.

(** The address assignment with the state and city derived from it;
    [None] stands for an exception inside [extractStateFromAddress]. *)
Definition assign_address (value : string) (s : specialist) : option specialist :=
stateInfo ← extractStateFromAddress (Some value);
Some (set_city (extractCityFromAddress (Some value))
               (set_state stateInfo (set_address (Some value) s))).

(** A qualifications row of three cells. *)
Definition qualification_row (c0 c1 c2 : elem) (s : specialist) : specialist :=
let degree := cell_text c0 in
let awardingBody := cell_text c1 in
let year := cell_text c2 in
if JS.nonempty degree
   && negb (JS.includes "degree/membership" (JS.toLowerCase degree))
   && negb (JS.includes "basic degree" (JS.toLowerCase degree))
   && negb (JS.includes "specialist degree" (JS.toLowerCase degree))
   && JS.nonempty awardingBody
   && negb (JS.includes "awarding body" (JS.toLowerCase awardingBody))
then
  push_qualification
    (degree +:+ " (" +:+ awardingBody +:+ ", " +:+ year +:+ ")")
    (mkQualification degree awardingBody
       (if JS.nonempty year
        then match JS.parseInt year with Some y => YearNum y | None => YearNaN end
        else YearNull))
    s
else s.

(** A label and value pair of the table scan. *)
Definition labelled_value `{Platform} (nsrNo0 : string) (f : section)
           (label value : string) (s : specialist) : option specialist :=
if JS.includes "nsr no" label then Some (set_nsrNo (JS.or_else (Some value) nsrNo0) s)
else if String.eqb label "title" && inPersonalData f then Some (set_title (Some value) s)
else if String.eqb label "name" && inPersonalData f then Some (set_name (Some value) s)
else if String.eqb label "name" && inClinicalPractice f
     then Some (set_establishment (Some value) s)
else if JS.includes "gender" label
     then Some (set_gender (Some (JS.or_else (extractGender (Some value)) value)) s)
else if JS.includes "field" label && JS.includes "practice" label
     then Some (set_specialty (Some value) s)
else if JS.includes "address" label then assign_address value s
else if JS.includes "sector" label then Some (set_sector (Some value) s)
else if JS.includes "renewal" label || JS.includes "last renewed" label
     then Some (set_lastRenewalDate (parseDate (Some value)) s)
else Some s.


(** Fold of a step that may raise an exception. *)
Definition foldM {A B : Type} (step : A -> B -> option A) (l : list B) (a : A)
  : option A :=
foldl (fun acc x => acc ≫= fun a => step a x) (Some a) l.

(** The body of the callback run on each row of a table. *)
Definition profile_row `{Platform} (nsrNo0 : string) (f : section)
           (s : specialist) (row : elem) : option specialist :=
let cells := find (sel_tag "td") [row] in
match cells with
| [c0; c1; c2] =>
    if inQualifications f then Some (qualification_row c0 c1 c2 s)
    else labelled_value nsrNo0 f (JS.toLowerCase (cell_text c1)) (cell_text c2) s
| _ =>
    if (2 <=? length cells)%nat then
      match cells !! (length cells - 2)%nat, cells !! (length cells - 1)%nat with
      | Some labelCell, Some valueCell =>
          labelled_value nsrNo0 f (JS.toLowerCase (cell_text labelCell))
                         (cell_text valueCell) s
      | _, _ => Some s
      end
    else Some s
end.

(** The body of the callback run on each bordered table. *)
Definition profile_table `{Platform} (nsrNo0 : string)
           (st : section * specialist) (table : elem) : option (section * specialist) :=
let f := enter_section (elem_text table) (fst st) in
s ← foldM (profile_row nsrNo0 f) (find (sel_tag "tr") [table]) (snd st);
Some (f, s).

(** The two element look-ups that fill a still empty name or specialty. *)
Definition fill_from_elements (html : document) (s : specialist) : specialist :=
let nameElement := select sel_name_element html in
let s1 :=
  if (0 <? length nameElement)%nat && negb (JS.truthy (name s))
  then set_name (Some (cleanText (Some (text nameElement)))) s else s in
let specialtyElement := select sel_specialty_element html in
if (0 <? length specialtyElement)%nat && negb (JS.truthy (specialty s1))
then set_specialty (Some (cleanText (Some (text specialtyElement)))) s1 else s1.

(** A [dt]/[dd] pair of a definition list. *)
Definition definition_pair (s : specialist) (p : elem * elem) : option specialist :=
let labelText := JS.toLowerCase (cell_text (fst p)) in
let valueText := cell_text (snd p) in
if JS.includes "name" labelText && negb (JS.truthy (name s))
then Some (set_name (Some valueText) s)
else if JS.includes "specialty" labelText && negb (JS.truthy (specialty s))
then Some (set_specialty (Some valueText) s)
else if JS.includes "address" labelText && negb (JS.truthy (address s))
then assign_address valueText s
else Some s.

Definition definition_list (s : specialist) (dl : elem) : option specialist :=
let labels := find (sel_tag "dt") [dl] in
let values := find (sel_tag "dd") [dl] in
foldM definition_pair (zip labels values) s.

(** The last guard: the state derived from an address that has none yet. *)
Definition fill_state (s : specialist) : option specialist :=
if negb (JS.truthy (state s)) && JS.truthy (address s)
then stateInfo ← extractStateFromAddress (address s); Some (set_state stateInfo s)
else Some s.

(** [parseProfilePage]; [None] stands for an exception. *)
Definition parseProfilePage `{Platform} (html : document) (nsrNo : string)
  : option specialist :=
st ← foldM (profile_table nsrNo) (select sel_bordered_tables html)
           (mkSection false false false, initial_specialist nsrNo);
s ← foldM definition_list (select (sel_tag "dl") html)
          (fill_from_elements html (snd st));
fill_state s.

(** *** [parsePaginationInfo] *)

Record paginationInfo : Type := mkPaginationInfo {
  currentPage : Z;
  totalPages : Z;
  hasNext : bool
}.

(** [Math.max(...l)] of a non-empty list. *)
Definition max_list (l : list Z) : option Z :=
match l with
| [] => None
| x :: l' => Some (foldl Z.max x l')
end.

Definition parsePaginationInfo (html : document) : paginationInfo :=
let pagination := select sel_pagination html in
if (0 <? length pagination)%nat then
  let active := find sel_active pagination in
  let currentPage :=
    if (0 <? length active)%nat
    then default 1 (JS.parseInt (cleanText (Some (text active))))
    else 1 in
  let pageNumbers :=
    omap (fun el => JS.parseInt (cell_text el)) (find sel_page_links pagination) in
  let totalPages := default 1 (max_list pageNumbers) in
  let next := find sel_next_control pagination in
  mkPaginationInfo currentPage totalPages
    ((0 <? length next)%nat && negb (set_hasClass "disabled" next))
else mkPaginationInfo 1 1 false.

(** *** [hasResults] *)

Definition noResultsTexts : list string :=
[ "no records found"; "no results"; "no specialist found"; "tidak ada rekod";
  "no data available" ].

Definition hasResults (html : document) : bool :=
let specialistRows := not_ sel_table_heading (select sel_listing_rows html) in
if (0 <? length specialistRows)%nat then true
else
  let bodyText := JS.toLowerCase (text (select (sel_tag "body") html)) in
  if existsb (fun t => JS.includes t bodyText) noResultsTexts then false
  else false.

End Parser.

(** ** Requests and the request queue *)

Record userData : Type := mkUserData {
  ud_label : string;
  ud_stateId : option Z;
  ud_stateName : option string;
  ud_nsrNo : option string;
  ud_page : option Z
}.

Record request : Type := mkRequest {
  req_url : string;
  req_uniqueKey : option string;
  req_userData : userData
}.

(** The key under which the queue files a request. *)
Definition request_key `{Platform} (r : request) : string :=
match req_uniqueKey r with
| Some k => k
| None => defaultUniqueKey (req_url r)
end.

(** The request queue of the crawler, which the sources use through
    [crawler.addRequests] and [crawler.run]: the requests accepted so
    far, in order, and the keys it has seen.  The queue belongs to the
    Crawlee library and is no code of the sources. *)
Record queue : Type := mkQueue {
  accepted : list request;
  seen : gset string
}.

Definition empty_queue : queue := mkQueue [] ∅.

(** Modelled from the spec: [crawler.addRequests([r])], a method of
    the Crawlee library, which is not among the sources.  The spec has
    the frontier insert the dedup key of a new task into its dedup set
    by check-and-insert, so that a task whose key the set holds is not
    enqueued again: a request whose key was seen is dropped.  The key
    is the [uniqueKey] of the request or, when it names none, the one
    the library derives from its URL, a platform service. *)
Definition addRequest `{Platform} (q : queue) (r : request) : queue :=
if decide (request_key r ∈ seen q) then q
else mkQueue (accepted q ++ [r]) ({[request_key r]} ∪ seen q).

Definition addRequests `{Platform} (q : queue) (rs : list request) : queue :=
foldl addRequest q rs.

(** [`${n}`] for a number that may be [undefined] or [NaN]. *)
Definition show_num (missing : string) (n : option Z) : string :=
match n with
| Some z => pretty z
| None => missing
end.

(** [`SEARCH-${stateId}-${page}`], the unique key of the request for a
    listing page. *)
Definition search_key (stateId : option Z) (page : option Z) : string :=
"SEARCH-" +:+ show_num "undefined" stateId +:+ "-" +:+ show_num "NaN" page.

(** ** The Cheerio crawler with direct search URLs *)

Module Crawler.
Import Dom Utils Parser.

(** [buildSearchGetUrl]; [None] stands for an exception of [new URL]. *)
Definition buildSearchGetUrl `{Platform} (stateId : Z) (page : Z) : option string :=
searchUrl ← URL_new (Constants.NSR_BASE_URL +:+ "/list1pview.asp");
let q1 := searchParams_set "state_ForSearch" (pretty stateId) (url_query searchUrl) in
let q2 := if 1 <? page then searchParams_set "page" (pretty page) q1 else q1 in
Some (URL_href (mkURL (url_base searchUrl) q2 (url_hash searchUrl))).

(** The selectors tried for a link to the next page, in order. *)
Definition nextSelectors : list selector :=
[ [[[STag "a"; SContains "Next"]]];
  [[[STag "a"; SContains "›"]]];
  [[[STag "a"; SContains ">>"]]];
  [[[STag "a"; SContains ">"]]];
  [[[SAttrHas "class" "next"]; [STag "a"]]];
  [[[SClass "pagination"]; [STag "a"; SLastChild]]] ].

(** [.disabled, [disabled]] *)
Definition sel_disabled : selector := [[[SClass "disabled"]]; [[SAttr "disabled"]]].

(** [a[href*="page="], a[href*="list1pview"]] *)
Definition sel_numbered_links : selector :=
[[[STag "a"; SAttrHas "href" "page="]]; [[STag "a"; SAttrHas "href" "list1pview"]]].

(** Comparisons of a number that may be [NaN] with a number. *)
Definition num_ge (a : option Z) (b : Z) : bool :=
match a with Some x => b <=? x | None => false end.

Definition num_le (a : option Z) (b : Z) : bool :=
match a with Some x => x <=? b | None => false end.

Definition num_gt (a : option Z) (b : Z) : bool :=
match a with Some x => b <? x | None => false end.

Definition num_lt (a : option Z) (b : Z) : bool :=
match a with Some x => x <? b | None => false end.

(** [parseInt(p)] of a query parameter that may be [null]. *)
Definition parseInt_param (p : option string) : option Z :=
p ≫= JS.parseInt.

(** [isValidNextPageUrl]; an exception of [new URL] is caught and
    gives [false]. *)
Definition isValidNextPageUrl `{Platform} (url currentUrl : string) (currentPage : Z)
  : bool :=
match URL_new url with
| None => false
| Some urlObj =>
    let pageParam := searchParams_get "page" (url_query urlObj) in
    if JS.truthy pageParam
       && (num_ge (parseInt_param pageParam) 1000
           || num_le (parseInt_param pageParam) currentPage)
    then false
    else if String.eqb url currentUrl then false
    else
      match URL_new currentUrl with
      | None => false
      | Some currentUrlObj =>
          let currentStateFilter :=
            searchParams_get "state_ForSearch" (url_query currentUrlObj) in
          let nextStateFilter := searchParams_get "state_ForSearch" (url_query urlObj) in
          if JS.truthy currentStateFilter
             && negb (bool_decide (nextStateFilter = currentStateFilter))
          then false
          else true
      end
end.

(** Strategy 1, one selector: the link it finds, when that link passes
    the guard. *)
Definition next_link `{Platform} (html : document) (currentUrl : string)
           (currentPage : Z) (sel : selector) : option string :=
let next := not_ sel_disabled (select sel html) in
if (0 <? length next)%nat then
  match attr_of "href" next with
  | Some href =>
      if JS.nonempty href && negb (JS.includes "javascript:" href)
         && negb (JS.includes "#" href)
      then
        match URL_new_rel href currentUrl with
        | Some u =>
            let absoluteUrl := URL_href u in
            if isValidNextPageUrl absoluteUrl currentUrl currentPage then
              match URL_new absoluteUrl with
              | Some nextUrlObj =>
                  let nextPageParam := searchParams_get "page" (url_query nextUrlObj) in
                  if negb (JS.truthy nextPageParam)
                     || num_gt (parseInt_param nextPageParam) currentPage
                  then Some absoluteUrl
                  else None
              | None => None
              end
            else None
        | None => None
        end
      else None
  | None => None
  end
else None.

(** The first selector of the list whose link is accepted. *)
Fixpoint first_next_link `{Platform} (html : document) (currentUrl : string)
         (currentPage : Z) (sels : list selector) : option string :=
match sels with
| [] => None
| sel :: sels' =>
    match next_link html currentUrl currentPage sel with
    | Some u => Some u
    | None => first_next_link html currentUrl currentPage sels'
    end
end.

Record pageLink : Type := mkPageLink {
  pl_page : Z;
  pl_url : string
}.

(** Strategy 2, one anchor: the entry it adds to [pageLinks], if any. *)
Definition numbered_link `{Platform} (currentUrl : string) (currentPage : Z)
           (el : elem) : option pageLink :=
match lookup_attr "href" (attrs el) with
| Some href =>
    if negb (JS.nonempty href) || JS.includes "javascript:" href then None
    else
      match URL_new_rel href currentUrl with
      | Some u =>
          let absoluteUrl := URL_href u in
          if negb (isValidNextPageUrl absoluteUrl currentUrl currentPage) then None
          else
            match URL_new absoluteUrl with
            | Some urlObj =>
                let pageParam := searchParams_get "page" (url_query urlObj) in
                if JS.truthy pageParam then
                  let pageNum := parseInt_param pageParam in
                  if num_gt pageNum currentPage && num_lt pageNum 1000
                  then (fun p => mkPageLink p absoluteUrl) <$> pageNum
                  else None
                else
                  let textPageNum := JS.parseInt (JS.trim (elem_text el)) in
                  if num_gt textPageNum currentPage && num_lt textPageNum 1000
                  then (fun p => mkPageLink p absoluteUrl) <$> textPageNum
                  else None
            | None => None
            end
      | None => None
      end
| None => None
end.

(** [pageLinks.sort((a, b) => a.page - b.page)]: a stable sort. *)
Fixpoint insert_link (x : pageLink) (l : list pageLink) : list pageLink :=
match l with
| [] => [x]
| y :: l' => if pl_page x <=? pl_page y then x :: y :: l' else y :: insert_link x l'
end.

Definition sort_links (l : list pageLink) : list pageLink :=
foldr insert_link [] l.

(** Strategy 4: the current URL with its page parameter set to the
    next page. *)
Definition constructed_url `{Platform} (currentUrl : string) (currentPage : Z)
  : option string :=
match URL_new currentUrl with
| Some currentUrlObj =>
    let nextPage := currentPage + 1 in
    if 1000 <=? nextPage then None
    else
      let nextUrl :=
        URL_href (mkURL (url_base currentUrlObj)
                        (searchParams_set "page" (pretty nextPage)
                                          (url_query currentUrlObj))
                        (url_hash currentUrlObj)) in
      if isValidNextPageUrl nextUrl currentUrl currentPage then Some nextUrl else None
| None => None
end.

(** [findNextPageUrl] *)
Definition findNextPageUrl `{Platform} (html : document) (currentUrl : string)
           (currentPage : Z) : option string :=
match first_next_link html currentUrl currentPage nextSelectors with
| Some u => Some u
| None =>
    let pageLinks :=
      omap (numbered_link currentUrl currentPage) (select sel_numbered_links html) in
    match sort_links pageLinks with
    | l :: _ => Some (pl_url l)
    | [] =>
        let paginationInfo := parsePaginationInfo html in
        let hasNextPage :=
          hasNext paginationInfo
          && (Parser.currentPage paginationInfo <? totalPages paginationInfo) in
        if negb hasNextPage then None
        else constructed_url currentUrl currentPage
    end
end.

(** The request for the profile page of a stub. *)
Definition profile_request (stateId : option Z) (stateName : option string)
           (s : stub) : request :=
mkRequest (stub_profileUrl s) None
          (mkUserData "PROFILE" stateId stateName (Some (stub_nsrNo s)) None).

(** [handleListPage]: the requests handed to [crawler.addRequests],
    in order.  Both branches on [isFullCrawl] only write to the log. *)
Definition handleListPage (html : document) (stateId : option Z)
           (stateName : option string) (req : request) (label : string)
  : list request :=
let isFullCrawl := String.eqb label "LIST" in
if negb (hasResults html) then []
else
  let specialists := parseListingPage html in
  let enqueued := map (profile_request stateId stateName) specialists in
  if isFullCrawl then enqueued else enqueued.

(** [handleProfilePage] on the dataset that [Dataset.pushData] appends
    to; [None] stands for an exception of the parser. *)
Definition handleProfilePage `{Platform} (html : document) (nsrNo : string)
           (dataset : list specialist) : option (list specialist) :=
specialist ← parseProfilePage html nsrNo;
Some (dataset ++ [specialist]).

(** The states a run covers ([statesToScrape] in [Actor.main], the
    same in both crawlers): the ids of the names given or, with no
    name given, all ids of the table.  A name is looked up in lower
    case; a name the table lacks is dropped.  The names
    [constructor] and [__proto__] find a member that the mapping
    inherits, not an id; the loop over the states passes over it, as
    [getStateById] knows no such key, so it is dropped here. *)
Definition statesToScrape (states : list string) : list Z :=
if (0 <? length states)%nat
then omap (fun s => match Constants.STATE_NAME_TO_ID !! JS.toLowerCase s with
                    | Some id => if id =? 0 then None else Some id
                    | None => None
                    end) states
else map fst Constants.MALAYSIAN_STATES.

(** The request for a page of the unfiltered list. *)
Definition page_request (page : Z) : request :=
mkRequest (if page =? 1
           then Constants.NSR_BASE_URL +:+ "/list1pview.asp"
           else Constants.NSR_BASE_URL +:+ "/list1pview.asp?page=" +:+ pretty page)
          (Some ("PAGE-" +:+ pretty page))
          (mkUserData "LIST" None None None (Some page)).

(** The request for the first result page of a state; the outer
    [None] stands for an exception of [buildSearchGetUrl], the inner
    one for a state the loop passes over. *)
Definition state_request `{Platform} (states : list string) (stateId : Z)
  : option (option request) :=
match getStateById stateId with
| Some stateInfo =>
    if String.eqb (Constants.category stateInfo) "special" && (length states =? 0)%nat
    then Some None
    else
      searchUrl ← buildSearchGetUrl stateId 1;
      Some (Some (mkRequest searchUrl (Some (search_key (Some stateId) (Some 1)))
                    (mkUserData "SEARCH" (Some stateId)
                                (Some (Constants.displayName stateInfo)) None (Some 1))))
| None => Some None
end.

(** The start requests that [Actor.main] hands to [crawler.run]:
    the URLs given, or the pages 1 to [totalPages] of the unfiltered
    list, or the first result page of each state. *)
Definition startRequests `{Platform} (startUrls : list request) (states : list string)
           (fullCrawl : bool) (totalPages : Z) : option (list request) :=
if (0 <? length startUrls)%nat then Some startUrls
else if fullCrawl then Some (map page_request (seqZ 1 totalPages))
else
  foldM (fun urls stateId =>
           r ← state_request states stateId;
           Some (match r with Some req => urls ++ [req] | None => urls end))
        (statesToScrape states) [].

End Crawler.

(** The walk over the listing pages of one state, as the search
    handler of the crawl plan runs it on [findNextPageUrl]: a page
    without results ends it; otherwise the handler asks for the next
    URL with its own page counter and, given one, requests it under
    the counter plus one (unique key [SEARCH-<state>-<counter>], so
    the queue never refuses it).  [fetch] is the site: the document it
    serves for a URL at a given counter.  The result lists the
    requests handled, each with its counter. *)
Fixpoint walk `{Platform} (fuel : nat) (fetch : string -> Z -> Dom.document)
         (url : string) (page : Z) : list (string * Z) :=
match fuel with
| O => []
| S fuel' =>
    (url, page) ::
    if negb (Parser.hasResults (fetch url page)) then []
    else
      match Crawler.findNextPageUrl (fetch url page) url page with
      | Some nextPageUrl => walk fuel' fetch nextPageUrl (page + 1)
      | None => []
      end
end.

(** The [page] parameter of a URL and the page number read off it. *)
Definition page_param `{Platform} (url : string) : option string :=
URL_new url ≫= fun u => searchParams_get "page" (url_query u).

Definition page_number `{Platform} (url : string) : option Z :=
Crawler.parseInt_param (page_param url).

(** The state filter of a URL. *)
Definition state_filter `{Platform} (url : string) : option string :=
URL_new url ≫= fun u => searchParams_get "state_ForSearch" (url_query u).

(** ** [src/main.js]: the crawler that submits the search form *)

Module Main.
Import Dom Utils Parser.

(** [input, select] *)
Definition sel_fields : selector := [[[STag "input"]]; [[STag "select"]]].

(** [option:selected] *)
Definition sel_option_selected : selector := [[[STag "option"; SSelected]]].

(** [:checked] *)
Definition sel_checked : selector := [[[SChecked]]].

(** [$el.prop('tagName')] *)
Definition tagName (e : elem) : string := JS.toUpperCase (tag e).

(** The body of the [each] callback of [extractFormFields]. *)
Definition form_field (formData : gmap string string) (el : elem)
  : gmap string string :=
let name := lookup_attr "name" (attrs el) in
let type := JS.or_else (lookup_attr "type" (attrs el)) (JS.toLowerCase (tagName el)) in
match name with
| Some (String n0 n) =>
    let name := String n0 n in
    if String.eqb type "hidden" || String.eqb type "input" then
      <[name := JS.or_else (lookup_attr "value" (attrs el)) ""]> formData
    else if String.eqb type "select" then
      let selected := find sel_option_selected [el] in
      <[name := if (0 <? length selected)%nat
                then JS.or_else (attr_of "value" selected) (text selected)
                else JS.or_else (attr_of "value" (first (find (sel_tag "option") [el]))) ""
       ]> formData
    else if String.eqb type "checkbox" || String.eqb type "radio" then
      if is_ sel_checked [el]
      then <[name := JS.or_else (lookup_attr "value" (attrs el)) "on"]> formData
      else formData
    else formData
| _ => formData
end.

(** [extractFormFields] *)
Definition extractFormFields (html : document) : gmap string string :=
foldl form_field ∅ (find sel_fields (select (sel_tag "form") html)).

(** [a:contains("Next"), a:contains("›"), .pagination a:last-child] *)
Definition sel_next : selector :=
[[[STag "a"; SContains "Next"]]; [[STag "a"; SContains "›"]];
 [[SClass "pagination"]; [STag "a"; SLastChild]]].

(** [.disabled] *)
Definition sel_dot_disabled : selector := [[[SClass "disabled"]]].

(** The request for the next listing page, built inside the [try]
    block of [handleSearchPage]; an exception of [new URL] ends the
    block with nothing enqueued. *)
Definition next_page_request `{Platform} (html : document) (stateId : option Z)
           (stateName : option string) (req : request) : list request :=
let paginationInfo := parsePaginationInfo html in
if hasNext paginationInfo then
  let next := not_ sel_dot_disabled (select sel_next html) in
  if (0 <? length next)%nat then
    match attr_of "href" next with
    | Some (String h href) =>
        match URL_new_rel (String h href) (req_url req) with
        | Some u =>
            let nextPage := (fun p => p + 1) <$> ud_page (req_userData req) in
            [ mkRequest (URL_href u) (Some (search_key stateId nextPage))
                (mkUserData "SEARCH" stateId stateName None nextPage) ]
        | None => []
        end
    | _ => []
    end
  else []
else [].

(** [handleSearchPage]: the requests handed to [crawler.addRequests],
    in order. *)
Definition handleSearchPage `{Platform} (html : document) (stateId : option Z)
           (stateName : option string) (req : request) : list request :=
if negb (hasResults html) then []
else
  map (Crawler.profile_request stateId stateName) (parseListingPage html)
  ++ next_page_request html stateId stateName req.

(** The assignment the [each] callback of [extractFormFields] makes
    for an element: the name and the value, if any. *)
Definition field_assignment (el : elem) : option (string * string) :=
let name := lookup_attr "name" (attrs el) in
let type := JS.or_else (lookup_attr "type" (attrs el)) (JS.toLowerCase (tagName el)) in
match name with
| Some (String n0 n) =>
    let name := String n0 n in
    if String.eqb type "hidden" || String.eqb type "input" then
      Some (name, JS.or_else (lookup_attr "value" (attrs el)) "")
    else if String.eqb type "select" then
      let selected := find sel_option_selected [el] in
      Some (name,
            if (0 <? length selected)%nat
            then JS.or_else (attr_of "value" selected) (text selected)
            else JS.or_else (attr_of "value" (first (find (sel_tag "option") [el]))) "")
    else if String.eqb type "checkbox" || String.eqb type "radio" then
      if is_ sel_checked [el]
      then Some (name, JS.or_else (lookup_attr "value" (attrs el)) "on")
      else None
    else None
| _ => None
end.

(** The elements [extractFormFields] visits. *)
Definition form_elements (html : document) : list elem :=
find sel_fields (select (sel_tag "form") html).

(** [extractFormFields] with the object it builds, property by property. *)
Definition extractFormFieldsObject (html : document) : JSObject.object :=
foldl (fun formData el =>
         match field_assignment el with
         | Some (k, v) => JSObject.set k v formData
         | None => formData
         end)
      [] (form_elements html).

Record postRequest : Type := mkPostRequest {
  post_url : string;
  post_method : string;
  post_payload : string;
  post_headers : list (string * string)
}.

Definition encode_pair (kv : string * string) : string :=
JS.encodeURIComponent (fst kv) +:+ "=" +:+ JS.encodeURIComponent (snd kv).

(** [buildSearchPostRequest]; the state field is written into the
    form data before they are serialised. *)
Definition buildSearchPostRequest (stateId : Z) (formData : JSObject.object)
  : postRequest :=
let formData := JSObject.set "state_ForSearch" (pretty stateId) formData in
let formDataString := JS.join "&" (map encode_pair (JSObject.entries formData)) in
let postUrl := Constants.NSR_BASE_URL +:+ "/list1pview.asp" in
mkPostRequest postUrl "POST" formDataString
  [("Content-Type", "application/x-www-form-urlencoded");
   ("Referer", Constants.NSR_SEARCH_URL)].

(** [handleSearchForm]: the request handed to [crawler.addRequests],
    with the method, payload and headers it carries. *)
Definition handleSearchForm (html : document) (stateId : Z) (stateName : option string)
  : list (request * postRequest) :=
let formData := extractFormFieldsObject html in
let postRequest := buildSearchPostRequest stateId formData in
[ (mkRequest (post_url postRequest) (Some (search_key (Some stateId) (Some 1)))
             (mkUserData "SEARCH" (Some stateId) stateName None (Some 1)),
   postRequest) ].

(** The start request of a state, or [None] where the loop continues. *)
Definition start_request (states : list string) (stateId : Z) : option request :=
match getStateById stateId with
| Some stateInfo =>
    if String.eqb (Constants.category stateInfo) "special" && (length states =? 0)%nat
    then None
    else Some (mkRequest Constants.NSR_SEARCH_URL
                 (Some ("SEARCH-FORM-" +:+ pretty stateId))
                 (mkUserData "SEARCH_FORM" (Some stateId)
                             (Some (Constants.displayName stateInfo)) None (Some 1)))
| None => None
end.

(** The start requests that [Actor.main] hands to [crawler.run]. *)
Definition startRequests (startUrls : list request) (states : list string)
  : list request :=
if (0 <? length startUrls)%nat then startUrls
else omap (start_request states) (Crawler.statesToScrape states).

End Main.

(** ** A platform to run the model on

    A reading of URLs that agrees with the WHATWG one on absolute
    [http]/[https] URLs in normal form with plain query strings, and a
    resolution of references that are absolute, begin with [?], or
    name a file in the directory of the base. *)

Module SimplePlatform.

Fixpoint split_at (c : ascii) (s : string) : string * option string :=
match s with
| EmptyString => (EmptyString, None)
| String d s' =>
    if Ascii.eqb c d then (EmptyString, Some s')
    else let '(a, b) := split_at c s' in (String d a, b)
end.

Fixpoint split_all (fuel : nat) (c : ascii) (s : string) : list string :=
match fuel with
| O => [s]
| S fuel' =>
    match split_at c s with
    | (a, Some rest) => a :: split_all fuel' c rest
    | (a, None) => [a]
    end
end.

Definition parse_pair (s : string) : string * string :=
let '(k, v) := split_at "=" s in (k, default EmptyString v).

Definition parse_query (s : string) : list (string * string) :=
map parse_pair (filter (fun p => p <> EmptyString) (split_all (String.length s) "&" s)).

Definition is_absolute (s : string) : bool :=
String.prefix "http://" s || String.prefix "https://" s.

Definition parse (s : string) : option URL :=
if is_absolute s then
  let '(front, hash) := split_at "#" s in
  let '(base, query) := split_at "?" front in
  Some (mkURL base (parse_query (default EmptyString query)) (default EmptyString hash))
else None.

Fixpoint join_query (q : list (string * string)) : string :=
match q with
| [] => EmptyString
| [(k, v)] => k +:+ "=" +:+ v
| (k, v) :: q' => k +:+ "=" +:+ v +:+ "&" +:+ join_query q'
end.

Definition href (u : URL) : string :=
url_base u
+:+ (match url_query u with [] => EmptyString | q => "?" +:+ join_query q end)
+:+ (match url_hash u with EmptyString => EmptyString | h => "#" +:+ h end).

(** What precedes the last [/] of [s], that [/] included. *)
Fixpoint directory (s : string) : string :=
match s with
| EmptyString => EmptyString
| String c s' =>
    if JS.includes "/" s' then String c (directory s')
    else if Ascii.eqb c "/" then "/" else EmptyString
end.

Definition parse_rel (ref base : string) : option URL :=
if is_absolute ref then parse ref
else
  match parse base with
  | Some b =>
      match ref with
      | String "?" _ => parse (url_base b +:+ ref)
      | _ => parse (directory (url_base b) +:+ ref)
      end
  | None => None
  end.

Definition two_digits (a b : ascii) : option Z :=
if JS.is_digit a && JS.is_digit b
then Some (10 * (Z.of_N (JS.code a) - 48) + (Z.of_N (JS.code b) - 48))
else None.

(** Dates written [YYYY-MM-DD] with a day every month has; any other
    text counts as unparsable here. *)
Definition toISOString (s : string) : option string :=
match s with
| String y1 (String y2 (String y3 (String y4 (String "-" (String m1 (String m2
    (String "-" (String d1 (String d2 EmptyString))))))))) =>
    if JS.is_digit y1 && JS.is_digit y2 && JS.is_digit y3 && JS.is_digit y4 then
      match two_digits m1 m2, two_digits d1 d2 with
      | Some m, Some d =>
          if (1 <=? m) && (m <=? 12) && (1 <=? d) && (d <=? 28)
          then Some (s +:+ "T00:00:00.000Z") else None
      | _, _ => None
      end
    else None
| _ => None
end.

(** The queue's default key: the URL itself, as the normalisation
    leaves a lower-case URL with no fragment and one query parameter. *)
Definition platform : Platform := {|
  URL_new := parse;
  URL_new_rel := parse_rel;
  URL_href := href;
  Date_toISOString := toISOString;
  defaultUniqueKey := fun url => url
|}.

End SimplePlatform.

(** ** Notions the properties are stated with *)

(** The ten decimal digits, and the number of them in a text. *)
Definition decimal_digits : list ascii :=
["0"; "1"; "2"; "3"; "4"; "5"; "6"; "7"; "8"; "9"]%char.

Definition digit_count (s : string) : nat :=
length (filter (fun c => c ∈ decimal_digits) (list_ascii_of_string s)).

(** Wrapping of body content into a whole document. *)
Definition page_of (body : list Dom.node) : Dom.document :=
[Dom.Element "html" [] [Dom.Element "head" [] []; Dom.Element "body" [] body]].

Definition anchor (href txt : string) : Dom.node :=
Dom.Element "a" [("href", href)] [Dom.Text txt].

(** The address of the sample record of the README and one in the
    order street, city, state, postal code. *)
Definition readme_address : string :=
"Hospital Sultanah Aminah, Jalan Persiaran Abu Bakar Sultan, 80100 Johor Bahru, Johor".

Definition johor_address : string :=
"12 Jalan Dato Onn, Johor Bahru, Johor 80100".

(** The rows of a listing table as the listing parser sorts them: the
    cells of a row, the cleaned text of its first cell, and the three
    reasons to skip it. *)
Definition row_cells (row : Dom.elem) : list Dom.elem :=
Dom.find (Parser.sel_tag "td") [row].

Definition row_id (row : Dom.elem) : string :=
match row_cells row with
| c0 :: _ => Parser.cell_text c0
| [] => EmptyString
end.

Definition header_row (row : Dom.elem) : Prop :=
Dom.hasClass "table-heading" row = true.

Definition short_row (row : Dom.elem) : Prop :=
(length (row_cells row) < 6)%nat.

Definition invalid_id_row (row : Dom.elem) : Prop :=
Utils.isValidNsrNumber (Some (row_id row)) = false.

Definition valid_row (row : Dom.elem) : Prop :=
~ header_row row /\ ~ short_row row /\ ~ invalid_id_row row.

(** A listing table: a heading row, three rows of specialists and a
    row of two cells. *)
Definition cell (txt : string) : Dom.node := Dom.Element "td" [] [Dom.Text txt].

Definition listing_data_row (id title nm href gender location specialty : string)
  : Dom.node :=
Dom.Element "tr" []
  [cell id; cell title; Dom.Element "td" [] [anchor href nm]; cell gender;
   cell location; cell specialty].

Definition listing_table (rows : list Dom.node) : Dom.document :=
page_of [Dom.Element "table" [("class", "searchlist table")] [Dom.Element "tbody" [] rows]].

Definition heading_row : Dom.node :=
Dom.Element "tr" [("class", "table-heading")]
  [cell "NSR No"; cell "Title"; cell "Name"; cell "Gender"; cell "Location";
   cell "Specialty"].

Definition row_ali : Dom.node :=
listing_data_row "123456" "Dr." "Ali bin Abu" "list1viewdetails.asp?Acc=123456"
                 "Male" "Johor" "Cardiology".

Definition row_tan : Dom.node :=
listing_data_row "NSR 004821" "Dr." "Tan Mei Ling" "list1viewdetails.asp?Acc=004821"
                 "Female" "Kedah" "Surgery".

Definition row_siti : Dom.node :=
listing_data_row " 765432 " "Prof." "Siti Aminah" "list1viewdetails.asp?Acc=765432"
                 "Female" "Perak" "Paediatrics".

Definition row_of_two_cells : Dom.node :=
Dom.Element "tr" [] [cell "note"; cell "incomplete row"].

Definition sample_listing : Dom.document :=
listing_table [heading_row; row_ali; row_tan; row_siti].

Definition sample_listing_with_short_row : Dom.document :=
listing_table [heading_row; row_ali; row_of_two_cells; row_tan; row_siti].

(** A profile page whose personal-data table repeats the register
    number, with another number than the one the request carries. *)
Definition labelled (label value : string) : Dom.node :=
Dom.Element "tr" [] [cell label; cell value].

Definition sample_profile : Dom.document :=
page_of
  [Dom.Element "table" [("class", "table table-bordered")]
     [Dom.Element "tbody" []
        [Dom.Element "tr" [] [Dom.Element "th" [] [Dom.Text "Personal Data"]];
         labelled "NSR No" "654321";
         labelled "Name" "Ali bin Abu";
         labelled "Gender" "male";
         labelled "Address" "12 Jalan Dato Onn, Skudai, Johor 80100"]]].

(** The invariant of the scan of a profile page: a step ends, without
    exception, in a record with the profile URL [u]. *)
Definition keeps_url {A : Type} (u : string) (proj : A -> Parser.specialist)
           (r : option A) : Prop :=
exists a, r = Some a /\ Parser.profileUrl (proj a) = u.

(** A candidate is accepted at [currentPage] when it passes the guard
    and, in addition, has no page parameter, or a page number above
    the current page, or was found while the current page is below
    999. *)
Definition accepted_at `{Platform} (url currentUrl : string) (currentPage : Z) : Prop :=
Crawler.isValidNextPageUrl url currentUrl currentPage = true
/\ (JS.truthy (page_param url) = false
    \/ Crawler.num_gt (page_number url) currentPage = true
    \/ currentPage < 999).

(** Result pages of the search for state 4 (Melaka).  [search_url] is
    the URL [buildSearchGetUrl] gives for it. *)
Definition search_url : string := "https://nsr.org.my/list1pview.asp?state_ForSearch=4".

Definition pagination_bar (links : list Dom.node) : Dom.node :=
Dom.Element "div" [("class", "pagination")] links.

(** A page whose only pagination link leads to page 1006. *)
Definition page_with_link_to_1006 : Dom.document :=
page_of [pagination_bar [anchor "list1pview.asp?state_ForSearch=4&page=1006" "Last"]].

(** The same with the link as the site writes it: labelled with the
    page number and without the state filter. *)
Definition page_with_numbered_link_to_1006 : Dom.document :=
page_of [pagination_bar [anchor "list1pview.asp?page=1006" "1006"]].

(** A page whose only link leads to page 1006 and is labelled as the
    last of 1006 pages, with the mark of a further page. *)
Definition page_with_last_page_link : Dom.document :=
page_of [pagination_bar [anchor "list1pview.asp?state_ForSearch=4&page=1006" "1006 >>"]].

(** The [href]s of the links of a document. *)
Definition link_hrefs (html : Dom.document) : list (option string) :=
map (fun e => Dom.lookup_attr "href" (Dom.attrs e))
    (Dom.select (Parser.sel_tag "a") html).

(** A page with a link to page 2, labelled Next. *)
Definition page_with_next_link : Dom.document :=
page_of [pagination_bar [anchor "list1pview.asp?state_ForSearch=4&page=2" "Next"]].

(** A search URL whose state filter is present and empty, and a page
    whose Next link carries no state filter. *)
Definition unfiltered_search_url : string :=
"https://nsr.org.my/list1pview.asp?state_ForSearch=".

Definition page_with_unfiltered_next_link : Dom.document :=
page_of [pagination_bar [anchor "list1pview.asp?page=2" "Next"]].

(** A result page: the listing table with one specialist, followed
    by the pagination links. *)
Definition result_page (links : list Dom.node) : Dom.document :=
page_of
  [Dom.Element "table" [("class", "searchlist table")]
     [Dom.Element "tbody" [] [heading_row; row_ali]];
   Dom.Element "div" [] links].

(** A site of two views of the results that link to each other with a
    Next link that names no page. *)
Definition all_view_url : string :=
"https://nsr.org.my/list1pview.asp?state_ForSearch=4&view=all".

Definition two_view_site (url : string) (page : Z) : Dom.document :=
if String.eqb url search_url
then result_page [anchor all_view_url "Next"]
else result_page [anchor search_url "Next"].

(** A site of three result pages, each listing the three page numbers. *)
Definition three_page_site (url : string) (page : Z) : Dom.document :=
result_page
  [anchor "list1pview.asp?state_ForSearch=4&page=1" "1";
   anchor "list1pview.asp?state_ForSearch=4&page=2" "2";
   anchor "list1pview.asp?state_ForSearch=4&page=3" "3"].

(** The candidates of a walk: the URLs requested after the first. *)
Definition candidates (w : list (string * Z)) : list string := map fst (tail w).

(** Requests for listing pages and for profile pages, by their label. *)
Definition is_listing_request (r : request) : bool :=
String.eqb (ud_label (req_userData r)) "SEARCH"
|| String.eqb (ud_label (req_userData r)) "LIST".

Definition is_profile_request (r : request) : bool :=
String.eqb (ud_label (req_userData r)) "PROFILE".

(** The request under which the first result page of state 4 is handled. *)
Definition first_page_request : request :=
mkRequest search_url (Some "SEARCH-4-1")
          (mkUserData "SEARCH" (Some 4) (Some "Melaka") None (Some 1)).

(** A result page with three specialists and a link to page 2. *)
Definition listing_with_next_link : Dom.document :=
page_of
  [Dom.Element "table" [("class", "searchlist table")]
     [Dom.Element "tbody" [] [heading_row; row_ali; row_tan; row_siti]];
   pagination_bar [anchor "list1pview.asp?state_ForSearch=4&page=2" "Next"]].

(** A result page that lists the specialist 123456 twice, under two
    different links. *)
Definition listing_with_repeated_id : Dom.document :=
listing_table
  [heading_row;
   listing_data_row "123456" "Dr." "Ali bin Abu" "list1viewdetails.asp?Acc=123456"
                    "Male" "Johor" "Cardiology";
   listing_data_row "123456" "Dr." "Ali bin Abu" "list1viewdetails.asp?Acc=123456&tab=2"
                    "Male" "Johor" "Cardiology"].

(** The queue files every accepted request under a key of its own and
    has seen the keys of all of them. *)
Definition queue_ok `{Platform} (q : queue) : Prop :=
NoDup (map request_key (accepted q))
/\ (forall r, r ∈ accepted q -> request_key r ∈ seen q).

(** A search form with a hidden field, a text field, a select, a
    checked box and a radio button that is not checked. *)
Definition input (type name value : string) (more : list Dom.attr) : Dom.node :=
Dom.Element "input" ([("type", type); ("name", name); ("value", value)] ++ more) [].

Definition choice (value label : string) (more : list Dom.attr) : Dom.node :=
Dom.Element "option" (("value", value) :: more) [Dom.Text label].

Definition sample_form : Dom.document :=
page_of
  [Dom.Element "form" [("action", "list1pview.asp"); ("method", "post")]
     [input "hidden" "token" "abc" [];
      input "text" "q" "cardio" [];
      Dom.Element "select" [("name", "state_ForSearch")]
        [choice "1" "Johor" []; choice "4" "Melaka" [("selected", "")]];
      Dom.Element "input" [("type", "checkbox"); ("name", "active"); ("checked", "")] [];
      input "radio" "sector" "public" []]].

(** The same form with the text field alone. *)
Definition text_field_form : Dom.document :=
page_of [Dom.Element "form" [] [input "text" "q" "cardio" []]].

(** The links pagination discovery looks at: the elements that one
    of its selectors for a link to the next page matches, and those
    its selector for numbered links matches. *)
Definition pagination_links (html : Dom.document) : list Dom.elem :=
flat_map (fun sel => Dom.select sel html) Crawler.nextSelectors
++ Dom.select Crawler.sel_numbered_links html.

(** Every such link, resolved against the current URL, leads to a
    page whose number is at or above 1000 or at or below the current
    page. *)
Definition pagination_links_out_of_range `{Platform} (html : Dom.document)
           (currentUrl : string) (currentPage : Z) : Prop :=
forall (e : Dom.elem) (href : string) (r : URL),
  e ∈ pagination_links html ->
  Dom.lookup_attr "href" (Dom.attrs e) = Some href ->
  URL_new_rel href currentUrl = Some r ->
  exists n, page_number (URL_href r) = Some n /\ (1000 <= n \/ n <= currentPage).

(** The URL of the unfiltered list, and a page of it with a
    navigation link above the pagination bar, whose only link leads
    to page 1006. *)
Definition list_url : string := "https://nsr.org.my/list1pview.asp".

Definition page_with_navigation_link : Dom.document :=
page_of [anchor "index.asp" "Home > Search";
         pagination_bar [anchor "list1pview.asp?page=1006" "Last"]].

(** A result page with three specialists whose Next link leads to
    page 1006. *)
Definition listing_with_next_link_to_1006 : Dom.document :=
page_of
  [Dom.Element "table" [("class", "searchlist table")]
     [Dom.Element "tbody" [] [heading_row; row_ali; row_tan; row_siti]];
   pagination_bar [anchor "list1pview.asp?state_ForSearch=4&page=1006" "Next"]].

(** The links [handleSearchPage] takes for links to the next page:
    the elements its own selector matches, in document order, those
    of class [disabled] left out. *)
Definition search_next_links (html : Dom.document) : list Dom.elem :=
Dom.not_ Main.sel_dot_disabled (Dom.select Main.sel_next html).

(** The links in the name cell of a listing row, its third cell, and
    the [href] of the first of them. *)
Definition name_links (row : Dom.elem) : list Dom.elem :=
match row_cells row with
| _ :: _ :: c2 :: _ => Dom.find (Parser.sel_tag "a") [c2]
| _ => []
end.

Definition name_href (row : Dom.elem) : option string :=
Dom.attr_of "href" (name_links row).

(** ** Notions the further properties are stated with *)

(** [trimEnd] by recursion on the text: a white-space character goes
    when nothing is left of what follows it. *)
Fixpoint trim_end (s : string) : string :=
match s with
| EmptyString => EmptyString
| String c s' =>
    match trim_end s' with
    | EmptyString => if JS.is_space c then EmptyString else String c EmptyString
    | r => String c r
    end
end.

(** The white space of [s] consists of single blanks; [after_space]
    tells that a blank precedes [s]. *)
Fixpoint well_spaced (after_space : bool) (s : string) : bool :=
match s with
| EmptyString => true
| String c s' =>
    if JS.is_space c
    then Ascii.eqb c " " && negb after_space && well_spaced true s'
    else well_spaced false s'
end.

(** Moreover no blank ends [s]. *)
Fixpoint single_spaced (after_space : bool) (s : string) : bool :=
match s with
| EmptyString => negb after_space
| String c s' =>
    if JS.is_space c
    then Ascii.eqb c " " && negb after_space && single_spaced true s'
    else single_spaced false s'
end.

(** A clean text: no white space at either end, and single blanks as
    the only white space inside. *)
Definition clean (s : string) : bool :=
match s with
| EmptyString => true
| _ => single_spaced true s
end.

(** Every character of [s] satisfies [p]. *)
Fixpoint all_chars (p : ascii -> bool) (s : string) : bool :=
match s with
| EmptyString => true
| String c s' => p c && all_chars p s'
end.

(** A character other than the blank. *)
Definition no_blank (c : ascii) : bool := negb (Ascii.eqb c " ").

(** The name [k] is the name or an alias of the state [id] in [MALAYSIAN_STATES]. *)
Definition names_state (k : string) (id : Z) : bool :=
match Utils.getStateById id with
| Some info => String.eqb k (Constants.name info) || existsb (String.eqb k) (Constants.aliases info)
| None => false
end.

(** The ids of the states and federal territories. *)
Definition is_state_or_territory (id : Z) : bool := (1 <=? id) && (id <=? 16).

(** A key of [STATE_NAME_TO_ID] other than "foreign" and "missing"
    leads to a state or federal territory. *)
Definition regular_key (k : string) (id : Z) : bool :=
is_state_or_territory id || String.eqb k "foreign" || String.eqb k "missing".

(** The first two characters of a text. *)
Definition first_two (s : string) : option (ascii * ascii) :=
match s with
| String a (String b _) => Some (a, b)
| _ => None
end.

(** The first two letters of a word of the state pattern: lower-case
    letters, other than those of the keys "foreign" and "missing". *)
Definition state_head (w : string) : bool :=
match first_two w with
| Some (a, b) =>
    negb (JS.is_space a) && negb (JS.is_space b)
    && Ascii.eqb (JS.lower_char a) a && Ascii.eqb (JS.lower_char b) b
    && negb (Ascii.eqb a "f" && Ascii.eqb b "o")
    && negb (Ascii.eqb a "m" && Ascii.eqb b "i")
| None => false
end.

(** Characters that are no separator of [extractCityFromAddress],
    and of [parseQualifications]. *)
Definition not_comma_nl (c : ascii) : bool := negb (Utils.is_sep_comma_nl c).

Definition not_qualification_sep (c : ascii) : bool := negb (Utils.is_sep_qualification c).

(** The numbered links of a page that pass the guard, with the page
    each leads to: the [pageLinks] of the second strategy of
    [findNextPageUrl], before they are sorted. *)
Definition numbered_candidates `{Platform} (html : Dom.document) (currentUrl : string)
           (currentPage : Z) : list Crawler.pageLink :=
omap (Crawler.numbered_link currentUrl currentPage)
     (Dom.select Crawler.sel_numbered_links html).

(** The first link of a sorted list leads to the smallest page. *)
Definition head_least (l : list Crawler.pageLink) : Prop :=
match l with
| [] => True
| h :: _ => forall y, y ∈ l -> Crawler.pl_page h <= Crawler.pl_page y
end.

(** A result page whose numbered links come in descending order. *)
Definition page_with_links_3_2 : Dom.document :=
result_page
  [anchor "list1pview.asp?state_ForSearch=4&page=3" "3";
   anchor "list1pview.asp?state_ForSearch=4&page=2" "2"].

(** *** What every record of the profile parser satisfies *)

(** The state, its id and category and the city are those derived
    from the address of the record; a record without address has none
    of them. *)
Definition region_ok (s : Parser.specialist) : Prop :=
match Parser.address s with
| None =>
    Parser.state s = None /\ Parser.stateId s = None
    /\ Parser.state_category s = None /\ Parser.city s = None
| Some a =>
    exists i, Utils.extractStateFromAddress (Some a) = Some i
              /\ Parser.state s = Some (Utils.stateName i)
              /\ Parser.stateId s = Some (Utils.stateId i)
              /\ Parser.state_category s = Some (Utils.stateCategory i)
              /\ Parser.city s = Utils.extractCityFromAddress (Some a)
end.

(** A qualification as text and the structured entry at the same
    position: the text is written from the degree, the awarding body
    and the text of the year; degree and awarding body are clean and
    not empty; the year is [null] exactly for an empty text. *)
Definition qualification_ok (raw : string) (q : Parser.qualification) : Prop :=
Parser.degree q <> EmptyString /\ Parser.awardingBody q <> EmptyString
/\ clean (Parser.degree q) = true /\ clean (Parser.awardingBody q) = true
/\ exists year,
     clean year = true
     /\ raw = Parser.degree q +:+ " (" +:+ Parser.awardingBody q +:+ ", " +:+ year +:+ ")"
     /\ match Parser.year q with
        | Parser.YearNull => year = EmptyString
        | Parser.YearNaN => year <> EmptyString /\ JS.parseInt year = None
        | Parser.YearNum y => year <> EmptyString /\ JS.parseInt year = Some y
        end.

(** A field that holds a clean text when it holds one. *)
Definition clean_field (v : option string) : Prop :=
forall t, v = Some t -> clean t = true.

(** A character other than the [T] that starts the time part of an
    ISO date. *)
Definition no_time_mark (c : ascii) : bool := negb (Ascii.eqb "T" c).

(** The texts of the record: [jobTitle] is never filled; the id is
    the one the parser was called with or a clean, non-empty text of
    the page; the text fields are clean; the renewal date holds no
    time part. *)
Definition texts_ok (nsrNo0 : string) (s : Parser.specialist) : Prop :=
Parser.jobTitle s = None
/\ (Parser.nsrNo s = nsrNo0
    \/ Parser.nsrNo s <> EmptyString /\ clean (Parser.nsrNo s) = true)
/\ clean_field (Parser.name s) /\ clean_field (Parser.title s)
/\ clean_field (Parser.gender s) /\ clean_field (Parser.specialty s)
/\ clean_field (Parser.address s) /\ clean_field (Parser.establishment s)
/\ clean_field (Parser.sector s)
/\ (forall d, Parser.lastRenewalDate s = Some d -> all_chars no_time_mark d = true).

(** The three together: what the parser keeps true of its record
    from the first assignment to the last. *)
Definition profile_ok (nsrNo0 : string) (s : Parser.specialist) : Prop :=
texts_ok nsrNo0 s /\ region_ok s
/\ Forall2 qualification_ok (Parser.qualifications s) (Parser.qualificationsStructured s).

(** The numbers read off the page links of the pagination elements. *)
Definition page_numbers (html : Dom.document) : list Z :=
omap (fun el => JS.parseInt (Parser.cell_text el))
     (Dom.find Parser.sel_page_links (Dom.select Parser.sel_pagination html)).

(** The value the form element [el] assigns to the field [k], if any. *)
Definition assigns (k : string) (el : Dom.elem) : option string :=
match Main.field_assignment el with
| Some (k', v) => if String.eqb k' k then Some v else None
| None => None
end.

(** The value of a hexadecimal digit. *)
Definition unhex (c : ascii) : N :=
if JS.is_digit c then (JS.code c - 48)%N else (JS.code c - 55)%N.

(** Percent-decoding: every [%XY] stands for the byte of that value. *)
Fixpoint percent_decode (s : string) : string :=
match s with
| EmptyString => EmptyString
| String c s' =>
    if Ascii.eqb c "%" then
      match s' with
      | String a (String b s'') =>
          String (ascii_of_N (16 * unhex a + unhex b)) (percent_decode s'')
      | _ => String c (percent_decode s')
      end
    else String c (percent_decode s')
end.

(** The characters of an encoded text: those left as they are and
    the percent sign of the escapes. *)
Definition is_encoded_char (c : ascii) : bool :=
JS.is_unreserved c || Ascii.eqb c "%".

(** What follows the first occurrence of [c] in [s]. *)
Fixpoint after_char (c : ascii) (s : string) : string :=
match s with
| EmptyString => EmptyString
| String d s' => if Ascii.eqb c d then s' else after_char c s'
end.

(** A form payload read as the server reads it: the pairs between the
    ampersands, each split at its first equals sign and decoded. *)
Definition parse_pair (p : string) : string * string :=
(percent_decode (JS.before_char "=" p), percent_decode (after_char "=" p)).

Definition parse_payload (payload : string) : list (string * string) :=
map parse_pair (JS.split_on (Ascii.eqb "&") payload).

(** A page whose pagination element links to the pages 3 and 2. *)
Definition page_with_pagination_3_2 : Dom.document :=
page_of [pagination_bar [anchor "list1pview.asp?page=3" "3";
                         anchor "list1pview.asp?page=2" "2"]].

(** A word of the state pattern: no capital letter, and a letter
    after every blank. *)
Fixpoint word_ok (w : string) : bool :=
match w with
| EmptyString => true
| String c w' =>
    negb (JS.is_upper c)
    && (if Ascii.eqb c " "
        then match w' with
             | String d _ => negb (JS.is_space d)
             | EmptyString => false
             end
        else negb (JS.is_space c))
    && word_ok w'
end.

(** What the look-ups after the table scan may change of a record
    [s0]: they fill a name, a specialty or an address that is still
    empty (and the state and city with the address) and leave the
    other fields as they are. *)
Definition filled_from (s0 s : Parser.specialist) : Prop :=
Parser.nsrNo s = Parser.nsrNo s0 /\ Parser.profileUrl s = Parser.profileUrl s0
/\ Parser.jobTitle s = Parser.jobTitle s0 /\ Parser.title s = Parser.title s0
/\ Parser.gender s = Parser.gender s0
/\ Parser.establishment s = Parser.establishment s0
/\ Parser.sector s = Parser.sector s0
/\ Parser.lastRenewalDate s = Parser.lastRenewalDate s0
/\ Parser.qualifications s = Parser.qualifications s0
/\ Parser.qualificationsStructured s = Parser.qualificationsStructured s0
/\ (JS.truthy (Parser.name s0) = true -> Parser.name s = Parser.name s0)
/\ (JS.truthy (Parser.specialty s0) = true -> Parser.specialty s = Parser.specialty s0)
/\ (JS.truthy (Parser.address s0) = true -> Parser.address s = Parser.address s0).

(** A page that shows an error message and nothing else. *)
Definition error_page : Dom.document :=
page_of [Dom.Element "h1" [] [Dom.Text "Server Error"];
         Dom.Element "p" [] [Dom.Text "The page cannot be displayed."]].

(** * Properties *)

(** ** Identifiers *)

Lemma is_digit_decimal (c : ascii) : JS.is_digit c = true <-> c ∈ decimal_digits.
Proof.
  rewrite <- (bool_decide_spec (c ∈ decimal_digits)).
  assert (E : JS.is_digit c = bool_decide (c ∈ decimal_digits))
    by (destruct c as [[] [] [] [] [] [] [] []]; vm_compute; reflexivity).
  rewrite E. destruct (bool_decide (c ∈ decimal_digits)); simpl; intuition congruence.
Qed.

Lemma filter_digits_length (s : string) :
  String.length (JS.filter_str JS.is_digit s) = digit_count s.
Proof.
  unfold digit_count. induction s as [|c s IH]; [reflexivity|].
  cbn [JS.filter_str list_ascii_of_string]. rewrite filter_cons.
  destruct (JS.is_digit c) eqn:E.
  - apply is_digit_decimal in E. rewrite decide_True by exact E.
    cbn [String.length length]. now rewrite IH.
  - rewrite decide_False; [exact IH|].
    intros Hin. apply is_digit_decimal in Hin. congruence.
Qed.

(** C9.  [isValidNsrNumber] answers [true] exactly for a string whose
    decimal digits number six or more; [null] and the empty string are
    invalid, "12345" is invalid, "123456" and "NSR 004821" are valid. *)
Theorem isValidNsrNumber_iff_six_digits :
  (forall nsrNo : option string,
      Utils.isValidNsrNumber nsrNo = true
      <-> exists s, nsrNo = Some s /\ (6 <= digit_count s)%nat)
  /\ Utils.isValidNsrNumber None = false
  /\ Utils.isValidNsrNumber (Some "") = false
  /\ Utils.isValidNsrNumber (Some "12345") = false
  /\ Utils.isValidNsrNumber (Some "123456") = true
  /\ Utils.isValidNsrNumber (Some "NSR 004821") = true.
Proof.
  split; [|repeat split; reflexivity].
  intros [[|c s]|]; cbn [Utils.isValidNsrNumber].
  - split; [discriminate|]. intros (s & [= <-] & H). vm_compute in H. lia.
  - rewrite filter_digits_length, Nat.leb_le. split.
    + intros H. exists (String c s). split; [reflexivity|exact H].
    + intros (s' & [= <-] & H). exact H.
  - split; [discriminate|]. intros (s & [=] & _).
Qed.

(** ** Texts *)

Lemma rev_str_list (acc s : string) :
  list_ascii_of_string (JS.rev_str acc s)
  = rev (list_ascii_of_string s) ++ list_ascii_of_string acc.
Proof.
  revert acc. induction s as [|c s IH]; intros acc; [reflexivity|].
  cbn [JS.rev_str list_ascii_of_string]. rewrite IH. cbn [list_ascii_of_string rev].
  now rewrite <- app_assoc.
Qed.

Lemma string_eq_list (s t : string) :
  list_ascii_of_string s = list_ascii_of_string t -> s = t.
Proof.
  intros E. rewrite <- (string_of_list_ascii_of_string s), E.
  apply string_of_list_ascii_of_string.
Qed.

Lemma append_cons (c : ascii) (s t : string) :
  String c s +:+ t = String c (s +:+ t).
Proof. reflexivity. Qed.

Lemma append_nil (t : string) : EmptyString +:+ t = t.
Proof. reflexivity. Qed.

Lemma append_list (s t : string) :
  list_ascii_of_string (s +:+ t) = list_ascii_of_string s ++ list_ascii_of_string t.
Proof.
  induction s as [|c s IH]; [reflexivity|].
  rewrite append_cons. cbn [list_ascii_of_string]. now rewrite IH.
Qed.

Lemma rev_str_app (s t : string) :
  JS.rev_str EmptyString (s +:+ t)
  = JS.rev_str EmptyString t +:+ JS.rev_str EmptyString s.
Proof.
  apply string_eq_list.
  rewrite append_list, !rev_str_list, append_list. cbn [list_ascii_of_string].
  rewrite !app_nil_r. apply rev_app_distr.
Qed.

Lemma rev_str_involutive (s : string) :
  JS.rev_str EmptyString (JS.rev_str EmptyString s) = s.
Proof.
  apply string_eq_list. rewrite !rev_str_list. cbn [list_ascii_of_string].
  rewrite !app_nil_r. apply rev_involutive.
Qed.

Lemma trimStart_snoc (s : string) (c : ascii) :
  JS.trimStart (s +:+ String c EmptyString)
  = match JS.trimStart s with
    | EmptyString => if JS.is_space c then EmptyString else String c EmptyString
    | r => r +:+ String c EmptyString
    end.
Proof.
  induction s as [|d s IH]; [reflexivity|].
  rewrite append_cons. cbn [JS.trimStart].
  destruct (JS.is_space d); [exact IH|reflexivity].
Qed.

(** [trimEnd] by reversal agrees with the recursion on the text. *)
Lemma trimEnd_trim_end (s : string) : JS.trimEnd s = trim_end s.
Proof.
  unfold JS.trimEnd. induction s as [|c s IH]; [reflexivity|].
  change (String c s) with (String c EmptyString +:+ s) at 1.
  rewrite rev_str_app.
  change (JS.rev_str EmptyString (String c EmptyString)) with (String c EmptyString).
  rewrite trimStart_snoc. cbn [trim_end]. rewrite <- IH.
  destruct (JS.trimStart (JS.rev_str EmptyString s)) as [|d r]; [now destruct (JS.is_space c)|].
  rewrite rev_str_app. change (JS.rev_str EmptyString (String c EmptyString))
    with (String c EmptyString).
  rewrite append_cons, append_nil.
  destruct (JS.rev_str EmptyString (String d r)) eqn:E; [|reflexivity].
  apply (f_equal (JS.rev_str EmptyString)) in E. rewrite rev_str_involutive in E.
  discriminate E.
Qed.

Lemma trim_trim_end (s : string) : JS.trim s = trim_end (JS.trimStart s).
Proof. unfold JS.trim. apply trimEnd_trim_end. Qed.

Lemma collapse_well_spaced (b : bool) (s : string) :
  well_spaced b (JS.collapse_spaces b s) = true.
Proof.
  revert b. induction s as [|c s IH]; intros b; [reflexivity|].
  cbn [JS.collapse_spaces]. destruct (JS.is_space c) eqn:Ec.
  - destruct b; [apply IH|]. cbn [well_spaced].
    change (JS.is_space " ") with true. cbn. apply IH.
  - cbn [well_spaced]. rewrite Ec. apply IH.
Qed.

Lemma trimStart_well_spaced (b : bool) (s : string) :
  well_spaced b s = true -> well_spaced true (JS.trimStart s) = true.
Proof.
  revert b. induction s as [|c s IH]; intros b H; [reflexivity|].
  cbn [JS.trimStart]. cbn [well_spaced] in H. destruct (JS.is_space c) eqn:Ec.
  - apply andb_prop in H as [_ H]. now apply (IH true).
  - cbn [well_spaced]. now rewrite Ec.
Qed.

Lemma trim_end_single_spaced (b : bool) (s : string) :
  well_spaced b s = true ->
  trim_end s = EmptyString \/ single_spaced b (trim_end s) = true.
Proof.
  revert b. induction s as [|c s IH]; intros b H; [now left|].
  cbn [well_spaced] in H. cbn [trim_end]. destruct (JS.is_space c) eqn:Ec.
  - apply andb_prop in H as [H Hs]. destruct (IH true Hs) as [E|E].
    + rewrite E. now left.
    + destruct (trim_end s) as [|d r]; [discriminate E|]. right.
      cbn [single_spaced]. rewrite Ec, H. exact E.
  - right. destruct (IH false H) as [E|E].
    + rewrite E. cbn [single_spaced]. now rewrite Ec.
    + destruct (trim_end s) as [|d r]; cbn [single_spaced]; rewrite Ec; [reflexivity|exact E].
Qed.

Lemma single_spaced_collapse (b r : bool) (s : string) :
  single_spaced b s = true -> (r = true -> b = true) ->
  JS.collapse_spaces r s = s.
Proof.
  revert b r. induction s as [|c s IH]; intros b r H Hr; [reflexivity|].
  cbn [single_spaced] in H. cbn [JS.collapse_spaces]. destruct (JS.is_space c) eqn:Ec.
  - apply andb_prop in H as [H Hs]. apply andb_prop in H as [Hc Hb].
    apply Ascii.eqb_eq in Hc. subst c.
    destruct r; [rewrite Hr in Hb by reflexivity; discriminate Hb|].
    f_equal. now apply (IH true true).
  - f_equal. now apply (IH false false).
Qed.

Lemma single_spaced_trim_end (b : bool) (s : string) :
  single_spaced b s = true -> trim_end s = s.
Proof.
  revert b. induction s as [|c s IH]; intros b H; [reflexivity|].
  cbn [single_spaced] in H. cbn [trim_end]. destruct (JS.is_space c) eqn:Ec.
  - apply andb_prop in H as [_ Hs]. rewrite (IH true Hs).
    destruct s; [discriminate Hs|reflexivity].
  - rewrite (IH false H). now destruct s.
Qed.

Lemma clean_fixed (s : string) :
  clean s = true -> Utils.cleanText (Some s) = s.
Proof.
  destruct s as [|c s]; [reflexivity|]. unfold clean. intros H.
  unfold Utils.cleanText.
  rewrite (single_spaced_collapse true false _ H) by discriminate.
  rewrite trim_trim_end.
  assert (Ec : JS.is_space c = false).
  { cbn [single_spaced] in H. destruct (JS.is_space c); [|reflexivity].
    now rewrite andb_false_r in H. }
  cbn [JS.trimStart]. rewrite Ec. now apply (single_spaced_trim_end true).
Qed.

Lemma cleanText_clean (text : option string) :
  clean (Utils.cleanText text) = true.
Proof.
  destruct text as [[|c s]|]; [reflexivity| |reflexivity].
  unfold Utils.cleanText. rewrite trim_trim_end.
  pose proof (collapse_well_spaced false (String c s)) as Hw.
  apply trimStart_well_spaced in Hw.
  destruct (trim_end_single_spaced true _ Hw) as [E|E].
  - now rewrite E.
  - unfold clean. now destruct (trim_end _).
Qed.

(** X1 - [cleanText] normalises: its result has no white space at
    either end and no white space inside other than single blanks, and
    cleaning a cleaned text changes nothing. *)
Theorem cleanText_normal_form (text : option string) :
  clean (Utils.cleanText text) = true
  /\ Utils.cleanText (Some (Utils.cleanText text)) = Utils.cleanText text.
Proof.
  split; [apply cleanText_clean|]. apply clean_fixed, cleanText_clean.
Qed.

(** ** Pieces of a text *)

Lemma all_chars_rev_str (p : ascii -> bool) (acc s : string) :
  all_chars p (JS.rev_str acc s) = all_chars p s && all_chars p acc.
Proof.
  revert acc. induction s as [|c s IH]; intros acc; [reflexivity|].
  cbn [JS.rev_str all_chars]. rewrite IH. cbn [all_chars].
  now destruct (p c), (all_chars p s), (all_chars p acc).
Qed.

Lemma all_chars_app (p : ascii -> bool) (s t : string) :
  all_chars p (s +:+ t) = all_chars p s && all_chars p t.
Proof.
  induction s as [|c s IH]; [reflexivity|].
  rewrite append_cons. cbn [all_chars]. rewrite IH. now destruct (p c).
Qed.

Lemma all_chars_trimStart (p : ascii -> bool) (s : string) :
  all_chars p s = true -> all_chars p (JS.trimStart s) = true.
Proof.
  induction s as [|c s IH]; [reflexivity|]. cbn [JS.trimStart all_chars].
  intros H. destruct (JS.is_space c); [|exact H].
  apply andb_prop in H as [_ H]. now apply IH.
Qed.

Lemma all_chars_trim_end (p : ascii -> bool) (s : string) :
  all_chars p s = true -> all_chars p (trim_end s) = true.
Proof.
  induction s as [|c s IH]; [reflexivity|]. cbn [trim_end all_chars].
  intros H. apply andb_prop in H as [Hc H]. specialize (IH H).
  destruct (trim_end s) as [|d r].
  - destruct (JS.is_space c); [reflexivity|]. cbn [all_chars]. now rewrite Hc.
  - cbn [all_chars] in *. now rewrite Hc.
Qed.

Lemma all_chars_trim (p : ascii -> bool) (s : string) :
  all_chars p s = true -> all_chars p (JS.trim s) = true.
Proof.
  intros H. rewrite trim_trim_end. now apply all_chars_trim_end, all_chars_trimStart.
Qed.

Lemma trim_end_idempotent (s : string) : trim_end (trim_end s) = trim_end s.
Proof.
  induction s as [|c s IH]; [reflexivity|]. cbn [trim_end].
  destruct (trim_end s) as [|d r] eqn:E.
  - destruct (JS.is_space c) eqn:Ec; [reflexivity|]. cbn [trim_end]. now rewrite Ec.
  - cbn [trim_end] in *. rewrite IH. reflexivity.
Qed.

Lemma trim_end_head (c : ascii) (s : string) :
  JS.is_space c = false -> exists r, trim_end (String c s) = String c r.
Proof.
  intros Hc. cbn [trim_end]. rewrite Hc. destruct (trim_end s); eauto.
Qed.

Lemma trimStart_head (s : string) :
  match JS.trimStart s with
  | EmptyString => True
  | String c _ => JS.is_space c = false
  end.
Proof.
  induction s as [|c s IH]; [exact I|]. cbn [JS.trimStart].
  destruct (JS.is_space c) eqn:Ec; [exact IH|exact Ec].
Qed.

Lemma trim_idempotent (s : string) : JS.trim (JS.trim s) = JS.trim s.
Proof.
  rewrite !trim_trim_end. pose proof (trimStart_head s) as H.
  destruct (JS.trimStart s) as [|c t]; [reflexivity|].
  destruct (trim_end_head c t H) as [r E]. rewrite E.
  cbn [JS.trimStart]. rewrite H, <- E. apply trim_end_idempotent.
Qed.

Lemma split_runs_pieces (sep : ascii -> bool) (cur : string) (b : bool) (s : string) :
  all_chars (fun c => negb (sep c)) cur = true ->
  Forall (fun piece => all_chars (fun c => negb (sep c)) piece = true)
         (JS.split_runs sep cur b s).
Proof.
  revert cur b. induction s as [|c s IH]; intros cur b Hcur; cbn [JS.split_runs].
  - constructor; [|constructor]. now rewrite all_chars_rev_str, Hcur.
  - destruct (sep c) eqn:Ec.
    + destruct b; [now apply IH|].
      constructor; [now rewrite all_chars_rev_str, Hcur|now apply IH].
    + apply IH. cbn [all_chars]. now rewrite Ec, Hcur.
Qed.

Lemma split_runs_one (sep : ascii -> bool) (cur : string) (s : string) :
  all_chars (fun c => negb (sep c)) s = true ->
  length (JS.split_runs sep cur false s) = 1%nat.
Proof.
  revert cur. induction s as [|c s IH]; intros cur H; [reflexivity|].
  cbn [all_chars] in H. apply andb_prop in H as [Hc H].
  cbn [JS.split_runs]. apply negb_true_iff in Hc. rewrite Hc. now apply IH.
Qed.

Lemma strip_long_digit_runs_chars (p : ascii -> bool) (run s : string) :
  all_chars p run = true -> all_chars p s = true ->
  all_chars p (Utils.strip_long_digit_runs run s) = true.
Proof.
  revert run. induction s as [|c s IH]; intros run Hrun Hs; cbn [Utils.strip_long_digit_runs].
  - destruct (5 <=? String.length run)%nat; [reflexivity|].
    now rewrite all_chars_rev_str, Hrun.
  - cbn [all_chars] in Hs. apply andb_prop in Hs as [Hc Hs].
    destruct (JS.is_digit c).
    + apply IH; [|exact Hs]. cbn [all_chars]. now rewrite Hc, Hrun.
    + rewrite all_chars_app. cbn [all_chars]. rewrite Hc, (IH EmptyString eq_refl Hs).
      destruct (5 <=? String.length run)%nat; [reflexivity|].
      now rewrite all_chars_rev_str, Hrun.
Qed.

(** ** The gender pattern *)

Lemma match_word_letter (c : ascii) (w s : string) :
  c <> " "%char ->
  Constants.match_word (String c w) s
  = match s with
    | String d s' =>
        if Ascii.eqb (JS.lower_char d) c
        then '(m, rest') ← Constants.match_word w s'; Some (String d m, rest')
        else None
    | EmptyString => None
    end.
Proof.
  intros Hc.
  destruct c as [[] [] [] [] [] [] [] []]; try reflexivity. now contradict Hc.
Qed.

Lemma match_word_prefix (w s : string) :
  all_chars no_blank w = true ->
  match Constants.match_word w s with
  | Some (m, rest) => JS.toLowerCase m = w /\ s = m +:+ rest
  | None => String.prefix w (JS.toLowerCase s) = false
  end.
Proof.
  revert s. induction w as [|c w IH]; intros s Hw; [now split|].
  cbn [all_chars] in Hw. apply andb_prop in Hw as [Hc Hw].
  rewrite match_word_letter
    by (intros ->; discriminate Hc).
  destruct s as [|d s]; [reflexivity|].
  cbn [JS.toLowerCase JS.map_str String.prefix].
  destruct (Ascii.eqb_spec (JS.lower_char d) c) as [E|E].
  - specialize (IH s Hw). destruct (Constants.match_word w s) as [[m rest]|]; cbn.
    + destruct IH as [IH1 IH2]. split; [cbn; unfold JS.toLowerCase in IH1; congruence|].
      rewrite append_cons. congruence.
    + destruct (ascii_dec c (JS.lower_char d)); [exact IH|reflexivity].
  - destruct (ascii_dec c (JS.lower_char d)); [now subst|reflexivity].
Qed.

Lemma upper_lower_char (c : ascii) :
  JS.upper_char (JS.lower_char c) = JS.upper_char c.
Proof.
  destruct c as [[] [] [] [] [] [] [] []]; reflexivity.
Qed.

Lemma match_alternatives_word (b : bool) (ws : list string) (s m : string) :
  Constants.match_alternatives b ws s = Some m ->
  exists w rest, w ∈ ws /\ Constants.match_word w s = Some (m, rest).
Proof.
  induction ws as [|w ws IH]; [discriminate|]. cbn [Constants.match_alternatives].
  destruct (Constants.match_word w s) as [[m' rest]|] eqn:E.
  - destruct (negb b || Constants.at_word_end rest).
    + intros [= <-]. exists w, rest. split; [left|exact E].
    + intros H. destruct (IH H) as (w' & r & Hin & Hm). exists w', r. split; [now right|exact Hm].
  - intros H. destruct (IH H) as (w' & r & Hin & Hm). exists w', r. split; [now right|exact Hm].
Qed.

Lemma search_word (b : bool) (ws : list string) (p : bool) (s m : string) :
  Constants.search b ws p s = Some m ->
  exists w t rest, w ∈ ws /\ Constants.match_word w t = Some (m, rest).
Proof.
  revert p. induction s as [|c s IH]; intros p; cbn [Constants.search];
    destruct (if b && p then None else Constants.match_alternatives b ws _) eqn:E.
  - intros [= <-]. destruct (b && p); [discriminate E|].
    apply match_alternatives_word in E as (w & r & ? & ?). now exists w, EmptyString, r.
  - discriminate.
  - intros [= <-]. destruct (b && p); [discriminate E|].
    apply match_alternatives_word in E as (w & r & ? & ?). now exists w, (String c s), r.
  - apply IH.
Qed.

Lemma toLowerCase_app (s t : string) :
  JS.toLowerCase (s +:+ t) = JS.toLowerCase s +:+ JS.toLowerCase t.
Proof.
  induction s as [|c s IH]; [reflexivity|].
  rewrite append_cons. cbn [JS.toLowerCase JS.map_str]. rewrite append_cons.
  f_equal. exact IH.
Qed.

Lemma gender_alternatives (c : ascii) (s : string) :
  JS.includes "male" (JS.toLowerCase s) = false ->
  Constants.match_alternatives false Constants.gender_words (String c s) = None
  <-> String.prefix "male" (JS.toLowerCase (String c s)) = false.
Proof.
  intros Hs. unfold Constants.gender_words. cbn [Constants.match_alternatives negb orb].
  pose proof (match_word_prefix "male" (String c s) eq_refl) as Hm.
  pose proof (match_word_prefix "female" (String c s) eq_refl) as Hf.
  destruct (Constants.match_word "male" (String c s)) as [[m r]|].
  - destruct Hm as [Hm ->]. split; [discriminate|].
    rewrite toLowerCase_app, Hm. intros H. destruct r; vm_compute in H; discriminate H.
  - split; [intros _; exact Hm|intros _].
    destruct (Constants.match_word "female" (String c s)) as [[m r]|]; [|reflexivity].
    destruct Hf as [Hf Hr]. exfalso.
    destruct m as [|a m]; [discriminate Hf|]. rewrite append_cons in Hr.
    injection Hr as -> ->. injection Hf as _ Hf.
    change (JS.map_str JS.lower_char m) with (JS.toLowerCase m) in Hf.
    rewrite toLowerCase_app, Hf in Hs. destruct r; vm_compute in Hs; discriminate Hs.
Qed.

Lemma gender_search (p : bool) (s : string) :
  Constants.search false Constants.gender_words p s = None
  <-> JS.includes "male" (JS.toLowerCase s) = false.
Proof.
  revert p. induction s as [|c s IH]; intros p.
  - split; reflexivity.
  - assert (Hstep : JS.includes "male" (JS.toLowerCase (String c s))
                    = String.prefix "male" (JS.toLowerCase (String c s))
                      || JS.includes "male" (JS.toLowerCase s)).
    { cbn [JS.toLowerCase JS.map_str JS.includes].
      now destruct (String.prefix _ _). }
    rewrite Hstep. cbn [Constants.search andb].
    split.
    + destruct (Constants.match_alternatives false _ _) eqn:E; [discriminate|].
      intros H. apply IH in H. rewrite H, orb_false_r.
      now apply gender_alternatives.
    + intros H. apply orb_false_elim in H as [H1 H2].
      apply gender_alternatives in H1; [|exact H2].
      rewrite H1. now apply IH.
Qed.

Lemma extractGender_values (text : option string) (g : string) :
  Utils.extractGender text = Some g -> g = "Male" \/ g = "Female".
Proof.
  destruct text as [[|c s]|]; try discriminate. unfold Utils.extractGender.
  destruct (Constants.match_gender (String c s)) as [m|] eqn:E; [|discriminate].
  apply search_word in E as (w & t & rest & Hw & Hm).
  assert (Hl : JS.toLowerCase m = w).
  { pose proof (match_word_prefix w t) as H. rewrite Hm in H. apply H.
    unfold Constants.gender_words in Hw.
    repeat (apply elem_of_cons in Hw as [->|Hw]; [reflexivity|]).
    now apply elem_of_nil in Hw. }
  destruct m as [|m0 m].
  - subst w. exfalso. unfold Constants.gender_words in Hw.
    repeat (apply elem_of_cons in Hw as [Hw|Hw]; [discriminate Hw|]).
    now apply elem_of_nil in Hw.
  - intros [= <-]. rewrite <- upper_lower_char.
    cbn [JS.toLowerCase JS.map_str] in Hl.
    change (JS.toLowerCase m) with (JS.map_str JS.lower_char m).
    unfold Constants.gender_words in Hw.
    apply elem_of_cons in Hw as [Hw|Hw].
    { rewrite Hw in Hl. injection Hl as -> ->. now left. }
    apply elem_of_cons in Hw as [Hw|Hw].
    { rewrite Hw in Hl. injection Hl as -> ->. now right. }
    now apply elem_of_nil in Hw.
Qed.

(** X2 - [extractGender] answers "Male", "Female" or [null], whatever
    the case of the text, and it answers [null] exactly when the text,
    in lower case, does not contain "male". *)
Theorem extractGender_result (text : option string) :
  (forall g, Utils.extractGender text = Some g -> g = "Male" \/ g = "Female")
  /\ (Utils.extractGender text = None
      <-> forall s, text = Some s -> JS.includes "male" (JS.toLowerCase s) = false).
Proof.
  split; [apply extractGender_values|].
  destruct text as [[|c s]|].
  - split; [intros _ s [= <-]; reflexivity|reflexivity].
  - unfold Utils.extractGender, Constants.match_gender.
    pose proof (gender_search false (String c s)) as H.
    destruct (Constants.search false _ false _) as [[|m0 m]|].
    + split; [discriminate|]. intros Hs. specialize (Hs _ eq_refl).
      apply H in Hs. discriminate Hs.
    + split; [discriminate|]. intros Hs. specialize (Hs _ eq_refl).
      apply H in Hs. discriminate Hs.
    + split; [|reflexivity]. intros _ s' [= <-]. now apply H.
  - split; [discriminate|reflexivity].
Qed.

Lemma extractGender_result_witness :
  Utils.extractGender (Some "Gender: FEMALE") = Some "Female"
  /\ ("Female" = "Male" \/ "Female" = "Female").
Proof.
  assert (H : Utils.extractGender (Some "Gender: FEMALE") = Some "Female")
    by (vm_compute; reflexivity).
  split; [exact H|].
  exact (proj1 (extractGender_result (Some "Gender: FEMALE")) _ H).
Defined.

(** ** The state tables *)

Lemma state_keys_name (k : string) (id : Z) :
  Constants.STATE_NAME_TO_ID !! k = Some id -> names_state k id = true.
Proof.
  revert k id.
  change (map_Forall (fun k id => names_state k id = true) Constants.STATE_NAME_TO_ID).
  apply map_Forall_to_list.
  apply (bool_decide_unpack _). vm_compute. exact I.
Qed.

Lemma toLowerCase_no_capital (s : string) :
  all_chars (fun c => negb (JS.is_upper c)) (JS.toLowerCase s) = true.
Proof.
  induction s as [|c s IH]; [reflexivity|].
  cbn [JS.toLowerCase JS.map_str all_chars].
  fold (JS.toLowerCase s). rewrite IH, andb_true_r.
  destruct c as [[] [] [] [] [] [] [] []]; reflexivity.
Qed.

(** Of the members a plain object inherits, a name in lower case
    finds two. *)
Lemma inherited_lower_case (k : string) :
  all_chars (fun c => negb (JS.is_upper c)) k = true ->
  JSObject.inherits k = true -> k = "constructor" \/ k = "__proto__".
Proof.
  intros Hk Hi. unfold JSObject.inherits in Hi.
  apply existsb_exists in Hi as (k' & Hin & E). apply String.eqb_eq in E. subst k'.
  unfold JSObject.prototype_keys in Hin. cbn [In] in Hin.
  repeat (destruct Hin as [<-|Hin]; [first [now left|now right|discriminate Hk]|]).
  destruct Hin.
Qed.

(** X3 - The two state tables agree.  Every id of [MALAYSIAN_STATES]
    is found again from its name and from each of its aliases, and a
    name for which [getStateIdByName] gives an id is, once in lower
    case and trimmed, the name or an alias of the state of that id.
    A name for which it gives neither an id nor [null] is
    "constructor" or "__proto__", in any case and with any white
    space around it: the mapping is a plain object, and the function
    then returns the member the mapping inherits under that name. *)
Theorem state_tables_agree :
  (forall id info, (id, info) ∈ Constants.MALAYSIAN_STATES ->
     Utils.getStateById id = Some info
     /\ forall n, n = Constants.name info \/ n ∈ Constants.aliases info ->
                  Utils.getStateIdByName (Some n) = Some (Utils.StateId id))
  /\ (forall s id, Utils.getStateIdByName (Some s) = Some (Utils.StateId id) ->
       exists info, Utils.getStateById id = Some info
         /\ (JS.trim (JS.toLowerCase s) = Constants.name info
             \/ JS.trim (JS.toLowerCase s) ∈ Constants.aliases info))
  /\ (forall s k, Utils.getStateIdByName (Some s) = Some (Utils.InheritedMember k) ->
       k = JS.trim (JS.toLowerCase s) /\ (k = "constructor" \/ k = "__proto__"))
  /\ (forall s, JS.trim (JS.toLowerCase s) = "constructor"
                 \/ JS.trim (JS.toLowerCase s) = "__proto__" ->
       Utils.getStateIdByName (Some s)
       = Some (Utils.InheritedMember (JS.trim (JS.toLowerCase s)))).
Proof.
  split; [|split; [|split]].
  - intros id info Hin. unfold Constants.MALAYSIAN_STATES in Hin.
    repeat (apply elem_of_cons in Hin as [[= -> ->]|Hin];
            [split; [reflexivity|];
             intros n [->|Hn]; [reflexivity|];
             cbn [Constants.aliases] in Hn;
             repeat (apply elem_of_cons in Hn as [->|Hn]; [reflexivity|]);
             now apply elem_of_nil in Hn|]).
    now apply elem_of_nil in Hin.
  - intros s id H. unfold Utils.getStateIdByName in H.
    destruct s as [|c s]; [discriminate|]. cbv zeta in H.
    destruct (Constants.STATE_NAME_TO_ID !! _) as [id'|] eqn:L.
    2:{ destruct (JSObject.inherits _); discriminate. }
    destruct (id' =? 0); [discriminate|]. injection H as <-.
    apply state_keys_name in L. unfold names_state in L.
    destruct (Utils.getStateById id') as [info|]; [|discriminate].
    exists info. split; [reflexivity|].
    apply orb_prop in L as [L|L].
    + left. now apply String.eqb_eq.
    + right. apply existsb_exists in L as (a & Ha & E).
      apply String.eqb_eq in E. subst a. now apply list_elem_of_In.
  - intros s k H. unfold Utils.getStateIdByName in H.
    destruct s as [|c s]; [discriminate|]. cbv zeta in H.
    destruct (Constants.STATE_NAME_TO_ID !! _) as [id'|].
    { destruct (id' =? 0); discriminate. }
    destruct (JSObject.inherits _) eqn:Ei; [|discriminate]. injection H as <-.
    split; [reflexivity|]. apply inherited_lower_case; [|exact Ei].
    apply all_chars_trim, toLowerCase_no_capital.
  - intros s Hs. unfold Utils.getStateIdByName.
    destruct s as [|c s]; [destruct Hs as [Hs|Hs]; discriminate Hs|]. cbv zeta.
    destruct Hs as [-> | ->]; reflexivity.
Qed.

Lemma state_tables_agree_witness :
  Utils.getStateIdByName (Some " PENANG ") = Some (Utils.StateId 9)
  /\ (exists info, Utils.getStateById 9 = Some info
        /\ (JS.trim (JS.toLowerCase " PENANG ") = Constants.name info
            \/ JS.trim (JS.toLowerCase " PENANG ") ∈ Constants.aliases info))
  /\ Utils.getStateIdByName (Some " Constructor")
     = Some (Utils.InheritedMember (JS.trim (JS.toLowerCase " Constructor"))).
Proof.
  assert (H : Utils.getStateIdByName (Some " PENANG ") = Some (Utils.StateId 9))
    by (vm_compute; reflexivity).
  assert (Hc : JS.trim (JS.toLowerCase " Constructor") = "constructor"
               \/ JS.trim (JS.toLowerCase " Constructor") = "__proto__")
    by (left; vm_compute; reflexivity).
  split; [exact H|]. split.
  - exact (proj1 (proj2 state_tables_agree) _ _ H).
  - exact (proj2 (proj2 (proj2 state_tables_agree)) _ Hc).
Defined.

(** ** The state of an address *)

Lemma state_keys_regular (k : string) (id : Z) :
  Constants.STATE_NAME_TO_ID !! k = Some id -> regular_key k id = true.
Proof.
  revert k id.
  change (map_Forall (fun k id => regular_key k id = true) Constants.STATE_NAME_TO_ID).
  apply map_Forall_to_list.
  apply (bool_decide_unpack _). vm_compute. exact I.
Qed.

Lemma match_word_first_two (a b : ascii) (w t m rest : string) :
  a <> " "%char -> b <> " "%char ->
  Constants.match_word (String a (String b w)) t = Some (m, rest) ->
  exists x y m', m = String x (String y m')
                 /\ JS.lower_char x = a /\ JS.lower_char y = b.
Proof.
  intros Ha Hb. rewrite (match_word_letter a) by exact Ha.
  destruct t as [|x t]; [discriminate|].
  destruct (Ascii.eqb_spec (JS.lower_char x) a) as [Ex|]; [|discriminate].
  rewrite (match_word_letter b) by exact Hb.
  destruct t as [|y t]; [discriminate|].
  destruct (Ascii.eqb_spec (JS.lower_char y) b) as [Ey|]; [|discriminate].
  destruct (Constants.match_word w t) as [[m' r]|]; [|discriminate].
  intros [= <- <-]. now exists x, y, m'.
Qed.

Lemma trim_first_two (a b : ascii) (s : string) :
  JS.is_space a = false -> JS.is_space b = false ->
  first_two (JS.trim (String a (String b s))) = Some (a, b).
Proof.
  intros Ha Hb. rewrite trim_trim_end. cbn [JS.trimStart]. rewrite Ha.
  cbn [trim_end]. rewrite Ha, Hb.
  now destruct (trim_end s).
Qed.

Lemma state_match_first_two (address m : string) :
  Constants.match_state address = Some m ->
  exists w, w ∈ Constants.state_words
            /\ first_two (JS.trim (JS.toLowerCase m)) = first_two w.
Proof.
  intros H. apply search_word in H as (w & t & rest & Hw & Hm).
  exists w. split; [exact Hw|].
  unfold Constants.state_words in Hw.
  repeat (apply elem_of_cons in Hw as [->|Hw];
          [apply match_word_first_two in Hm as (x & y & m' & -> & Ex & Ey);
             [|discriminate|discriminate];
           cbn [JS.toLowerCase JS.map_str]; rewrite Ex, Ey;
           now apply trim_first_two|]).
  now apply elem_of_nil in Hw.
Qed.

Lemma state_words_heads (w : string) :
  w ∈ Constants.state_words -> state_head w = true.
Proof.
  intros Hw. unfold Constants.state_words in Hw.
  repeat (apply elem_of_cons in Hw as [->|Hw]; [reflexivity|]).
  now apply elem_of_nil in Hw.
Qed.

Lemma state_words_not_inherited (w k : string) :
  w ∈ Constants.state_words -> first_two k = first_two w ->
  JSObject.inherits k = false.
Proof.
  intros Hw Hk. unfold Constants.state_words in Hw.
  repeat (apply elem_of_cons in Hw as [->|Hw];
          [destruct k as [|a [|b k]]; try discriminate Hk;
           injection Hk as -> ->; reflexivity|]).
  now apply elem_of_nil in Hw.
Qed.

(** The name looked up for a text that the state pattern matched is
    no inherited member, and the id found for it is that of a state
    or federal territory of the table. *)
Lemma matched_state_id (address m : string) (v : Utils.stateIdValue) :
  Constants.match_state address = Some m ->
  Utils.getStateIdByName (Some (JS.trim (JS.toLowerCase m))) = Some v ->
  exists id info, v = Utils.StateId id /\ is_state_or_territory id = true
                  /\ Utils.getStateById id = Some info.
Proof.
  intros Em E.
  apply state_match_first_two in Em as (w & Hw & Hk).
  pose proof (state_words_heads w Hw) as Hh. unfold state_head in Hh.
  destruct (first_two w) as [[a b]|] eqn:Ew; [|discriminate Hh].
  apply andb_prop in Hh as [Hh Hmi]. apply andb_prop in Hh as [Hh Hfo].
  apply andb_prop in Hh as [Hh Hlb]. apply andb_prop in Hh as [Hh Hla].
  apply andb_prop in Hh as [Hsa Hsb].
  apply Ascii.eqb_eq in Hla, Hlb. apply negb_true_iff in Hsa, Hsb.
  unfold Utils.getStateIdByName in E.
  destruct (JS.trim (JS.toLowerCase m)) as [|a' [|b' z]]; try discriminate Hk.
  injection Hk as -> ->. cbv zeta in E.
  assert (Hf : first_two (JS.trim (JS.toLowerCase (String a (String b z)))) = Some (a, b)).
  { cbn [JS.toLowerCase JS.map_str]. rewrite Hla, Hlb. now apply trim_first_two. }
  destruct (Constants.STATE_NAME_TO_ID !! _) as [id'|] eqn:L.
  - destruct (id' =? 0); [discriminate|]. injection E as <-.
    pose proof (state_keys_name _ _ L) as Hn. unfold names_state in Hn.
    destruct (Utils.getStateById id') as [info|] eqn:Ei; [|discriminate].
    exists id', info. split; [reflexivity|]. split; [|exact Ei].
    apply state_keys_regular in L. unfold regular_key in L.
    apply orb_prop in L as [L|L]; [apply orb_prop in L as [L|L]; [exact L|]|]; exfalso.
    all: apply String.eqb_eq in L; rewrite L in Hf; injection Hf as <- <-; discriminate.
  - rewrite (state_words_not_inherited w) in E; [discriminate E|exact Hw|congruence].
Qed.

(** X4 - [extractStateFromAddress] always answers, and with a record
    of the state table: the id is one of the sixteen states and
    federal territories or the record is the "Missing" one, never the
    "Foreign" entry, and name and category are those the table gives
    for the id. *)
Theorem extractStateFromAddress_in_table (address : option string) :
  exists i info,
    Utils.extractStateFromAddress address = Some i
    /\ Utils.getStateById (Utils.stateId i) = Some info
    /\ Utils.stateName i = Constants.displayName info
    /\ Utils.stateCategory i = Constants.category info
    /\ (is_state_or_territory (Utils.stateId i) = true \/ i = Utils.missing_state).
Proof.
  assert (Hmissing : exists i info,
             Some Utils.missing_state = Some i
             /\ Utils.getStateById (Utils.stateId i) = Some info
             /\ Utils.stateName i = Constants.displayName info
             /\ Utils.stateCategory i = Constants.category info
             /\ (is_state_or_territory (Utils.stateId i) = true \/ i = Utils.missing_state)).
  { eexists _, _. split; [reflexivity|]. split; [reflexivity|]. now repeat split; [..|right]. }
  destruct address as [[|c s]|]; cbn [Utils.extractStateFromAddress]; try exact Hmissing.
  destruct (Constants.match_state (String c s)) as [m|] eqn:Em; [|exact Hmissing].
  cbv zeta.
  destruct (Utils.getStateIdByName (Some (JS.trim (JS.toLowerCase m)))) as [v|] eqn:E;
    [|exact Hmissing].
  destruct (matched_state_id _ _ _ Em E) as (id & info & -> & Hid & Hinfo).
  rewrite Hinfo. cbn [mbind option_bind].
  exists (Utils.mkStateInfo id (Constants.displayName info) (Constants.category info)), info.
  repeat split; [exact Hinfo|]. now left.
Qed.

(** ** State and city of an address *)

Lemma state_ids_known (k : string) (id : Z) :
  Constants.STATE_NAME_TO_ID !! k = Some id -> is_Some (Utils.getStateById id).
Proof.
  revert k id.
  change (map_Forall (fun _ id => is_Some (Utils.getStateById id))
                     Constants.STATE_NAME_TO_ID).
  apply map_Forall_to_list.
  apply (bool_decide_unpack _). vm_compute. exact I.
Qed.

(** [extractStateFromAddress] never raises the exception its source
    leaves possible. *)
Lemma extractState_total (address : option string) :
  is_Some (Utils.extractStateFromAddress address).
Proof.
  destruct address as [[|c s]|]; cbn [Utils.extractStateFromAddress]; try (eexists; reflexivity).
  destruct (Constants.match_state (String c s)) as [m|] eqn:Em; [|eexists; reflexivity].
  cbv zeta.
  destruct (Utils.getStateIdByName (Some (JS.trim (JS.toLowerCase m)))) as [v|] eqn:E;
    [|eexists; reflexivity].
  destruct (matched_state_id _ _ _ Em E) as (id & info & -> & _ & ->).
  eexists; reflexivity.
Qed.

(** C6.  On an address that ends in "Johor Bahru, Johor 80100" the
    state is Johor, of category regular, and no city is derived: the
    part "Johor Bahru" itself matches the state pattern.  The same
    holds on the address of the sample record of the README. *)
Theorem johor_bahru_address_has_no_city :
  Utils.extractStateFromAddress (Some johor_address)
  = Some (Utils.mkStateInfo 1 "Johor" "regular")
  /\ Utils.extractCityFromAddress (Some johor_address) = None
  /\ Utils.extractStateFromAddress (Some readme_address)
     = Some (Utils.mkStateInfo 1 "Johor" "regular")
  /\ Utils.extractCityFromAddress (Some readme_address) = None
  /\ Constants.match_state "Johor Bahru" = Some "Johor".
Proof. repeat split; vm_compute; reflexivity. Qed.

(** ** The listing parser *)

Lemma omap_step {A B : Type} (f : A -> option B) (x : A) (l : list A) :
  omap f (x :: l) = match f x with Some y => y :: omap f l | None => omap f l end.
Proof. reflexivity. Qed.

Lemma parseListingRows_acc (acc : list Parser.stub) (rows : list Dom.elem) :
  foldl Parser.push_row acc rows = acc ++ omap Parser.listing_row rows.
Proof.
  revert acc. induction rows as [|row rows IH]; intros acc.
  - change (acc = acc ++ []). now rewrite app_nil_r.
  - cbn [foldl]. rewrite IH, omap_step. unfold Parser.push_row.
    destruct (Parser.listing_row row); [now rewrite <- app_assoc|reflexivity].
Qed.

(** Each row contributes on its own: the result is the list of the
    stubs of the rows that have one. *)
Lemma parseListingRows_omap (rows : list Dom.elem) :
  Parser.parseListingRows rows = omap Parser.listing_row rows.
Proof. unfold Parser.parseListingRows. now rewrite parseListingRows_acc. Qed.

Lemma listing_row_valid (row : Dom.elem) (s : Parser.stub) :
  Parser.listing_row row = Some s ->
  valid_row row /\ Parser.stub_nsrNo s = row_id row.
Proof.
  unfold Parser.listing_row, valid_row, header_row, short_row, invalid_id_row, row_id,
    row_cells.
  destruct (Dom.hasClass "table-heading" row); [discriminate|].
  destruct (Dom.find (Parser.sel_tag "td") [row])
    as [|c0 [|c1 [|c2 [|c3 [|c4 [|c5 cells]]]]]]; try discriminate.
  destruct (Utils.isValidNsrNumber (Some (Parser.cell_text c0))) eqn:E; [|discriminate].
  cbn [negb length]. intros [= <-]. cbn [Parser.stub_nsrNo].
  repeat split; try congruence; lia.
Qed.

Lemma valid_row_listed (row : Dom.elem) :
  valid_row row -> exists s, Parser.listing_row row = Some s.
Proof.
  unfold Parser.listing_row, valid_row, header_row, short_row, invalid_id_row, row_id,
    row_cells.
  intros (Hh & Hs & Hi).
  destruct (Dom.hasClass "table-heading" row); [now destruct Hh|].
  destruct (Dom.find (Parser.sel_tag "td") [row])
    as [|c0 [|c1 [|c2 [|c3 [|c4 [|c5 cells]]]]]];
    try (exfalso; apply Hs; cbn [length]; lia).
  destruct (Utils.isValidNsrNumber (Some (Parser.cell_text c0))); [|now destruct Hi].
  cbn [negb]. eexists; reflexivity.
Qed.

Lemma skipped_row_none (row : Dom.elem) :
  header_row row \/ short_row row \/ invalid_id_row row ->
  Parser.listing_row row = None.
Proof.
  intros H. destruct (Parser.listing_row row) as [s|] eqn:E; [|reflexivity].
  apply listing_row_valid in E as [(Hh & Hs & Hi) _]. tauto.
Qed.

(** C8.  From a listing table of one heading row and three valid rows
    the parser returns three stubs, those of the three rows in their
    order; a heading row, a row of fewer than six cells and a row
    whose id is invalid drop out and leave the stubs of the other rows
    as they are; every stub returned carries a valid id. *)
Theorem parseListingPage_rows :
  (forall (html : Dom.document) (h r1 r2 r3 : Dom.elem),
      Dom.select Parser.sel_listing_rows html = [h; r1; r2; r3] ->
      header_row h -> valid_row r1 -> valid_row r2 -> valid_row r3 ->
      exists s1 s2 s3,
        Parser.parseListingPage html = [s1; s2; s3]
        /\ Parser.listing_row r1 = Some s1 /\ Parser.stub_nsrNo s1 = row_id r1
        /\ Parser.listing_row r2 = Some s2 /\ Parser.stub_nsrNo s2 = row_id r2
        /\ Parser.listing_row r3 = Some s3 /\ Parser.stub_nsrNo s3 = row_id r3)
  /\ (forall (before after : list Dom.elem) (row : Dom.elem),
         header_row row \/ short_row row \/ invalid_id_row row ->
         Parser.parseListingRows (before ++ row :: after)
         = Parser.parseListingRows (before ++ after))
  /\ (forall (html : Dom.document) (s : Parser.stub),
         s ∈ Parser.parseListingPage html ->
         Utils.isValidNsrNumber (Some (Parser.stub_nsrNo s)) = true).
Proof.
  split; [|split].
  - intros html h r1 r2 r3 Hrows Hh H1 H2 H3.
    unfold Parser.parseListingPage. rewrite Hrows, parseListingRows_omap.
    destruct (valid_row_listed _ H1) as [s1 E1].
    destruct (valid_row_listed _ H2) as [s2 E2].
    destruct (valid_row_listed _ H3) as [s3 E3].
    exists s1, s2, s3. rewrite !omap_step.
    rewrite (skipped_row_none h) by (left; exact Hh). rewrite E1, E2, E3.
    repeat split; try reflexivity; eapply listing_row_valid; eassumption.
  - intros before after row Hrow. rewrite !parseListingRows_omap, !omap_app.
    rewrite omap_step. now rewrite (skipped_row_none row Hrow).
  - intros html s. unfold Parser.parseListingPage. rewrite parseListingRows_omap.
    rewrite list_elem_of_omap. intros (row & _ & E).
    apply listing_row_valid in E as [(_ & _ & Hi) ->].
    unfold invalid_id_row in Hi. now destruct (Utils.isValidNsrNumber _).
Qed.

Lemma parseListingPage_rows_witness :
  exists h r1 r2 r3,
    Dom.select Parser.sel_listing_rows sample_listing = [h; r1; r2; r3]
    /\ header_row h /\ valid_row r1 /\ valid_row r2 /\ valid_row r3
    /\ exists s1 s2 s3,
        Parser.parseListingPage sample_listing = [s1; s2; s3]
        /\ Parser.listing_row r1 = Some s1 /\ Parser.stub_nsrNo s1 = row_id r1
        /\ Parser.listing_row r2 = Some s2 /\ Parser.stub_nsrNo s2 = row_id r2
        /\ Parser.listing_row r3 = Some s3 /\ Parser.stub_nsrNo s3 = row_id r3.
Proof.
  assert (Hrows : Dom.select Parser.sel_listing_rows sample_listing = [_; _; _; _])
    by (vm_compute; reflexivity).
  match type of Hrows with
  | _ = [?h; ?r1; ?r2; ?r3] =>
      exists h, r1, r2, r3;
      assert (Hh : header_row h) by (vm_compute; reflexivity);
      assert (H1 : valid_row r1)
        by (repeat split; vm_compute; intros H; first [discriminate H | lia]);
      assert (H2 : valid_row r2)
        by (repeat split; vm_compute; intros H; first [discriminate H | lia]);
      assert (H3 : valid_row r3)
        by (repeat split; vm_compute; intros H; first [discriminate H | lia])
  end.
  split; [exact Hrows|]. split; [exact Hh|]. split; [exact H1|].
  split; [exact H2|]. split; [exact H3|].
  exact (proj1 parseListingPage_rows _ _ _ _ _ Hrows Hh H1 H2 H3).
Defined.

(** The listing with a row of two cells among the others gives the
    stubs of the three complete rows. *)
Example parseListingPage_short_row :
  map Parser.stub_nsrNo (Parser.parseListingPage sample_listing_with_short_row)
  = ["123456"; "NSR 004821"; "765432"]
  /\ map Parser.stub_profileUrl (Parser.parseListingPage sample_listing_with_short_row)
     = ["https://www.nsr.org.my/list1viewdetails.asp?Acc=123456";
        "https://www.nsr.org.my/list1viewdetails.asp?Acc=004821";
        "https://www.nsr.org.my/list1viewdetails.asp?Acc=765432"].
Proof. split; vm_compute; reflexivity. Qed.

(** ** The profile parser *)

Section Profile.
Context `{Platform}.

Lemma foldM_keeps_url {A B : Type} (u : string) (proj : A -> Parser.specialist)
      (step : A -> B -> option A) (l : list B) (a : A) :
  (forall a x, Parser.profileUrl (proj a) = u -> keeps_url u proj (step a x)) ->
  Parser.profileUrl (proj a) = u ->
  keeps_url u proj (Parser.foldM step l a).
Proof.
  intros Hstep. unfold Parser.foldM. revert a.
  induction l as [|x l IH]; intros a Ha; cbn [foldl].
  - exists a. split; [reflexivity|exact Ha].
  - destruct (Hstep a x Ha) as (a' & E & Ha'). cbn [mbind option_bind].
    rewrite E. apply IH, Ha'.
Qed.

Lemma assign_address_keeps_url (value : string) (s : Parser.specialist) :
  keeps_url (Parser.profileUrl s) id (Parser.assign_address value s).
Proof.
  unfold Parser.assign_address.
  destruct (extractState_total (Some value)) as [i ->].
  eexists. split; reflexivity.
Qed.

Lemma labelled_value_keeps_url (nsrNo0 : string) (f : Parser.section)
      (label value : string) (s : Parser.specialist) :
  keeps_url (Parser.profileUrl s) id (Parser.labelled_value nsrNo0 f label value s).
Proof.
  unfold Parser.labelled_value.
  repeat match goal with
         | |- keeps_url _ _ (if ?b then _ else _) => destruct b
         end;
    try (eexists; split; reflexivity).
  apply assign_address_keeps_url.
Qed.

Lemma qualification_row_keeps_url (c0 c1 c2 : Dom.elem) (s : Parser.specialist) :
  Parser.profileUrl (Parser.qualification_row c0 c1 c2 s) = Parser.profileUrl s.
Proof.
  unfold Parser.qualification_row. cbv zeta.
  match goal with |- context [if ?b then _ else _] => destruct b end; reflexivity.
Qed.

Lemma profile_row_keeps_url (nsrNo0 : string) (f : Parser.section)
      (s : Parser.specialist) (row : Dom.elem) :
  keeps_url (Parser.profileUrl s) id (Parser.profile_row nsrNo0 f s row).
Proof.
  unfold Parser.profile_row. cbv zeta.
  assert (Hq : forall c0 c1 c2,
             keeps_url (Parser.profileUrl s) id
                       (Some (Parser.qualification_row c0 c1 c2 s))).
  { intros. eexists. split; [reflexivity|apply qualification_row_keeps_url]. }
  assert (Hs : keeps_url (Parser.profileUrl s) id (Some s))
    by (eexists; split; reflexivity).
  destruct (Dom.find (Parser.sel_tag "td") [row]) as [|c0 [|c1 [|c2 [|c3 cells]]]];
    repeat match goal with
           | |- keeps_url _ _ (if ?b then _ else _) => destruct b
           | |- keeps_url _ _ (match ?o with Some _ => _ | None => _ end) => destruct o
           end;
    auto using labelled_value_keeps_url.
Qed.

Lemma profile_table_keeps_url (nsrNo0 : string) (st : Parser.section * Parser.specialist)
      (table : Dom.elem) :
  keeps_url (Parser.profileUrl (snd st)) snd (Parser.profile_table nsrNo0 st table).
Proof.
  unfold Parser.profile_table. cbv zeta.
  destruct (foldM_keeps_url (Parser.profileUrl (snd st)) id
              (Parser.profile_row nsrNo0 (Parser.enter_section (Dom.elem_text table) (fst st)))
              (Dom.find (Parser.sel_tag "tr") [table]) (snd st))
    as (s & E & Hs); [|reflexivity|].
  - intros a x <-. apply profile_row_keeps_url.
  - rewrite E. eexists. split; [reflexivity|exact Hs].
Qed.

Lemma fill_from_elements_keeps_url (html : Dom.document) (s : Parser.specialist) :
  Parser.profileUrl (Parser.fill_from_elements html s) = Parser.profileUrl s.
Proof.
  unfold Parser.fill_from_elements. cbv zeta.
  repeat match goal with |- context [if ?b then _ else _] => destruct b end;
    reflexivity.
Qed.

Lemma definition_list_keeps_url (s : Parser.specialist) (dl : Dom.elem) :
  keeps_url (Parser.profileUrl s) id (Parser.definition_list s dl).
Proof.
  unfold Parser.definition_list. cbv zeta.
  apply foldM_keeps_url; [|reflexivity].
  intros a p <-. unfold Parser.definition_pair. cbv zeta.
  repeat match goal with
         | |- keeps_url _ _ (if ?b then _ else _) => destruct b
         end;
    try (eexists; split; reflexivity).
  apply assign_address_keeps_url.
Qed.

Lemma fill_state_keeps_url (s : Parser.specialist) :
  keeps_url (Parser.profileUrl s) id (Parser.fill_state s).
Proof.
  unfold Parser.fill_state.
  destruct (negb (JS.truthy (Parser.state s)) && JS.truthy (Parser.address s)).
  - destruct (extractState_total (Parser.address s)) as [i ->].
    eexists. split; reflexivity.
  - eexists. split; reflexivity.
Qed.

Lemma parseProfilePage_keeps_url (html : Dom.document) (nsrNo : string) :
  exists s, Parser.parseProfilePage html nsrNo = Some s
            /\ Parser.profileUrl s = Utils.buildProfileUrl nsrNo.
Proof.
  unfold Parser.parseProfilePage.
  destruct (foldM_keeps_url (Utils.buildProfileUrl nsrNo) snd
              (Parser.profile_table nsrNo) (Dom.select Parser.sel_bordered_tables html)
              (Parser.mkSection false false false, Parser.initial_specialist nsrNo))
    as (st & -> & Hst); [|reflexivity|].
  { intros a x <-. apply profile_table_keeps_url. }
  cbn [mbind option_bind].
  destruct (foldM_keeps_url (Utils.buildProfileUrl nsrNo) id
              Parser.definition_list (Dom.select (Parser.sel_tag "dl") html)
              (Parser.fill_from_elements html (snd st)))
    as (s & -> & Hs).
  { intros a x <-. apply definition_list_keeps_url. }
  { cbn [id]. now rewrite fill_from_elements_keeps_url. }
  cbn [mbind option_bind].
  destruct (fill_state_keeps_url s) as (s' & -> & Hs').
  exists s'. split; [reflexivity|]. cbn [id] in *. congruence.
Qed.

End Profile.

(** C10.  The profile parser returns a record, and the [profileUrl]
    of the record is the URL built from the id it was called with,
    whatever the document holds.  On a document whose "NSR No" row
    carries another number the record takes that number as its [nsrNo]
    and keeps the URL of the id of the call, so the two disagree. *)
Theorem parseProfilePage_profileUrl_from_input :
  (forall (P : Platform) (html : Dom.document) (nsrNo : string),
      exists s, Parser.parseProfilePage html nsrNo = Some s
                /\ Parser.profileUrl s = Utils.buildProfileUrl nsrNo)
  /\ (exists s,
         @Parser.parseProfilePage SimplePlatform.platform sample_profile "123456" = Some s
         /\ Parser.nsrNo s = "654321"
         /\ Parser.profileUrl s
            = "https://nsr.org.my/nsr/ViewSpecialistProfile.jsp?nsrNo=123456"
         /\ Parser.profileUrl s <> Utils.buildProfileUrl (Parser.nsrNo s)).
Proof.
  split.
  - intros P html nsrNo. apply parseProfilePage_keeps_url.
  - eexists. split; [vm_compute; reflexivity|].
    repeat split; try reflexivity. vm_compute. discriminate.
Qed.

(** ** Pagination discovery *)

Section Pagination.
Context `{Platform}.

Lemma parseInt_param_truthy (p : option string) (n : Z) :
  Crawler.parseInt_param p = Some n -> JS.truthy p = true.
Proof.
  destruct p as [[|c s]|]; [|reflexivity|]; discriminate.
Qed.

(** What the guard grants about the page number of a URL it lets pass. *)
Lemma valid_page_in_range (url currentUrl : string) (currentPage n : Z) :
  Crawler.isValidNextPageUrl url currentUrl currentPage = true ->
  page_number url = Some n ->
  currentPage < n < 1000.
Proof.
  unfold Crawler.isValidNextPageUrl, page_number, page_param.
  destruct (URL_new url) as [urlObj|]; [|discriminate].
  cbn [mbind option_bind]. intros Hv Hn.
  rewrite (parseInt_param_truthy _ _ Hn), Hn in Hv. cbn [Crawler.num_ge Crawler.num_le] in Hv.
  destruct (1000 <=? n) eqn:E1; [discriminate|].
  destruct (n <=? currentPage) eqn:E2; [discriminate|]. lia.
Qed.

(** What the guard grants about the state filter. *)
Lemma valid_keeps_filter (url currentUrl : string) (currentPage : Z) (v : string) :
  Crawler.isValidNextPageUrl url currentUrl currentPage = true ->
  state_filter currentUrl = Some v -> v <> EmptyString ->
  state_filter url = Some v.
Proof.
  unfold Crawler.isValidNextPageUrl, state_filter.
  destruct (URL_new url) as [urlObj|]; [|discriminate].
  cbv zeta.
  destruct (JS.truthy (searchParams_get "page" _) && _); [discriminate|].
  destruct (String.eqb url currentUrl); [discriminate|].
  destruct (URL_new currentUrl) as [currentUrlObj|]; [|discriminate].
  cbn [mbind option_bind]. intros Hv Hc Hne. rewrite Hc in Hv.
  destruct v as [|c v]; [congruence|]. cbn [JS.truthy andb] in Hv.
  destruct (bool_decide _) eqn:E; [|discriminate].
  now apply bool_decide_eq_true in E.
Qed.

Lemma valid_differs (url currentUrl : string) (currentPage : Z) :
  Crawler.isValidNextPageUrl url currentUrl currentPage = true -> url <> currentUrl.
Proof.
  unfold Crawler.isValidNextPageUrl.
  destruct (URL_new url) as [urlObj|]; [|discriminate].
  destruct (_ && _); [discriminate|].
  destruct (String.eqb url currentUrl) eqn:E; [discriminate|].
  intros _. now apply String.eqb_neq.
Qed.

Lemma next_link_accepted (html : Dom.document) (currentUrl : string) (currentPage : Z)
      (sel : Dom.selector) (u : string) :
  Crawler.next_link html currentUrl currentPage sel = Some u ->
  accepted_at u currentUrl currentPage.
Proof.
  unfold Crawler.next_link, accepted_at, page_number, page_param. cbv zeta.
  destruct (0 <? length _)%nat; [|discriminate].
  destruct (Dom.attr_of "href" _) as [href|]; [|discriminate].
  destruct (_ && _); [|discriminate].
  destruct (URL_new_rel href currentUrl) as [r|]; [|discriminate].
  destruct (Crawler.isValidNextPageUrl (URL_href r) currentUrl currentPage) eqn:Hv;
    [|discriminate].
  destruct (URL_new (URL_href r)) as [nextUrlObj|] eqn:En; [|discriminate].
  destruct (negb (JS.truthy _) || Crawler.num_gt _ currentPage) eqn:E; [|discriminate].
  intros [= <-]. rewrite Hv, En. cbn [mbind option_bind]. split; [reflexivity|].
  apply orb_true_iff in E as [E|E]; [left; now apply negb_true_iff in E|right; left; exact E].
Qed.

Lemma first_next_link_accepted (html : Dom.document) (currentUrl : string)
      (currentPage : Z) (sels : list Dom.selector) (u : string) :
  Crawler.first_next_link html currentUrl currentPage sels = Some u ->
  accepted_at u currentUrl currentPage.
Proof.
  induction sels as [|sel sels IH]; cbn [Crawler.first_next_link]; [discriminate|].
  destruct (Crawler.next_link html currentUrl currentPage sel) as [u'|] eqn:E.
  - intros [= <-]. eapply next_link_accepted, E.
  - exact IH.
Qed.

Lemma numbered_link_accepted (currentUrl : string) (currentPage : Z) (el : Dom.elem)
      (l : Crawler.pageLink) :
  Crawler.numbered_link currentUrl currentPage el = Some l ->
  accepted_at (Crawler.pl_url l) currentUrl currentPage
  /\ currentPage < Crawler.pl_page l < 1000.
Proof.
  unfold Crawler.numbered_link, accepted_at. cbv zeta.
  destruct (Dom.lookup_attr "href" _) as [href|]; [|discriminate].
  destruct (_ || _); [discriminate|].
  destruct (URL_new_rel href currentUrl) as [r|]; [|discriminate].
  destruct (Crawler.isValidNextPageUrl (URL_href r) currentUrl currentPage) eqn:Hv;
    [|discriminate].
  cbn [negb].
  destruct (URL_new (URL_href r)) as [urlObj|]; [|discriminate].
  assert (Hrange : forall (o : option Z) (p : Z),
             Crawler.num_gt o currentPage && Crawler.num_lt o 1000 = true ->
             (fun p => Crawler.mkPageLink p (URL_href r)) <$> o = Some l ->
             Crawler.pl_url l = URL_href r /\ currentPage < Crawler.pl_page l < 1000).
  { intros [n|] _ Hb; [|discriminate]. cbn [fmap option_fmap option_map].
    intros [= <-]. cbn [Crawler.pl_url Crawler.pl_page Crawler.num_gt Crawler.num_lt] in *.
    apply andb_true_iff in Hb as [H1 H2]. split; [reflexivity|lia]. }
  destruct (JS.truthy _).
  - destruct (_ && _) eqn:Hb; [|discriminate]. intros E.
    destruct (Hrange _ 0 Hb E) as [-> Hr]. rewrite Hv.
    split; [split; [reflexivity|right; right; lia]|lia].
  - destruct (_ && _) eqn:Hb; [|discriminate]. intros E.
    destruct (Hrange _ 0 Hb E) as [-> Hr]. rewrite Hv.
    split; [split; [reflexivity|right; right; lia]|lia].
Qed.

Lemma insert_link_elem (x y : Crawler.pageLink) (l : list Crawler.pageLink) :
  y ∈ Crawler.insert_link x l -> y = x \/ y ∈ l.
Proof.
  induction l as [|z l IH]; cbn [Crawler.insert_link].
  - intros Hy. apply list_elem_of_singleton in Hy. now left.
  - destruct (Crawler.pl_page x <=? Crawler.pl_page z).
    + intros Hy. apply elem_of_cons in Hy as [->|Hy]; [now left|now right].
    + intros Hy. apply elem_of_cons in Hy as [->|Hy].
      * right. apply elem_of_cons. now left.
      * destruct (IH Hy) as [->|Hin]; [now left|right; apply elem_of_cons; now right].
Qed.

Lemma sort_links_elem (y : Crawler.pageLink) (l : list Crawler.pageLink) :
  y ∈ Crawler.sort_links l -> y ∈ l.
Proof.
  unfold Crawler.sort_links. induction l as [|x l IH]; cbn [foldr]; [easy|].
  intros Hy. apply insert_link_elem in Hy as [->|Hy]; apply elem_of_cons; auto.
Qed.

Lemma constructed_url_accepted (currentUrl : string) (currentPage : Z) (u : string) :
  Crawler.constructed_url currentUrl currentPage = Some u ->
  accepted_at u currentUrl currentPage.
Proof.
  unfold Crawler.constructed_url, accepted_at. cbv zeta.
  destruct (URL_new currentUrl) as [currentUrlObj|]; [|discriminate].
  destruct (1000 <=? currentPage + 1) eqn:E; [discriminate|].
  destruct (Crawler.isValidNextPageUrl _ currentUrl currentPage) eqn:Hv; [|discriminate].
  intros [= <-]. split; [exact Hv|]. right; right. lia.
Qed.

(** Every URL that [findNextPageUrl] returns was accepted. *)
Lemma findNextPageUrl_accepted (html : Dom.document) (currentUrl : string)
      (currentPage : Z) (u : string) :
  Crawler.findNextPageUrl html currentUrl currentPage = Some u ->
  accepted_at u currentUrl currentPage.
Proof.
  unfold Crawler.findNextPageUrl. cbv zeta.
  destruct (Crawler.first_next_link _ _ _ _) as [u1|] eqn:E1.
  { intros [= <-]. eapply first_next_link_accepted, E1. }
  destruct (Crawler.sort_links _) as [|l ls] eqn:E2.
  - destruct (negb _); [discriminate|]. apply constructed_url_accepted.
  - intros [= <-].
    assert (Hl : l ∈ Crawler.sort_links
                   (omap (Crawler.numbered_link currentUrl currentPage)
                         (Dom.select Crawler.sel_numbered_links html)))
      by (rewrite E2; apply elem_of_cons; now left).
    apply sort_links_elem, list_elem_of_omap in Hl as (el & _ & Hel).
    now apply numbered_link_accepted in Hel.
Qed.

(** From page 999 on, only a link without page parameter is accepted. *)
Lemma accepted_late_has_no_page (url currentUrl : string) (currentPage : Z) :
  999 <= currentPage ->
  accepted_at url currentUrl currentPage ->
  JS.truthy (page_param url) = false.
Proof.
  intros Hp [Hv [Hn|[Hgt|Hlt]]]; [exact Hn| |lia].
  destruct (page_number url) as [n|] eqn:E; [|discriminate].
  cbn [Crawler.num_gt] in Hgt.
  pose proof (valid_page_in_range _ _ _ _ Hv E). lia.
Qed.

(** *** Links that lead out of the range are never followed *)

Lemma next_selection_pagination_link (html : Dom.document) (sel : Dom.selector)
      (e : Dom.elem) :
  sel ∈ Crawler.nextSelectors -> e ∈ Dom.select sel html -> e ∈ pagination_links html.
Proof.
  intros Hs He. unfold pagination_links. apply elem_of_app. left.
  apply list_elem_of_In, in_flat_map. exists sel. split; now apply list_elem_of_In.
Qed.

Lemma out_of_range_invalid (url currentUrl : string) (currentPage n : Z) :
  page_number url = Some n -> 1000 <= n \/ n <= currentPage ->
  Crawler.isValidNextPageUrl url currentUrl currentPage = false.
Proof.
  intros Hn Hr.
  destruct (Crawler.isValidNextPageUrl url currentUrl currentPage) eqn:E; [|reflexivity].
  pose proof (valid_page_in_range _ _ _ _ E Hn). lia.
Qed.

Lemma next_link_out_of_range (html : Dom.document) (currentUrl : string)
      (currentPage : Z) (sel : Dom.selector) :
  sel ∈ Crawler.nextSelectors ->
  pagination_links_out_of_range html currentUrl currentPage ->
  Crawler.next_link html currentUrl currentPage sel = None.
Proof.
  intros Hs Hl. unfold Crawler.next_link. cbv zeta.
  destruct (Dom.not_ Crawler.sel_disabled (Dom.select sel html)) as [|e next] eqn:En;
    [reflexivity|].
  assert (He : e ∈ Dom.select sel html).
  { assert (Hin : e ∈ Dom.not_ Crawler.sel_disabled (Dom.select sel html))
      by (rewrite En; apply elem_of_cons; now left).
    unfold Dom.not_ in Hin. now apply list_elem_of_filter in Hin as [_ Hin]. }
  apply (next_selection_pagination_link _ _ _ Hs) in He.
  cbn [length Dom.attr_of]. destruct (0 <? S (length next))%nat; [|reflexivity].
  destruct (Dom.lookup_attr "href" (Dom.attrs e)) as [href|] eqn:Eh; [|reflexivity].
  destruct (_ && _); [|reflexivity].
  destruct (URL_new_rel href currentUrl) as [r|] eqn:Er; [|reflexivity].
  destruct (Hl e href r He Eh Er) as (n & Hn & Hr).
  now rewrite (out_of_range_invalid _ currentUrl currentPage n Hn Hr).
Qed.

Lemma numbered_link_out_of_range (html : Dom.document) (currentUrl : string)
      (currentPage : Z) (e : Dom.elem) :
  pagination_links_out_of_range html currentUrl currentPage ->
  e ∈ Dom.select Crawler.sel_numbered_links html ->
  Crawler.numbered_link currentUrl currentPage e = None.
Proof.
  intros Hl He.
  assert (He' : e ∈ pagination_links html)
    by (unfold pagination_links; apply elem_of_app; now right).
  unfold Crawler.numbered_link. cbv zeta.
  destruct (Dom.lookup_attr "href" (Dom.attrs e)) as [href|] eqn:Eh; [|reflexivity].
  destruct (_ || _); [reflexivity|].
  destruct (URL_new_rel href currentUrl) as [r|] eqn:Er; [|reflexivity].
  destruct (Hl e href r He' Eh Er) as (n & Hn & Hr).
  now rewrite (out_of_range_invalid _ currentUrl currentPage n Hn Hr).
Qed.

(** When every link that pagination discovery looks at leads out of
    the range, no link is returned: the result is the URL constructed
    for the next page if the pagination summary reports one, and
    nothing otherwise. *)
Lemma links_out_of_range_not_followed (html : Dom.document) (currentUrl : string)
      (currentPage : Z) :
  pagination_links_out_of_range html currentUrl currentPage ->
  Crawler.findNextPageUrl html currentUrl currentPage
  = if Parser.hasNext (Parser.parsePaginationInfo html)
       && (Parser.currentPage (Parser.parsePaginationInfo html)
           <? Parser.totalPages (Parser.parsePaginationInfo html))
    then Crawler.constructed_url currentUrl currentPage
    else None.
Proof.
  intros Hl. unfold Crawler.findNextPageUrl. cbv zeta.
  assert (H1 : forall sels, (forall sel, sel ∈ sels -> sel ∈ Crawler.nextSelectors) ->
                 Crawler.first_next_link html currentUrl currentPage sels = None).
  { induction sels as [|sel sels IH]; intros Hs; cbn [Crawler.first_next_link];
      [reflexivity|].
    rewrite (next_link_out_of_range _ _ _ sel);
      [|apply Hs, elem_of_cons; now left|exact Hl].
    apply IH. intros sel' Hs'. apply Hs, elem_of_cons. now right. }
  rewrite H1 by (intros sel Hs; exact Hs).
  assert (H2 : omap (Crawler.numbered_link currentUrl currentPage)
                    (Dom.select Crawler.sel_numbered_links html) = []).
  { assert (Hall : forall e, e ∈ Dom.select Crawler.sel_numbered_links html ->
                     Crawler.numbered_link currentUrl currentPage e = None)
      by (intros e; apply numbered_link_out_of_range, Hl).
    induction (Dom.select Crawler.sel_numbered_links html) as [|e l IH]; [reflexivity|].
    rewrite omap_step, Hall by (apply elem_of_cons; now left).
    apply IH. intros e' He'. apply Hall, elem_of_cons. now right. }
  rewrite H2. cbn [Crawler.sort_links foldr].
  now destruct (_ && _).
Qed.

End Pagination.

(** On a page whose only link leads to page 1006, the pagination
    summary (1006 pages, a mark of a further page) makes the engine
    return the URL it builds for page 2. *)
Lemma summary_overrides_link_to_1006 :
  link_hrefs page_with_last_page_link
  = [Some "list1pview.asp?state_ForSearch=4&page=1006"]
  /\ @page_number SimplePlatform.platform
       "https://nsr.org.my/list1pview.asp?state_ForSearch=4&page=1006" = Some 1006
  /\ @Crawler.findNextPageUrl SimplePlatform.platform
       page_with_last_page_link search_url 1
     = Some "https://nsr.org.my/list1pview.asp?state_ForSearch=4&page=2".
Proof. repeat split; vm_compute; reflexivity. Qed.

(** A link that pagination discovery looks at need not be a link of
    the pagination bar: on a page of the unfiltered list whose
    pagination bar holds a link to page 1006 and nothing else, and
    whose summary reports no further page, the navigation link
    labelled "Home > Search" is returned. *)
Lemma navigation_link_followed :
  Parser.hasNext (Parser.parsePaginationInfo page_with_navigation_link) = false
  /\ @Crawler.findNextPageUrl SimplePlatform.platform page_with_navigation_link list_url 1
     = Some "https://nsr.org.my/index.asp".
Proof. split; vm_compute; reflexivity. Qed.

(** C1, amended.  A URL that [findNextPageUrl] returns never has a
    page number at or below the current page, nor one at or above
    1000.  When every link that the selectors of the function match
    (its six selectors for a link to the next page and its selector
    for numbered links), resolved against the current URL, leads to
    such a page, as at current page 1 every link to page 1006 does,
    none of them is returned: the result is nothing, unless the
    pagination summary of the page reports a further page, and then
    it is what the function constructs for the current page plus one.
    On the two pages whose only link leads to page 1006 and whose
    summary reports no further page, at current page 1, the result is
    nothing. *)
Theorem findNextPageUrl_page_in_range :
  (forall (P : Platform) (html : Dom.document) (currentUrl : string)
          (currentPage : Z) (u : string) (n : Z),
      Crawler.findNextPageUrl html currentUrl currentPage = Some u ->
      page_number u = Some n ->
      currentPage < n < 1000)
  /\ (forall (P : Platform) (html : Dom.document) (currentUrl : string)
             (currentPage : Z),
         pagination_links_out_of_range html currentUrl currentPage ->
         Crawler.findNextPageUrl html currentUrl currentPage
         = if Parser.hasNext (Parser.parsePaginationInfo html)
              && (Parser.currentPage (Parser.parsePaginationInfo html)
                  <? Parser.totalPages (Parser.parsePaginationInfo html))
           then Crawler.constructed_url currentUrl currentPage
           else None)
  /\ @Crawler.findNextPageUrl SimplePlatform.platform
       page_with_link_to_1006 search_url 1 = None
  /\ @Crawler.findNextPageUrl SimplePlatform.platform
       page_with_numbered_link_to_1006 search_url 1 = None.
Proof.
  split; [|split; [|split; vm_compute; reflexivity]].
  - intros P html currentUrl currentPage u n Hu Hn.
    destruct (findNextPageUrl_accepted _ _ _ _ Hu) as [Hv _].
    eapply valid_page_in_range; eassumption.
  - intros P html currentUrl currentPage. apply links_out_of_range_not_followed.
Qed.

Lemma findNextPageUrl_page_in_range_witness :
  @Crawler.findNextPageUrl SimplePlatform.platform page_with_next_link search_url 1
  = Some "https://nsr.org.my/list1pview.asp?state_ForSearch=4&page=2"
  /\ @page_number SimplePlatform.platform
       "https://nsr.org.my/list1pview.asp?state_ForSearch=4&page=2" = Some 2
  /\ 1 < 2 < 1000
  /\ @pagination_links_out_of_range SimplePlatform.platform page_with_last_page_link
       search_url 1
  /\ @Crawler.findNextPageUrl SimplePlatform.platform
       page_with_last_page_link search_url 1
     = @Crawler.constructed_url SimplePlatform.platform search_url 1
  /\ @pagination_links_out_of_range SimplePlatform.platform page_with_link_to_1006
       search_url 1
  /\ @Crawler.findNextPageUrl SimplePlatform.platform
       page_with_link_to_1006 search_url 1
     = None.
Proof.
  assert (Hu : @Crawler.findNextPageUrl SimplePlatform.platform
                 page_with_next_link search_url 1
               = Some "https://nsr.org.my/list1pview.asp?state_ForSearch=4&page=2")
    by (vm_compute; reflexivity).
  assert (Hn : @page_number SimplePlatform.platform
                 "https://nsr.org.my/list1pview.asp?state_ForSearch=4&page=2" = Some 2)
    by (vm_compute; reflexivity).
  assert (Hl : @pagination_links_out_of_range SimplePlatform.platform
                 page_with_last_page_link search_url 1).
  { intros e href r He Eh Er. vm_compute in He.
    repeat (apply elem_of_cons in He as [->|He];
            [vm_compute in Eh; injection Eh as <-;
             vm_compute in Er; injection Er as <-;
             exists 1006; split; [vm_compute; reflexivity|left; lia]|]).
    now apply elem_of_nil in He. }
  assert (Hl' : @pagination_links_out_of_range SimplePlatform.platform
                  page_with_link_to_1006 search_url 1).
  { intros e href r He Eh Er. vm_compute in He.
    repeat (apply elem_of_cons in He as [->|He];
            [vm_compute in Eh; injection Eh as <-;
             vm_compute in Er; injection Er as <-;
             exists 1006; split; [vm_compute; reflexivity|left; lia]|]).
    now apply elem_of_nil in He. }
  split; [exact Hu|]. split; [exact Hn|].
  split; [exact (proj1 findNextPageUrl_page_in_range SimplePlatform.platform
                       _ _ _ _ _ Hu Hn)|].
  split; [exact Hl|].
  split; [exact (proj1 (proj2 findNextPageUrl_page_in_range) SimplePlatform.platform
                       _ _ _ Hl)|].
  split; [exact Hl'|].
  exact (proj1 (proj2 findNextPageUrl_page_in_range) SimplePlatform.platform
               _ _ _ Hl').
Defined.

(** The state filter that is present but empty does not bind the
    candidate: the Next link without filter is returned. *)
Lemma empty_filter_not_preserved :
  @state_filter SimplePlatform.platform unfiltered_search_url = Some EmptyString
  /\ @Crawler.findNextPageUrl SimplePlatform.platform
       page_with_unfiltered_next_link unfiltered_search_url 1
     = Some "https://nsr.org.my/list1pview.asp?page=2"
  /\ @state_filter SimplePlatform.platform "https://nsr.org.my/list1pview.asp?page=2"
     = None.
Proof. repeat split; vm_compute; reflexivity. Qed.

(** C3, amended.  When the current URL carries a state filter with a
    non-empty value, every URL that [findNextPageUrl] returns carries
    the same filter value. *)
Theorem findNextPageUrl_keeps_filter :
  forall (P : Platform) (html : Dom.document) (currentUrl : string)
         (currentPage : Z) (u v : string),
    state_filter currentUrl = Some v -> v <> EmptyString ->
    Crawler.findNextPageUrl html currentUrl currentPage = Some u ->
    state_filter u = Some v.
Proof.
  intros P html currentUrl currentPage u v Hc Hne Hu.
  destruct (findNextPageUrl_accepted _ _ _ _ Hu) as [Hv _].
  eapply valid_keeps_filter; eassumption.
Qed.

Lemma findNextPageUrl_keeps_filter_witness :
  @state_filter SimplePlatform.platform search_url = Some "4"
  /\ @Crawler.findNextPageUrl SimplePlatform.platform page_with_next_link search_url 1
     = Some "https://nsr.org.my/list1pview.asp?state_ForSearch=4&page=2"
  /\ @state_filter SimplePlatform.platform
       "https://nsr.org.my/list1pview.asp?state_ForSearch=4&page=2" = Some "4".
Proof.
  assert (Hc : @state_filter SimplePlatform.platform search_url = Some "4")
    by (vm_compute; reflexivity).
  assert (Hu : @Crawler.findNextPageUrl SimplePlatform.platform
                 page_with_next_link search_url 1
               = Some "https://nsr.org.my/list1pview.asp?state_ForSearch=4&page=2")
    by (vm_compute; reflexivity).
  split; [exact Hc|]. split; [exact Hu|].
  refine (findNextPageUrl_keeps_filter SimplePlatform.platform _ _ _ _ _ Hc _ Hu).
  intros E. discriminate E.
Defined.

(** ** The walk over the result pages *)

(** On the site of two views the walk never ends: 1001 requests are
    handled within a fuel of 1001. *)
Lemma walk_over_two_views_unbounded :
  ~ (length (@walk SimplePlatform.platform 1001 two_view_site search_url 1) <= 1000)%nat.
Proof.
  assert (E : length (@walk SimplePlatform.platform 1001 two_view_site search_url 1)
              = 1001%nat) by (vm_compute; reflexivity).
  rewrite E. lia.
Qed.

Lemma walk_bound `{Platform} (fuel : nat) (fetch : string -> Z -> Dom.document)
      (url : string) (page : Z) :
  Forall (fun u => JS.truthy (page_param u) = true)
         (candidates (walk fuel fetch url page)) ->
  Z.of_nat (length (walk fuel fetch url page)) <= Z.max 1 (1000 - page).
Proof.
  revert url page. induction fuel as [|fuel IH]; intros url page Hc.
  - cbn [walk length]. lia.
  - cbn [walk] in *.
    destruct (negb (Parser.hasResults (fetch url page))); [cbn [length]; lia|].
    destruct (Crawler.findNextPageUrl (fetch url page) url page) as [u|] eqn:E;
      [|cbn [length]; lia].
    destruct fuel as [|fuel']; [cbn [walk length]; lia|].
    assert (Hu : JS.truthy (page_param u) = true).
    { cbn [walk candidates tail map fst] in Hc. now inversion Hc. }
    assert (Hp : page < 999).
    { destruct (Z.lt_ge_cases page 999) as [Hlt|Hge]; [exact Hlt|].
      pose proof (accepted_late_has_no_page _ _ _ Hge (findNextPageUrl_accepted _ _ _ _ E)).
      congruence. }
    specialize (IH u (page + 1)).
    change (length ((url, page) :: walk (S fuel') fetch u (page + 1)))
      with (S (length (walk (S fuel') fetch u (page + 1)))).
    rewrite Nat2Z.inj_succ.
    assert (Z.of_nat (length (walk (S fuel') fetch u (page + 1)))
            <= Z.max 1 (1000 - (page + 1))); [|lia].
    apply IH. cbn [walk candidates tail map] in *. now inversion Hc.
Qed.

(** C2, amended.  A candidate that carries a page number has it above
    the current page and below 1000; from page 999 on only a link that
    names no page is accepted; hence a walk from page 1 all of whose
    candidates name a page handles fewer than 1000 requests, whatever
    the site serves and however much fuel it is given. *)
Theorem walk_with_page_links_bounded :
  (forall (P : Platform) (html : Dom.document) (currentUrl : string)
          (currentPage : Z) (u : string) (n : Z),
      Crawler.findNextPageUrl html currentUrl currentPage = Some u ->
      page_number u = Some n ->
      currentPage < n < 1000)
  /\ (forall (P : Platform) (html : Dom.document) (currentUrl : string)
             (currentPage : Z) (u : string),
         999 <= currentPage ->
         Crawler.findNextPageUrl html currentUrl currentPage = Some u ->
         JS.truthy (page_param u) = false)
  /\ (forall (P : Platform) (fuel : nat) (fetch : string -> Z -> Dom.document)
             (url : string) (page : Z),
         1 <= page ->
         Forall (fun u => JS.truthy (page_param u) = true)
                (candidates (walk fuel fetch url page)) ->
         (length (walk fuel fetch url page) < 1000)%nat).
Proof.
  split; [|split].
  - intros P html currentUrl currentPage u n Hu Hn.
    destruct (findNextPageUrl_accepted _ _ _ _ Hu) as [Hv _].
    eapply valid_page_in_range; eassumption.
  - intros P html currentUrl currentPage u Hge Hu.
    eapply accepted_late_has_no_page; [exact Hge|].
    eapply findNextPageUrl_accepted, Hu.
  - intros P fuel fetch url page Hp Hc.
    pose proof (walk_bound fuel fetch url page Hc). lia.
Qed.

Lemma walk_with_page_links_bounded_witness :
  1 <= 1
  /\ Forall (fun u => JS.truthy (@page_param SimplePlatform.platform u) = true)
            (candidates (@walk SimplePlatform.platform 10 three_page_site search_url 1))
  /\ @walk SimplePlatform.platform 10 three_page_site search_url 1
     = [ (search_url, 1);
         ("https://nsr.org.my/list1pview.asp?state_ForSearch=4&page=2", 2);
         ("https://nsr.org.my/list1pview.asp?state_ForSearch=4&page=3", 3) ]
  /\ (length (@walk SimplePlatform.platform 10 three_page_site search_url 1) < 1000)%nat.
Proof.
  assert (Hp : 1 <= 1) by lia.
  assert (Hc : Forall (fun u => JS.truthy (@page_param SimplePlatform.platform u) = true)
                 (candidates (@walk SimplePlatform.platform 10 three_page_site
                                    search_url 1))).
  { apply (bool_decide_unpack _). vm_compute. exact I. }
  split; [exact Hp|]. split; [exact Hc|]. split; [vm_compute; reflexivity|].
  exact (proj2 (proj2 walk_with_page_links_bounded) SimplePlatform.platform 10%nat
               three_page_site search_url 1 Hp Hc).
Defined.

(** On the site of two views the walk uses up whatever fuel it is
    given, from either view and at every page counter. *)
Lemma walk_over_two_views_never_ends (fuel : nat) (page : Z) :
  length (@walk SimplePlatform.platform fuel two_view_site search_url page) = fuel
  /\ length (@walk SimplePlatform.platform fuel two_view_site all_view_url page) = fuel.
Proof.
  revert page. induction fuel as [|fuel IH]; intros page; [split; reflexivity|].
  assert (R1 : Parser.hasResults (two_view_site search_url page) = true)
    by (vm_compute; reflexivity).
  assert (R2 : Parser.hasResults (two_view_site all_view_url page) = true)
    by (vm_compute; reflexivity).
  assert (E1 : @Crawler.findNextPageUrl SimplePlatform.platform
                 (two_view_site search_url page) search_url page = Some all_view_url)
    by (vm_compute; reflexivity).
  assert (E2 : @Crawler.findNextPageUrl SimplePlatform.platform
                 (two_view_site all_view_url page) all_view_url page = Some search_url)
    by (vm_compute; reflexivity).
  cbn [walk]. rewrite R1, R2, E1, E2. cbn [negb length].
  destruct (IH (page + 1)) as [-> ->]. split; reflexivity.
Qed.

(** ** The page handlers *)

Lemma matches_table_heading (e : Dom.elem) :
  Dom.matches Parser.sel_table_heading e = Dom.hasClass "table-heading" e.
Proof.
  unfold Dom.matches, Parser.sel_table_heading, Dom.matches_complex. cbn.
  now rewrite !andb_true_r, orb_false_r.
Qed.

(** A page that [hasResults] finds empty gives the listing parser no stub. *)
Lemma no_results_no_stubs (html : Dom.document) :
  Parser.hasResults html = false -> Parser.parseListingPage html = [].
Proof.
  unfold Parser.hasResults, Parser.parseListingPage. cbv zeta.
  rewrite parseListingRows_omap.
  destruct (0 <? length _)%nat eqn:E; [discriminate|]. intros _.
  apply Nat.ltb_ge in E.
  induction (Dom.select Parser.sel_listing_rows html) as [|row rows IH]; [reflexivity|].
  rewrite omap_step. unfold Dom.not_ in *. rewrite filter_cons in E.
  destruct (decide _) as [Hm|Hm].
  - cbn [length] in E. lia.
  - rewrite skipped_row_none; [exact (IH E)|].
    left. unfold header_row. rewrite <- matches_table_heading.
    destruct (Dom.matches Parser.sel_table_heading row); [reflexivity|].
    now destruct Hm.
Qed.

Lemma handleListPage_profiles (html : Dom.document) (stateId : option Z)
      (stateName : option string) (req : request) (label : string) :
  Crawler.handleListPage html stateId stateName req label
  = map (Crawler.profile_request stateId stateName) (Parser.parseListingPage html).
Proof.
  unfold Crawler.handleListPage. cbv zeta.
  destruct (Parser.hasResults html) eqn:E; cbn [negb].
  - now destruct (String.eqb label "LIST").
  - now rewrite (no_results_no_stubs html E).
Qed.

(** A result page with a link to page 2 that the discovery engine
    returns: [handleListPage] asks for the three profiles and for no
    listing page. *)
Lemma handleListPage_ignores_next_link :
  Parser.hasResults listing_with_next_link = true
  /\ @Crawler.findNextPageUrl SimplePlatform.platform listing_with_next_link search_url 1
     = Some "https://nsr.org.my/list1pview.asp?state_ForSearch=4&page=2"
  /\ map req_url (Crawler.handleListPage listing_with_next_link (Some 4) (Some "Melaka")
                                          first_page_request "SEARCH")
     = [ "https://www.nsr.org.my/list1viewdetails.asp?Acc=123456";
         "https://www.nsr.org.my/list1viewdetails.asp?Acc=004821";
         "https://www.nsr.org.my/list1viewdetails.asp?Acc=765432" ]
  /\ filter (fun r => is_listing_request r = true)
            (Crawler.handleListPage listing_with_next_link (Some 4) (Some "Melaka")
                                    first_page_request "SEARCH") = [].
Proof. repeat split; vm_compute; reflexivity. Qed.

(** C4, amended.  A handler of a listing page asks for one profile
    page per stub the listing parser returns, in their order.
    [handleListPage] asks for nothing else, so never for a listing
    page, whatever [findNextPageUrl] would return.  [handleSearchPage]
    does not ask [findNextPageUrl] either.  It asks for one more
    request exactly when the page has results, [parsePaginationInfo]
    reports a next page, and the first link its own selector matches
    has a non-empty [href] that resolves against the URL of the
    request: the listing page at the resolved URL, under the key
    [SEARCH-<state>-<page+1>] and with the page counter plus one.  In
    every other case it asks for the profile pages alone.  On a
    result page whose Next link leads to page 1006,
    [findNextPageUrl] returns nothing and [handleSearchPage] asks for
    the page of that link as page 2. *)
Theorem listing_handlers_emit :
  (forall (html : Dom.document) (stateId : option Z) (stateName : option string)
          (req : request) (label : string),
      Crawler.handleListPage html stateId stateName req label
      = map (Crawler.profile_request stateId stateName) (Parser.parseListingPage html)
      /\ filter (fun r => is_listing_request r = true)
                (Crawler.handleListPage html stateId stateName req label) = [])
  /\ (forall (P : Platform) (html : Dom.document) (stateId : option Z)
             (stateName : option string) (req : request)
             (e : Dom.elem) (rest : list Dom.elem) (href : string) (u : URL),
         Parser.hasResults html = true ->
         Parser.hasNext (Parser.parsePaginationInfo html) = true ->
         search_next_links html = e :: rest ->
         Dom.lookup_attr "href" (Dom.attrs e) = Some href ->
         href <> EmptyString ->
         URL_new_rel href (req_url req) = Some u ->
         Main.handleSearchPage html stateId stateName req
         = map (Crawler.profile_request stateId stateName) (Parser.parseListingPage html)
           ++ [ mkRequest (URL_href u)
                  (Some ("SEARCH-" +:+ show_num "undefined" stateId +:+ "-"
                         +:+ show_num "NaN" ((fun p => p + 1) <$> ud_page (req_userData req))))
                  (mkUserData "SEARCH" stateId stateName None
                              ((fun p => p + 1) <$> ud_page (req_userData req))) ])
  /\ (forall (P : Platform) (html : Dom.document) (stateId : option Z)
             (stateName : option string) (req : request),
         Parser.hasResults html = false
         \/ Parser.hasNext (Parser.parsePaginationInfo html) = false
         \/ search_next_links html = []
         \/ (exists e rest,
                search_next_links html = e :: rest
                /\ (Dom.lookup_attr "href" (Dom.attrs e) = None
                    \/ Dom.lookup_attr "href" (Dom.attrs e) = Some EmptyString
                    \/ exists href, Dom.lookup_attr "href" (Dom.attrs e) = Some href
                                    /\ URL_new_rel href (req_url req) = None)) ->
         Main.handleSearchPage html stateId stateName req
         = map (Crawler.profile_request stateId stateName) (Parser.parseListingPage html))
  /\ @Crawler.findNextPageUrl SimplePlatform.platform
       listing_with_next_link_to_1006 search_url 1 = None
  /\ @Main.handleSearchPage SimplePlatform.platform listing_with_next_link_to_1006
       (Some 4) (Some "Melaka") first_page_request
     = map (Crawler.profile_request (Some 4) (Some "Melaka"))
           (Parser.parseListingPage listing_with_next_link_to_1006)
       ++ [ mkRequest "https://nsr.org.my/list1pview.asp?state_ForSearch=4&page=1006"
              (Some "SEARCH-4-2")
              (mkUserData "SEARCH" (Some 4) (Some "Melaka") None (Some 2)) ].
Proof.
  split; [|split; [|split; [|split; vm_compute; reflexivity]]].
  - intros html stateId stateName req label.
    split; [apply handleListPage_profiles|].
    rewrite handleListPage_profiles.
    induction (Parser.parseListingPage html) as [|s l IH]; [reflexivity|].
    cbn [map]. rewrite filter_cons, decide_False; [exact IH|].
    vm_compute. discriminate.
  - intros P html stateId stateName req e rest href u Hr Hn El Eh Hne Eu.
    unfold Main.handleSearchPage, Main.next_page_request. cbv zeta.
    unfold search_next_links in El. rewrite Hr, Hn, El. cbn [negb length Dom.attr_of].
    change (0 <? S (length rest))%nat with true. cbv iota. rewrite Eh.
    destruct href as [|h href]; [now destruct Hne|]. rewrite Eu. reflexivity.
  - intros P html stateId stateName req Hc.
    unfold Main.handleSearchPage.
    destruct (Parser.hasResults html) eqn:Hr; cbn [negb];
      [|now rewrite (no_results_no_stubs html Hr)].
    rewrite <- (app_nil_r (map _ _)) at 2. f_equal.
    unfold Main.next_page_request. cbv zeta.
    destruct Hc as [Hc|[Hc|[Hc|(e & rest & El & Hc)]]]; [discriminate Hc| | |].
    + now rewrite Hc.
    + unfold search_next_links in Hc. rewrite Hc. now destruct (Parser.hasNext _).
    + unfold search_next_links in El. rewrite El. cbn [length Dom.attr_of].
      destruct (Parser.hasNext _); [|reflexivity].
      change (0 <? S (length rest))%nat with true. cbv iota.
      destruct Hc as [Hc|[Hc|(href & Hc & Eu)]]; rewrite Hc; try reflexivity.
      destruct href as [|h href]; [reflexivity|]. now rewrite Eu.
Qed.

Lemma listing_handlers_emit_witness :
  Parser.hasResults listing_with_next_link = true
  /\ Parser.hasNext (Parser.parsePaginationInfo listing_with_next_link) = true
  /\ @Main.handleSearchPage SimplePlatform.platform listing_with_next_link
       (Some 4) (Some "Melaka") first_page_request
     = map (Crawler.profile_request (Some 4) (Some "Melaka"))
           (Parser.parseListingPage listing_with_next_link)
       ++ [ mkRequest "https://nsr.org.my/list1pview.asp?state_ForSearch=4&page=2"
              (Some "SEARCH-4-2")
              (mkUserData "SEARCH" (Some 4) (Some "Melaka") None (Some 2)) ]
  /\ Parser.hasNext (Parser.parsePaginationInfo sample_listing) = false
  /\ @Main.handleSearchPage SimplePlatform.platform sample_listing (Some 4)
       (Some "Melaka") first_page_request
     = map (Crawler.profile_request (Some 4) (Some "Melaka"))
           (Parser.parseListingPage sample_listing).
Proof.
  assert (Hr : Parser.hasResults listing_with_next_link = true) by (vm_compute; reflexivity).
  assert (Hn : Parser.hasNext (Parser.parsePaginationInfo listing_with_next_link) = true)
    by (vm_compute; reflexivity).
  assert (Hh : "list1pview.asp?state_ForSearch=4&page=2" <> EmptyString) by discriminate.
  assert (Hn' : Parser.hasNext (Parser.parsePaginationInfo sample_listing) = false)
    by (vm_compute; reflexivity).
  split; [exact Hr|]. split; [exact Hn|]. split; [|split; [exact Hn'|]].
  - refine (proj1 (proj2 listing_handlers_emit) SimplePlatform.platform
                  listing_with_next_link (Some 4) (Some "Melaka") first_page_request
                  _ _ "list1pview.asp?state_ForSearch=4&page=2"
                  (@mkURL "https://nsr.org.my/list1pview.asp"
                          [("state_ForSearch", "4"); ("page", "2")] "")
                  Hr Hn _ _ Hh _); vm_compute; reflexivity.
  - exact (proj1 (proj2 (proj2 listing_handlers_emit)) SimplePlatform.platform
                 sample_listing (Some 4) (Some "Melaka") first_page_request
                 (or_intror (or_introl Hn'))).
Defined.

(** ** The request queue and the profile requests *)

Section Queue.
Context `{Platform}.

Lemma addRequest_ok (q : queue) (r : request) : queue_ok q -> queue_ok (addRequest q r).
Proof.
  intros [Hnd Hseen]. unfold addRequest.
  destruct (decide (request_key r ∈ seen q)) as [Hin|Hout]; [now split|].
  split; cbn [accepted seen].
  - rewrite map_app. apply NoDup_app. split; [exact Hnd|]. split.
    + intros k Hk Hk'. apply list_elem_of_singleton in Hk'. subst k.
      apply list_elem_of_fmap in Hk as (r' & Ek & Hr'). apply Hout.
      rewrite Ek. now apply Hseen.
    + apply NoDup_singleton.
  - intros r' Hr'. apply elem_of_app in Hr' as [Hr'|Hr'].
    + apply elem_of_union_r, Hseen, Hr'.
    + apply list_elem_of_singleton in Hr'. subst r'. apply elem_of_union_l.
      now apply elem_of_singleton.
Qed.

Lemma addRequests_ok (q : queue) (rs : list request) :
  queue_ok q -> queue_ok (addRequests q rs).
Proof.
  unfold addRequests. revert q. induction rs as [|r rs IH]; intros q Hq; [exact Hq|].
  cbn [foldl]. apply IH, addRequest_ok, Hq.
Qed.

(** A request whose key equals that of the request just offered is dropped. *)
Lemma addRequest_same_key (q : queue) (r1 r2 : request) :
  request_key r1 = request_key r2 ->
  addRequest (addRequest q r1) r2 = addRequest q r1.
Proof.
  intros E. unfold addRequest at 1. rewrite <- E.
  rewrite decide_True; [reflexivity|].
  unfold addRequest. destruct (decide (request_key r1 ∈ seen q)) as [Hin|Hout]; [exact Hin|].
  cbn [seen]. apply elem_of_union_l. now apply elem_of_singleton.
Qed.

Lemma listing_row_profileUrl (row : Dom.elem) (s : Parser.stub) :
  Parser.listing_row row = Some s ->
  Parser.stub_nsrNo s = row_id row
  /\ (forall href, name_href row = Some href -> href <> EmptyString ->
        Parser.stub_profileUrl s = "https://www.nsr.org.my/" +:+ href)
  /\ (name_href row = None \/ name_href row = Some EmptyString ->
        Parser.stub_profileUrl s = Utils.buildProfileUrl (row_id row)).
Proof.
  unfold Parser.listing_row, name_href, name_links, row_id, row_cells.
  destruct (Dom.hasClass "table-heading" row); [discriminate|].
  destruct (Dom.find (Parser.sel_tag "td") [row])
    as [|c0 [|c1 [|c2 [|c3 [|c4 [|c5 cells]]]]]]; try discriminate.
  destruct (negb _); [discriminate|]. cbv zeta. intros [= <-].
  cbn [Parser.stub_profileUrl Parser.stub_nsrNo]. split; [reflexivity|]. split.
  - intros href Eh Hne. rewrite Eh. destruct href; [now destruct Hne|reflexivity].
  - intros [E|E]; now rewrite E.
Qed.

End Queue.

(** A result page that lists one id under two links: both profile
    requests carry the id, their keys differ, and the queue accepts
    both. *)
Lemma repeated_id_enqueued_twice :
  map (fun r => ud_nsrNo (req_userData r))
      (Crawler.handleListPage listing_with_repeated_id (Some 4) (Some "Melaka")
                              first_page_request "SEARCH")
  = [Some "123456"; Some "123456"]
  /\ map (@request_key SimplePlatform.platform)
         (accepted (@addRequests SimplePlatform.platform empty_queue
                      (Crawler.handleListPage listing_with_repeated_id (Some 4)
                                              (Some "Melaka") first_page_request "SEARCH")))
     = [ "https://www.nsr.org.my/list1viewdetails.asp?Acc=123456";
         "https://www.nsr.org.my/list1viewdetails.asp?Acc=123456&tab=2" ].
Proof. split; vm_compute; reflexivity. Qed.

(** C5, amended.  A profile request names no key of its own: it
    carries the profile URL of the stub as its URL and the id of the
    stub as data.  The request queue, which is the one of the Crawlee
    library and no code of the sources, therefore files it under the
    key it derives from that URL; of two profile requests for the
    same profile URL the second is dropped, and no two accepted
    requests share a key.  The id of a stub is the cleaned text of
    the first cell of its row.  Its profile URL is the site prefix
    followed by the [href] of the first link in the name cell of the
    row when that link has a non-empty [href], and only when the name
    cell has no link, or its first link no [href] or an empty one, is
    it built from the id alone.  Handling a profile request appends
    one record to the dataset. *)
Theorem profile_requests_deduplicated_by_url :
  forall (P : Platform),
    (forall (stateId : option Z) (stateName : option string) (s : Parser.stub),
        req_uniqueKey (Crawler.profile_request stateId stateName s) = None
        /\ req_url (Crawler.profile_request stateId stateName s) = Parser.stub_profileUrl s
        /\ ud_nsrNo (req_userData (Crawler.profile_request stateId stateName s))
           = Some (Parser.stub_nsrNo s)
        /\ request_key (Crawler.profile_request stateId stateName s)
           = defaultUniqueKey (Parser.stub_profileUrl s))
    /\ (forall (q : queue) (stateId : option Z) (stateName : option string)
               (s1 s2 : Parser.stub),
           Parser.stub_profileUrl s1 = Parser.stub_profileUrl s2 ->
           addRequest (addRequest q (Crawler.profile_request stateId stateName s1))
                      (Crawler.profile_request stateId stateName s2)
           = addRequest q (Crawler.profile_request stateId stateName s1))
    /\ (forall (q : queue) (rs : list request),
           queue_ok q -> queue_ok (addRequests q rs))
    /\ (forall (row : Dom.elem) (s : Parser.stub),
           Parser.listing_row row = Some s ->
           Parser.stub_nsrNo s = row_id row
           /\ (forall href, name_href row = Some href -> href <> EmptyString ->
                 Parser.stub_profileUrl s = "https://www.nsr.org.my/" +:+ href)
           /\ (name_href row = None \/ name_href row = Some EmptyString ->
                 Parser.stub_profileUrl s = Utils.buildProfileUrl (row_id row)))
    /\ (forall (html : Dom.document) (nsrNo : string) (dataset : list Parser.specialist),
           exists s, Crawler.handleProfilePage html nsrNo dataset = Some (dataset ++ [s])).
Proof.
  intros P. split; [intros stateId stateName s; now repeat split|]. split.
  { intros q stateId stateName s1 s2 E. apply addRequest_same_key.
    unfold request_key. cbn [Crawler.profile_request req_uniqueKey req_url]. now rewrite E. }
  split; [apply addRequests_ok|]. split; [apply listing_row_profileUrl|].
  intros html nsrNo dataset. unfold Crawler.handleProfilePage.
  destruct (parseProfilePage_keeps_url html nsrNo) as (s & -> & _).
  exists s. reflexivity.
Qed.

Lemma profile_requests_deduplicated_by_url_witness :
  @queue_ok SimplePlatform.platform empty_queue
  /\ @queue_ok SimplePlatform.platform
       (@addRequests SimplePlatform.platform empty_queue
          (Crawler.handleListPage sample_listing (Some 4) (Some "Melaka")
                                  first_page_request "SEARCH"
           ++ Crawler.handleListPage sample_listing_with_short_row (Some 4) (Some "Melaka")
                                     first_page_request "SEARCH"))
  /\ length (accepted
               (@addRequests SimplePlatform.platform empty_queue
                  (Crawler.handleListPage sample_listing (Some 4) (Some "Melaka")
                                          first_page_request "SEARCH"
                   ++ Crawler.handleListPage sample_listing_with_short_row (Some 4)
                                             (Some "Melaka") first_page_request "SEARCH")))
     = 3%nat
  /\ exists row s,
       Dom.select Parser.sel_listing_rows sample_listing !! 1%nat = Some row
       /\ Parser.listing_row row = Some s
       /\ name_href row = Some "list1viewdetails.asp?Acc=123456"
       /\ Parser.stub_profileUrl s
          = "https://www.nsr.org.my/" +:+ "list1viewdetails.asp?Acc=123456".
Proof.
  assert (H0 : @queue_ok SimplePlatform.platform empty_queue).
  { split; [apply NoDup_nil_2|]. intros r Hr. now apply elem_of_nil in Hr. }
  assert (Hrow : exists row s,
             Dom.select Parser.sel_listing_rows sample_listing !! 1%nat = Some row
             /\ Parser.listing_row row = Some s
             /\ name_href row = Some "list1viewdetails.asp?Acc=123456")
    by (eexists _, _; repeat split; vm_compute; reflexivity).
  assert (Hne : "list1viewdetails.asp?Acc=123456" <> EmptyString) by discriminate.
  split; [exact H0|]. split; [|split; [vm_compute; reflexivity|]].
  - exact (proj1 (proj2 (proj2 (profile_requests_deduplicated_by_url
                                  SimplePlatform.platform)))
                 empty_queue _ H0).
  - destruct Hrow as (row & s & Hr & Hs & Hh). exists row, s.
    split; [exact Hr|]. split; [exact Hs|]. split; [exact Hh|].
    exact (proj1 (proj2 (proj1 (proj2 (proj2 (proj2
             (profile_requests_deduplicated_by_url SimplePlatform.platform))))
             row s Hs)) _ Hh Hne).
Defined.

(** ** The form field extractor *)

(** An [input] whose [type] attribute is neither [hidden], [input],
    [select], [checkbox] nor [radio] leaves the form data as they are:
    so does a field of type [text]. *)
Lemma form_field_text_ignored (formData : gmap string string) (el : Dom.elem) :
  Dom.lookup_attr "type" (Dom.attrs el) = Some "text" ->
  Main.form_field formData el = formData.
Proof.
  intros E. unfold Main.form_field. rewrite E.
  destruct (Dom.lookup_attr "name" (Dom.attrs el)) as [[|n0 n]|]; reflexivity.
Qed.

(** C7.  On the search form the extractor returns the hidden field,
    the selected option and the checked box, and leaves out the text
    field [q] that the form carries with the value "cardio"; on the
    form that holds this text field alone it returns the empty
    mapping. *)
Theorem extractFormFields_drops_text_input :
  Main.extractFormFields sample_form
  = <["token" := "abc"]> (<["state_ForSearch" := "4"]> (<["active" := "on"]> ∅))
  /\ Main.extractFormFields sample_form !! "q" = None
  /\ Main.extractFormFields text_field_form = ∅.
Proof. repeat split; vm_compute; reflexivity. Qed.

(** ** Search URLs and the keys of listing requests *)

Example buildSearchGetUrl_melaka :
  @Crawler.buildSearchGetUrl SimplePlatform.platform 4 1 = Some search_url
  /\ @Crawler.buildSearchGetUrl SimplePlatform.platform 4 2
     = Some "https://nsr.org.my/list1pview.asp?state_ForSearch=4&page=2".
Proof. split; vm_compute; reflexivity. Qed.

(** The requests of a walk carry different keys: the key of a listing
    request determines its page counter. *)
Lemma search_key_inj (stateId : option Z) (p q : Z) :
  search_key stateId (Some p) = search_key stateId (Some q) -> p = q.
Proof.
  unfold search_key. intros E.
  do 3 apply String.app_inj in E. now apply pretty_Z_inj in E.
Qed.

(** * Further properties *)

(** ** The city of an address *)

Lemma strip_long_digit_runs_sublist (run s : string) :
  sublist (list_ascii_of_string (Utils.strip_long_digit_runs run s))
          (rev (list_ascii_of_string run) ++ list_ascii_of_string s).
Proof.
  assert (Hflush : forall run,
             sublist (list_ascii_of_string
                        (if (5 <=? String.length run)%nat then EmptyString
                         else JS.rev_str EmptyString run))
                     (rev (list_ascii_of_string run))).
  { intros r. destruct (5 <=? String.length r)%nat; [apply sublist_nil_l|].
    rewrite rev_str_list. cbn [list_ascii_of_string]. now rewrite app_nil_r. }
  revert run. induction s as [|c s IH]; intros run; cbn [Utils.strip_long_digit_runs].
  - cbn [list_ascii_of_string]. rewrite app_nil_r. apply Hflush.
  - destruct (JS.is_digit c).
    + specialize (IH (String c run)). cbn [list_ascii_of_string rev] in IH.
      now rewrite <- app_assoc in IH.
    + rewrite append_list. cbn [list_ascii_of_string].
      apply sublist_app; [apply Hflush|]. apply sublist_skip. exact (IH EmptyString).
Qed.

Lemma split_runs_sublist (sep : ascii -> bool) (cur : string) (b : bool) (s : string) :
  Forall (fun piece => sublist (list_ascii_of_string piece)
                               (rev (list_ascii_of_string cur) ++ list_ascii_of_string s))
         (JS.split_runs sep cur b s).
Proof.
  revert cur b. induction s as [|c s IH]; intros cur b; cbn [JS.split_runs].
  - constructor; [|constructor]. rewrite rev_str_list. reflexivity.
  - cbn [list_ascii_of_string]. destruct (sep c).
    + destruct b.
      * eapply Forall_impl; [apply IH|]. intros p Hp. cbn beta in *.
        etransitivity; [exact Hp|]. apply sublist_app; [reflexivity|]. now apply sublist_cons.
      * constructor.
        -- rewrite rev_str_list. cbn [list_ascii_of_string]. rewrite app_nil_r.
           now apply sublist_inserts_r.
        -- eapply Forall_impl; [apply (IH EmptyString true)|]. intros p Hp. cbn beta in *.
           cbn [list_ascii_of_string rev app] in Hp.
           apply sublist_inserts_l. now apply sublist_cons.
    + specialize (IH (String c cur) false). cbn [list_ascii_of_string rev] in IH.
      now rewrite <- app_assoc in IH.
Qed.

Lemma trimStart_sublist (s : string) :
  sublist (list_ascii_of_string (JS.trimStart s)) (list_ascii_of_string s).
Proof.
  induction s as [|c s IH]; [reflexivity|]. cbn [JS.trimStart].
  destruct (JS.is_space c); [|reflexivity].
  cbn [list_ascii_of_string]. now apply sublist_cons.
Qed.

Lemma trim_end_sublist (s : string) :
  sublist (list_ascii_of_string (trim_end s)) (list_ascii_of_string s).
Proof.
  induction s as [|c s IH]; [reflexivity|]. cbn [trim_end list_ascii_of_string].
  destruct (trim_end s) as [|d r].
  - destruct (JS.is_space c); [apply sublist_nil_l|].
    cbn [list_ascii_of_string]. apply sublist_skip, sublist_nil_l.
  - now apply sublist_skip.
Qed.

Lemma trim_sublist (s : string) :
  sublist (list_ascii_of_string (JS.trim s)) (list_ascii_of_string s).
Proof.
  rewrite trim_trim_end. etransitivity; [apply trim_end_sublist|apply trimStart_sublist].
Qed.



(** X6 - An address without comma and line break has no city. *)
Theorem extractCityFromAddress_one_part (address : string) :
  all_chars not_comma_nl address = true ->
  Utils.extractCityFromAddress (Some address) = None.
Proof.
  intros H. destruct address as [|c s]; [reflexivity|].
  unfold Utils.extractCityFromAddress. set (parts := filter _ _).
  assert (Hlen : (length parts <= 1)%nat).
  { unfold parts. etransitivity; [apply length_filter|].
    unfold JS.split_on. rewrite length_map, split_runs_one; [reflexivity|].
    now apply (strip_long_digit_runs_chars not_comma_nl). }
  destruct (Nat.leb_spec 2 (length parts)); [lia|reflexivity].
Qed.

Lemma extractCityFromAddress_one_part_witness :
  Utils.extractCityFromAddress (Some "Hospital Melaka 75400 Melaka") = None.
Proof.
  apply extractCityFromAddress_one_part. vm_compute. reflexivity.
Defined.

(** ** Qualifications given as one text *)

Lemma span_spec (p : ascii -> bool) (s a b : string) :
  JS.span p s = (a, b) -> s = a +:+ b /\ all_chars p a = true.
Proof.
  revert a b. induction s as [|c s IH]; intros a b; cbn [JS.span].
  - intros [= <- <-]. now split.
  - destruct (p c) eqn:Ec.
    + destruct (JS.span p s) as [a' b']. intros [= <- <-].
      destruct (IH _ _ eq_refl) as [-> Ha]. split; [reflexivity|].
      cbn [all_chars]. now rewrite Ec.
    + intros [= <- <-]. now split.
Qed.

Lemma match_qualification_groups (line g1 g2 : string) :
  Constants.match_qualification line = Some (g1, g2) ->
  line = g1 +:+ "(" +:+ g2 +:+ ")"
  /\ all_chars Constants.in_degree_class g1 = true
  /\ all_chars Constants.not_closing g2 = true
  /\ exists c g, g1 = String c g /\ JS.is_upper c = true.
Proof.
  unfold Constants.match_qualification. destruct line as [|c0 rest]; [discriminate|].
  destruct (JS.is_upper c0) eqn:Ec; [|discriminate].
  destruct (JS.span Constants.in_degree_class rest) as [g after] eqn:Eg.
  destruct (JS.nonempty g); [|discriminate].
  apply span_spec in Eg as [-> Hg].
  destruct after as [|o inner]; [discriminate|].
  destruct (Ascii.eqb_spec o "(") as [->|Ho].
  2:{ destruct o as [[] [] [] [] [] [] [] []]; try discriminate. now contradict Ho. }
  destruct (JS.span Constants.not_closing inner) as [body close] eqn:Eb.
  destruct (JS.nonempty body); [|discriminate].
  apply span_spec in Eb as [-> Hb].
  destruct close as [|cl [|? ?]]; try discriminate.
  - destruct (Ascii.eqb_spec cl ")") as [->|Hc].
    2:{ destruct cl as [[] [] [] [] [] [] [] []]; try discriminate. now contradict Hc. }
    intros [= <- <-]. split.
    { reflexivity. }
    split.
    { cbn [all_chars]. unfold Constants.in_degree_class at 1. now rewrite Ec, Hg. }
    split; [exact Hb|]. now exists c0, g.
  - destruct cl as [[] [] [] [] [] [] [] []]; discriminate.
Qed.



(** ** The next page: further properties *)

(** X8 - [findNextPageUrl] never returns the URL of the page it is
    given, what it returns parses as a URL, and it returns nothing
    when the URL of the current page does not parse. *)
Theorem findNextPageUrl_fresh :
  forall (P : Platform) (html : Dom.document) (currentUrl : string)
         (currentPage : Z) (u : string),
    Crawler.findNextPageUrl html currentUrl currentPage = Some u ->
    u <> currentUrl /\ is_Some (URL_new u) /\ is_Some (URL_new currentUrl).
Proof.
  intros P html currentUrl currentPage u Hu.
  destruct (findNextPageUrl_accepted _ _ _ _ Hu) as [Hv _].
  split; [eapply valid_differs, Hv|].
  unfold Crawler.isValidNextPageUrl in Hv.
  destruct (URL_new u) as [urlObj|]; [|discriminate]. split; [eexists; reflexivity|].
  destruct (_ && _); [discriminate|].
  destruct (String.eqb u currentUrl); [discriminate|].
  destruct (URL_new currentUrl); [eexists; reflexivity|discriminate].
Qed.

Lemma findNextPageUrl_fresh_witness :
  @Crawler.findNextPageUrl SimplePlatform.platform page_with_next_link search_url 1
  = Some "https://nsr.org.my/list1pview.asp?state_ForSearch=4&page=2"
  /\ "https://nsr.org.my/list1pview.asp?state_ForSearch=4&page=2" <> search_url.
Proof.
  assert (Hu : @Crawler.findNextPageUrl SimplePlatform.platform
                 page_with_next_link search_url 1
               = Some "https://nsr.org.my/list1pview.asp?state_ForSearch=4&page=2")
    by (vm_compute; reflexivity).
  split; [exact Hu|].
  exact (proj1 (findNextPageUrl_fresh SimplePlatform.platform _ _ _ _ Hu)).
Defined.

Lemma insert_link_elem_2 (x y : Crawler.pageLink) (l : list Crawler.pageLink) :
  y = x \/ y ∈ l -> y ∈ Crawler.insert_link x l.
Proof.
  induction l as [|z l IH]; cbn [Crawler.insert_link].
  - intros [->|Hy]; [apply elem_of_cons; now left|now apply elem_of_nil in Hy].
  - destruct (Crawler.pl_page x <=? Crawler.pl_page z).
    + intros [->|Hy]; apply elem_of_cons; [now left|now right].
    + intros [->|Hy]; apply elem_of_cons.
      * right. apply IH. now left.
      * apply elem_of_cons in Hy as [->|Hy]; [now left|right; apply IH; now right].
Qed.

Lemma sort_links_elem_2 (y : Crawler.pageLink) (l : list Crawler.pageLink) :
  y ∈ l -> y ∈ Crawler.sort_links l.
Proof.
  unfold Crawler.sort_links. induction l as [|x l IH]; cbn [foldr]; [easy|].
  intros Hy. apply insert_link_elem_2.
  apply elem_of_cons in Hy as [->|Hy]; [now left|right; now apply IH].
Qed.

Lemma insert_link_head_least (x : Crawler.pageLink) (l : list Crawler.pageLink) :
  head_least l -> head_least (Crawler.insert_link x l).
Proof.
  destruct l as [|z l]; cbn [Crawler.insert_link head_least].
  - intros _ y Hy. apply list_elem_of_singleton in Hy. subst y. lia.
  - intros Hz. destruct (Z.leb_spec (Crawler.pl_page x) (Crawler.pl_page z)) as [Hle|Hlt].
    + intros y Hy. apply elem_of_cons in Hy as [->|Hy]; [lia|].
      specialize (Hz y Hy). lia.
    + intros y Hy. apply elem_of_cons in Hy as [->|Hy]; [lia|].
      apply insert_link_elem in Hy as [->|Hy]; [lia|].
      apply Hz, elem_of_cons. now right.
Qed.

Lemma sort_links_head_least (l : list Crawler.pageLink) :
  head_least (Crawler.sort_links l).
Proof.
  unfold Crawler.sort_links. induction l as [|x l IH]; cbn [foldr]; [exact I|].
  now apply insert_link_head_least.
Qed.

(** X9 - When no link passes the first strategy and some numbered
    link passes the guard, [findNextPageUrl] returns the URL of a
    numbered link that leads to the smallest page among them,
    whatever the order of the links in the page. *)
Theorem findNextPageUrl_numbered_least :
  forall (P : Platform) (html : Dom.document) (currentUrl : string)
         (currentPage : Z) (l : Crawler.pageLink),
    Crawler.first_next_link html currentUrl currentPage Crawler.nextSelectors = None ->
    l ∈ numbered_candidates html currentUrl currentPage ->
    exists l0, l0 ∈ numbered_candidates html currentUrl currentPage
               /\ Crawler.findNextPageUrl html currentUrl currentPage
                  = Some (Crawler.pl_url l0)
               /\ Crawler.pl_page l0 <= Crawler.pl_page l.
Proof.
  intros P html currentUrl currentPage l H1 Hl.
  unfold Crawler.findNextPageUrl. rewrite H1. cbv zeta.
  fold (numbered_candidates html currentUrl currentPage).
  pose proof (sort_links_head_least (numbered_candidates html currentUrl currentPage)) as Hh.
  pose proof (sort_links_elem_2 _ _ Hl) as Hs.
  destruct (Crawler.sort_links _) as [|l0 ls] eqn:E; [now apply elem_of_nil in Hs|].
  exists l0. split; [|split; [reflexivity|now apply Hh]].
  apply sort_links_elem. rewrite E. apply elem_of_cons. now left.
Qed.

Lemma findNextPageUrl_numbered_least_witness :
  exists l0,
    l0 ∈ @numbered_candidates SimplePlatform.platform page_with_links_3_2 search_url 1
    /\ @Crawler.findNextPageUrl SimplePlatform.platform page_with_links_3_2 search_url 1
       = Some (Crawler.pl_url l0)
    /\ Crawler.pl_page l0 <= 3.
Proof.
  assert (H1 : @Crawler.first_next_link SimplePlatform.platform page_with_links_3_2
                 search_url 1 Crawler.nextSelectors = None) by (vm_compute; reflexivity).
  assert (Hl : Crawler.mkPageLink 3 "https://nsr.org.my/list1pview.asp?state_ForSearch=4&page=3"
               ∈ @numbered_candidates SimplePlatform.platform page_with_links_3_2 search_url 1).
  { vm_compute. apply list_elem_of_here. }
  exact (findNextPageUrl_numbered_least SimplePlatform.platform _ _ _ _ H1 Hl).
Defined.

(** ** The record of the profile parser *)

Lemma before_char_lacks (c : ascii) (s : string) :
  all_chars (fun d => negb (Ascii.eqb c d)) (JS.before_char c s) = true.
Proof.
  induction s as [|d s IH]; [reflexivity|]. cbn [JS.before_char].
  destruct (Ascii.eqb c d) eqn:E; [reflexivity|]. cbn [all_chars]. now rewrite E.
Qed.

Lemma foldM_invariant {A B : Type} (I : A -> Prop) (step : A -> B -> option A)
      (l : list B) (a : A) :
  (forall a x, I a -> exists a', step a x = Some a' /\ I a') ->
  I a -> exists a', Parser.foldM step l a = Some a' /\ I a'.
Proof.
  intros Hstep. unfold Parser.foldM. revert a.
  induction l as [|x l IH]; intros a Ha; cbn [foldl].
  - now exists a.
  - destruct (Hstep a x Ha) as (a' & E & Ha'). cbn [mbind option_bind].
    rewrite E. apply IH, Ha'.
Qed.

Section ProfileRecord.
Context `{Platform}.
Variable nsrNo0 : string.

Ltac fields :=
  unfold profile_ok, texts_ok, region_ok, clean_field in *;
  cbn [Parser.jobTitle Parser.nsrNo Parser.name Parser.title Parser.gender Parser.specialty
       Parser.address Parser.establishment Parser.sector Parser.lastRenewalDate
       Parser.state Parser.stateId Parser.state_category Parser.city
       Parser.qualifications Parser.qualificationsStructured Parser.profileUrl
       Parser.set_nsrNo Parser.set_name Parser.set_title Parser.set_gender
       Parser.set_specialty Parser.push_qualification Parser.set_state Parser.set_city
       Parser.set_address Parser.set_establishment Parser.set_sector
       Parser.set_lastRenewalDate Parser.initial_specialist] in *.

Ltac record_cases s Hs :=
  destruct Hs as ((?H & ?H & ?H & ?H & ?H & ?H & ?H & ?H & ?H & ?H) & ?H & ?H);
  destruct s; fields.

Lemma initial_specialist_ok : profile_ok nsrNo0 (Parser.initial_specialist nsrNo0).
Proof. fields. repeat split; try discriminate; auto. Qed.

Lemma assign_address_ok (value : string) (s : Parser.specialist) :
  clean value = true -> profile_ok nsrNo0 s ->
  exists s', Parser.assign_address value s = Some s' /\ profile_ok nsrNo0 s'.
Proof.
  intros Hv Hs. unfold Parser.assign_address.
  destruct (extractState_total (Some value)) as [i Ei]. rewrite Ei.
  cbn [mbind option_bind]. eexists. split; [reflexivity|].
  record_cases s Hs. split; [|split; [|assumption]].
  - repeat split; try assumption. intros t [= <-]. exact Hv.
  - exists i. now repeat split.
Qed.

Lemma labelled_value_ok (f : Parser.section) (label value : string)
      (s : Parser.specialist) :
  clean value = true -> profile_ok nsrNo0 s ->
  exists s', Parser.labelled_value nsrNo0 f label value s = Some s'
             /\ profile_ok nsrNo0 s'.
Proof.
  intros Hv Hs. unfold Parser.labelled_value.
  assert (Hg : clean (JS.or_else (Utils.extractGender (Some value)) value) = true).
  { destruct (Utils.extractGender (Some value)) as [g|] eqn:Eg; [|exact Hv].
    apply extractGender_values in Eg as [->| ->]; reflexivity. }
  assert (Hd : forall d, Utils.parseDate (Some value) = Some d ->
                         all_chars no_time_mark d = true).
  { unfold Utils.parseDate. destruct value as [|c v]; [discriminate|].
    destruct (Date_toISOString _) as [iso|]; [|discriminate].
    intros d [= <-]. apply before_char_lacks. }
  assert (Hn : JS.or_else (Some value) nsrNo0 = nsrNo0
               \/ JS.or_else (Some value) nsrNo0 <> EmptyString
                  /\ clean (JS.or_else (Some value) nsrNo0) = true).
  { destruct value as [|c v]; [now left|right]. split; [discriminate|exact Hv]. }
  repeat match goal with
         | |- exists _, (if ?b then _ else _) = _ /\ _ => destruct b
         end;
    try (now apply assign_address_ok);
    (eexists; split; [reflexivity|]);
    try exact Hs;
    record_cases s Hs;
    (split; [|split; assumption]);
    repeat split; try assumption; try (intros t [= <-]; assumption).
Qed.

Lemma qualification_row_ok (c0 c1 c2 : Dom.elem) (s : Parser.specialist) :
  profile_ok nsrNo0 s -> profile_ok nsrNo0 (Parser.qualification_row c0 c1 c2 s).
Proof.
  intros Hs. unfold Parser.qualification_row. cbv zeta.
  pose proof (cleanText_clean (Some (Dom.elem_text c0))) as H0.
  pose proof (cleanText_clean (Some (Dom.elem_text c1))) as H1.
  pose proof (cleanText_clean (Some (Dom.elem_text c2))) as H2.
  fold (Parser.cell_text c0) in H0. fold (Parser.cell_text c1) in H1.
  fold (Parser.cell_text c2) in H2.
  destruct (JS.nonempty (Parser.cell_text c0)) eqn:E0; [|exact Hs].
  cbn [andb].
  destruct (negb _ && negb _ && negb _); [|exact Hs]. cbn [andb].
  destruct (JS.nonempty (Parser.cell_text c1)) eqn:E1; [|exact Hs]. cbn [andb].
  destruct (negb _); [|exact Hs].
  record_cases s Hs. split; [|split; [assumption|]].
  { repeat split; assumption. }
  apply Forall2_app; [assumption|]. constructor; [|constructor].
  unfold qualification_ok. cbn [Parser.degree Parser.awardingBody Parser.year].
  split; [now destruct (Parser.cell_text c0)|].
  split; [now destruct (Parser.cell_text c1)|].
  split; [exact H0|]. split; [exact H1|].
  exists (Parser.cell_text c2). split; [exact H2|]. split; [reflexivity|].
  destruct (Parser.cell_text c2) as [|y year]; [reflexivity|]. cbn [JS.nonempty].
  destruct (JS.parseInt (String y year)); split; try discriminate; reflexivity.
Qed.

Lemma cell_text_clean (c : Dom.elem) : clean (Parser.cell_text c) = true.
Proof. apply cleanText_clean. Qed.

Lemma profile_row_ok (f : Parser.section) (s : Parser.specialist) (row : Dom.elem) :
  profile_ok nsrNo0 s ->
  exists s', Parser.profile_row nsrNo0 f s row = Some s' /\ profile_ok nsrNo0 s'.
Proof.
  intros Hs. unfold Parser.profile_row. cbv zeta.
  assert (Hsame : exists s', Some s = Some s' /\ profile_ok nsrNo0 s') by now exists s.
  destruct (Dom.find (Parser.sel_tag "td") [row]) as [|c0 [|c1 [|c2 [|c3 cells]]]];
    repeat match goal with
           | |- exists _, (if ?b then _ else _) = _ /\ _ => destruct b
           | |- exists _, match ?o with Some _ => _ | None => _ end = _ /\ _ => destruct o
           end;
    try exact Hsame;
    try (apply labelled_value_ok; [apply cell_text_clean|exact Hs]).
  eexists. split; [reflexivity|]. now apply qualification_row_ok.
Qed.

Lemma profile_table_ok (st : Parser.section * Parser.specialist) (table : Dom.elem) :
  profile_ok nsrNo0 (snd st) ->
  exists st', Parser.profile_table nsrNo0 st table = Some st'
              /\ profile_ok nsrNo0 (snd st').
Proof.
  intros Hs. unfold Parser.profile_table. cbv zeta.
  destruct (foldM_invariant (profile_ok nsrNo0)
              (Parser.profile_row nsrNo0 (Parser.enter_section (Dom.elem_text table) (fst st)))
              (Dom.find (Parser.sel_tag "tr") [table]) (snd st))
    as (s & E & Hs'); [|exact Hs|].
  - intros a x Ha. now apply profile_row_ok.
  - rewrite E. eexists. split; [reflexivity|exact Hs'].
Qed.

Lemma fill_from_elements_ok (html : Dom.document) (s : Parser.specialist) :
  profile_ok nsrNo0 s -> profile_ok nsrNo0 (Parser.fill_from_elements html s).
Proof.
  intros Hs. unfold Parser.fill_from_elements. cbv zeta.
  set (n := Utils.cleanText (Some (Dom.text (Dom.select Parser.sel_name_element html)))).
  set (sp := Utils.cleanText (Some (Dom.text (Dom.select Parser.sel_specialty_element html)))).
  assert (Hn : clean n = true) by apply cleanText_clean.
  assert (Hsp : clean sp = true) by apply cleanText_clean.
  assert (H1 : profile_ok nsrNo0
                 (if (0 <? length (Dom.select Parser.sel_name_element html))%nat
                     && negb (JS.truthy (Parser.name s))
                  then Parser.set_name (Some n) s else s)).
  { destruct (_ && _); [|exact Hs]. record_cases s Hs.
    split; [|split; assumption].
    repeat split; try assumption. intros t [= <-]. exact Hn. }
  revert H1. generalize (if (0 <? length (Dom.select Parser.sel_name_element html))%nat
                            && negb (JS.truthy (Parser.name s))
                         then Parser.set_name (Some n) s else s).
  intros s1 H1. destruct (_ && _); [|exact H1]. record_cases s1 H1.
  split; [|split; assumption].
  repeat split; try assumption. intros t [= <-]. exact Hsp.
Qed.

Lemma definition_list_ok (s : Parser.specialist) (dl : Dom.elem) :
  profile_ok nsrNo0 s ->
  exists s', Parser.definition_list s dl = Some s' /\ profile_ok nsrNo0 s'.
Proof.
  intros Hs. unfold Parser.definition_list. cbv zeta.
  apply foldM_invariant; [|exact Hs].
  intros a p Ha. unfold Parser.definition_pair. cbv zeta.
  pose proof (cell_text_clean (snd p)) as Hv.
  repeat match goal with
         | |- exists _, (if ?b then _ else _) = _ /\ _ => destruct b
         end;
    try (now apply assign_address_ok);
    (eexists; split; [reflexivity|]);
    try exact Ha;
    record_cases a Ha;
    (split; [|split; assumption]);
    repeat split; try assumption; try (intros t [= <-]; assumption).
Qed.

Lemma fill_state_ok (s : Parser.specialist) :
  profile_ok nsrNo0 s ->
  exists s', Parser.fill_state s = Some s' /\ profile_ok nsrNo0 s'.
Proof.
  intros Hs. unfold Parser.fill_state.
  destruct (negb (JS.truthy (Parser.state s)) && JS.truthy (Parser.address s)) eqn:E;
    [|now exists s].
  destruct (extractState_total (Parser.address s)) as [i Ei]. rewrite Ei.
  cbn [mbind option_bind]. eexists. split; [reflexivity|].
  record_cases s Hs. split; [|split; [|assumption]].
  { repeat split; assumption. }
  destruct address as [a|].
  - match goal with Hr : exists _, _ |- _ => destruct Hr as (i' & Ei' & _ & _ & _ & Hc) end.
    exists i. now repeat split.
  - rewrite andb_false_r in E. discriminate E.
Qed.

Lemma parseProfilePage_ok (html : Dom.document) :
  exists s, Parser.parseProfilePage html nsrNo0 = Some s /\ profile_ok nsrNo0 s.
Proof.
  unfold Parser.parseProfilePage.
  destruct (foldM_invariant (fun st => profile_ok nsrNo0 (snd st))
              (Parser.profile_table nsrNo0) (Dom.select Parser.sel_bordered_tables html)
              (Parser.mkSection false false false, Parser.initial_specialist nsrNo0))
    as (st & -> & Hst).
  { intros a x Ha. now apply profile_table_ok. }
  { apply initial_specialist_ok. }
  cbn [mbind option_bind].
  destruct (foldM_invariant (profile_ok nsrNo0)
              Parser.definition_list (Dom.select (Parser.sel_tag "dl") html)
              (Parser.fill_from_elements html (snd st)))
    as (s & -> & Hs).
  { intros a x Ha. now apply definition_list_ok. }
  { now apply fill_from_elements_ok. }
  cbn [mbind option_bind]. now apply fill_state_ok.
Qed.

End ProfileRecord.

Lemma lookup_state_elem (id : Z) (l : list (Z * Constants.state_info))
      (info : Constants.state_info) :
  Utils.lookup_state id l = Some info -> (id, info) ∈ l.
Proof.
  induction l as [|[id' info'] l IH]; cbn [Utils.lookup_state]; [discriminate|].
  destruct (Z.eqb_spec id' id) as [->|_].
  - intros [= ->]. apply elem_of_cons. now left.
  - intros E. apply elem_of_cons. right. now apply IH.
Qed.

Lemma extractState_name (address : option string) (i : Utils.stateInfo) :
  Utils.extractStateFromAddress address = Some i -> Utils.stateName i <> EmptyString.
Proof.
  assert (Hm : Some Utils.missing_state = Some i -> Utils.stateName i <> EmptyString)
    by (intros [= <-]; discriminate).
  destruct address as [[|c s]|]; cbn [Utils.extractStateFromAddress]; try exact Hm.
  destruct (Constants.match_state (String c s)) as [m|]; [|exact Hm]. cbv zeta.
  destruct (Utils.getStateIdByName _) as [[id|k]|]; [|discriminate|exact Hm].
  destruct (Utils.getStateById id) as [info|] eqn:E; [|discriminate].
  cbn [mbind option_bind]. intros [= <-]. cbn [Utils.stateName].
  apply lookup_state_elem in E. unfold Constants.MALAYSIAN_STATES in E.
  repeat (apply elem_of_cons in E as [[= -> ->]|E]; [discriminate|]).
  now apply elem_of_nil in E.
Qed.

(** X10 - In every record of the profile parser the state, its id and
    category and the city are the ones derived from the address of
    the record, and a record without address has none of them; a
    record with an address always names a state, be it "Missing". *)
Theorem parseProfilePage_region :
  forall (P : Platform) (html : Dom.document) (nsrNo : string),
  exists s, Parser.parseProfilePage html nsrNo = Some s
            /\ region_ok s
            /\ (forall a, Parser.address s = Some a -> JS.truthy (Parser.state s) = true).
Proof.
  intros P html nsrNo.
  destruct (parseProfilePage_ok nsrNo html) as (s & E & _ & Hr & _).
  exists s. split; [exact E|]. split; [exact Hr|].
  intros a Ha. unfold region_ok in Hr. rewrite Ha in Hr.
  destruct Hr as (i & Ei & -> & _). apply extractState_name in Ei.
  now destruct (Utils.stateName i).
Qed.

(** X11 - In every record of the profile parser the list of
    qualifications and the list of structured qualifications have the
    same length and agree entry by entry: the text is written from the
    degree, the awarding body and the year text of the structured
    entry, whose degree and awarding body are clean and not empty. *)
Theorem parseProfilePage_qualifications :
  forall (P : Platform) (html : Dom.document) (nsrNo : string),
  exists s, Parser.parseProfilePage html nsrNo = Some s
            /\ Forall2 qualification_ok (Parser.qualifications s)
                       (Parser.qualificationsStructured s)
            /\ length (Parser.qualifications s)
               = length (Parser.qualificationsStructured s).
Proof.
  intros P html nsrNo.
  destruct (parseProfilePage_ok nsrNo html) as (s & E & _ & _ & Hq).
  exists s. split; [exact E|]. split; [exact Hq|]. eapply Forall2_length, Hq.
Qed.

(** X12 - In every record of the profile parser [jobTitle] is [null];
    the id is the one the parser was called with or a non-empty text
    of the page; name, title, gender, specialty, address,
    establishment and sector, where present, are clean texts; and the
    renewal date, where present, holds no time part. *)
Theorem parseProfilePage_texts :
  forall (P : Platform) (html : Dom.document) (nsrNo : string),
  exists s, Parser.parseProfilePage html nsrNo = Some s /\ texts_ok nsrNo s.
Proof.
  intros P html nsrNo.
  destruct (parseProfilePage_ok nsrNo html) as (s & E & Ht & _).
  now exists s.
Qed.

(** ** Result pages *)

(** X13 - [hasResults] holds exactly when the listing table has a row
    that is not a heading row; the text of the page, and so any "no
    results" message in it, has no part in the answer. *)
Theorem hasResults_iff_data_row (html : Dom.document) :
  Parser.hasResults html = true
  <-> exists row, row ∈ Dom.select Parser.sel_listing_rows html
                  /\ Dom.hasClass "table-heading" row = false.
Proof.
  unfold Parser.hasResults. cbv zeta. unfold Dom.not_.
  set (rows := Dom.select Parser.sel_listing_rows html).
  set (data := filter _ rows).
  assert (Hd : forall row, row ∈ data
                           <-> Dom.hasClass "table-heading" row = false /\ row ∈ rows).
  { intros row. unfold data. rewrite list_elem_of_filter, matches_table_heading.
    destruct (Dom.hasClass "table-heading" row); cbn; intuition congruence. }
  split.
  - destruct data as [|row data'] eqn:E.
    + intros Hf. change (0 <? length (@nil Dom.elem))%nat with false in Hf.
      cbv iota in Hf. now destruct (existsb _ _) in Hf.
    + intros _. exists row.
      destruct (proj1 (Hd row)) as [H1 H2]; [apply elem_of_cons; now left|]. now split.
  - intros (row & Hin & Hh).
    assert (Hr : row ∈ data) by (apply Hd; now split).
    destruct data; [now apply elem_of_nil in Hr|reflexivity].
Qed.

Lemma foldl_max_ge (l : list Z) (x : Z) :
  x <= foldl Z.max x l /\ forall y, y ∈ l -> y <= foldl Z.max x l.
Proof.
  revert x. induction l as [|z l IH]; intros x; cbn [foldl].
  - split; [lia|]. intros y Hy. now apply elem_of_nil in Hy.
  - destruct (IH (Z.max x z)) as [H1 H2]. split; [lia|].
    intros y Hy. apply elem_of_cons in Hy as [->|Hy]; [lia|now apply H2].
Qed.

Lemma foldl_max_elem (l : list Z) (x : Z) :
  foldl Z.max x l = x \/ foldl Z.max x l ∈ l.
Proof.
  revert x. induction l as [|z l IH]; intros x; cbn [foldl]; [now left|].
  destruct (IH (Z.max x z)) as [E|E].
  - rewrite E. destruct (Z.max_spec x z) as [[_ ->]|[_ ->]].
    + right. apply elem_of_cons. now left.
    + now left.
  - right. apply elem_of_cons. now right.
Qed.

(** X14 - [parsePaginationInfo] reports as [totalPages] the largest
    number read off the page links: it is one of them and none is
    larger; with no such number it reports 1, and on a page without
    pagination element it reports page 1 of 1 and no next page. *)
Theorem parsePaginationInfo_totalPages (html : Dom.document) :
  (forall n, n ∈ page_numbers html ->
             n <= Parser.totalPages (Parser.parsePaginationInfo html))
  /\ (page_numbers html <> [] ->
      Parser.totalPages (Parser.parsePaginationInfo html) ∈ page_numbers html)
  /\ (page_numbers html = [] ->
      Parser.totalPages (Parser.parsePaginationInfo html) = 1)
  /\ (Dom.select Parser.sel_pagination html = [] ->
      Parser.parsePaginationInfo html = Parser.mkPaginationInfo 1 1 false).
Proof.
  unfold Parser.parsePaginationInfo, page_numbers. cbv zeta.
  destruct (Dom.select Parser.sel_pagination html) as [|p ps] eqn:Ep.
  - change (Dom.find Parser.sel_page_links []) with (@nil Dom.elem).
    cbn [omap list_omap length Nat.ltb Nat.leb Parser.totalPages].
    repeat split; try reflexivity.
    + intros n Hn. now apply elem_of_nil in Hn.
    + intros Hn. now contradict Hn.
  - change (0 <? length (p :: ps))%nat with true. cbv iota.
    cbn [Parser.totalPages].
    destruct (omap _ _) as [|x l]; cbn [Parser.max_list default].
    + repeat split; try reflexivity; try discriminate.
      * intros n Hn. now apply elem_of_nil in Hn.
      * intros Hn. now contradict Hn.
    + destruct (foldl_max_ge l x) as [H1 H2]. repeat split; try discriminate.
      * intros n Hn. apply elem_of_cons in Hn as [->|Hn]; [exact H1|now apply H2].
      * intros _. apply elem_of_cons.
        destruct (foldl_max_elem l x) as [E|E]; [now left|now right].
Qed.

Lemma parsePaginationInfo_totalPages_witness :
  3 ∈ page_numbers page_with_pagination_3_2
  /\ 3 <= Parser.totalPages (Parser.parsePaginationInfo page_with_pagination_3_2).
Proof.
  assert (H : 3 ∈ page_numbers page_with_pagination_3_2)
    by (vm_compute; apply list_elem_of_here).
  split; [exact H|].
  exact (proj1 (parsePaginationInfo_totalPages page_with_pagination_3_2) 3 H).
Defined.

(** ** The fields of the search form *)

Lemma get_put (k k' v : string) (o : JSObject.object) :
  JSObject.get k (JSObject.put k' v o)
  = if String.eqb k' k then Some v else JSObject.get k o.
Proof.
  induction o as [|[k0 v0] o IH]; cbn [JSObject.put JSObject.get].
  - now destruct (String.eqb k' k).
  - destruct (String.eqb_spec k0 k') as [->|Hne]; cbn [JSObject.get].
    + now destruct (String.eqb k' k).
    + rewrite IH. destruct (String.eqb_spec k0 k) as [->|_]; [|reflexivity].
      destruct (String.eqb_spec k' k) as [->|_]; [now contradict Hne|reflexivity].
Qed.

Lemma form_field_assignment (m : gmap string string) (el : Dom.elem) :
  Main.form_field m el
  = match Main.field_assignment el with
    | Some (k, v) => <[k := v]> m
    | None => m
    end.
Proof.
  unfold Main.form_field, Main.field_assignment. cbv zeta.
  destruct (Dom.lookup_attr "name" (Dom.attrs el)) as [[|n0 n]|]; try reflexivity.
  repeat match goal with |- context [if ?b then _ else _] => destruct b end; reflexivity.
Qed.

Lemma last_omap_cons {A B : Type} (f : A -> option B) (x : A) (l : list A) :
  last (omap f (x :: l))
  = match last (omap f l) with
    | Some y => Some y
    | None => f x
    end.
Proof.
  rewrite omap_step. destruct (f x) as [y|]; [|now destruct (last (omap f l))].
  now rewrite last_cons.
Qed.

Lemma form_object_get (k : string) (els : list Dom.elem) (o : JSObject.object) :
  k <> "__proto__" ->
  JSObject.get k
    (foldl (fun formData el =>
              match Main.field_assignment el with
              | Some (k, v) => JSObject.set k v formData
              | None => formData
              end) o els)
  = match last (omap (assigns k) els) with
    | Some v => Some v
    | None => JSObject.get k o
    end.
Proof.
  intros Hk. revert o. induction els as [|el els IH]; intros o; [reflexivity|].
  cbn [foldl]. rewrite IH, last_omap_cons.
  destruct (last (omap (assigns k) els)); [reflexivity|].
  unfold assigns. destruct (Main.field_assignment el) as [[k' v]|]; [|reflexivity].
  unfold JSObject.set. destruct (String.eqb_spec k' "__proto__") as [->|_].
  - destruct (String.eqb_spec "__proto__" k) as [E|_]; [now contradict Hk|reflexivity].
  - rewrite get_put. now destruct (String.eqb k' k).
Qed.

Lemma form_map_lookup (k : string) (els : list Dom.elem) (m : gmap string string) :
  foldl Main.form_field m els !! k
  = match last (omap (assigns k) els) with
    | Some v => Some v
    | None => m !! k
    end.
Proof.
  revert m. induction els as [|el els IH]; intros m; [reflexivity|].
  cbn [foldl]. rewrite IH, last_omap_cons.
  destruct (last (omap (assigns k) els)); [reflexivity|].
  rewrite form_field_assignment. unfold assigns.
  destruct (Main.field_assignment el) as [[k' v]|]; [|reflexivity].
  destruct (String.eqb_spec k' k) as [->|Hne].
  - apply lookup_insert_eq.
  - now apply lookup_insert_ne.
Qed.

(** X15 - The form data give a field the value of the last element of
    the form, in document order, that assigns it, and no value when no
    element does; later elements of the same name override earlier
    ones.  The mapping and the object built from the form agree. *)
Theorem extractFormFields_last_wins (html : Dom.document) (k : string) :
  k <> "__proto__" ->
  JSObject.get k (Main.extractFormFieldsObject html)
  = last (omap (assigns k) (Main.form_elements html))
  /\ Main.extractFormFields html !! k
     = JSObject.get k (Main.extractFormFieldsObject html).
Proof.
  intros Hk. unfold Main.extractFormFieldsObject, Main.extractFormFields.
  fold (Main.form_elements html).
  rewrite form_object_get by exact Hk. rewrite form_map_lookup.
  cbn [JSObject.get]. rewrite lookup_empty.
  now destruct (last _).
Qed.

Lemma extractFormFields_last_wins_witness :
  JSObject.get "state_ForSearch" (Main.extractFormFieldsObject sample_form) = Some "4".
Proof.
  assert (Hk : "state_ForSearch" <> "__proto__") by discriminate.
  rewrite (proj1 (extractFormFields_last_wins sample_form "state_ForSearch" Hk)).
  vm_compute. reflexivity.
Defined.

(** ** The payload of the search request *)

Lemma escape_byte_decode (c : ascii) (s : string) :
  percent_decode (JS.escape_byte c +:+ s) = String c (percent_decode s).
Proof.
  unfold JS.escape_byte. rewrite !append_cons, append_nil.
  cbn [percent_decode]. change (Ascii.eqb "%" "%") with true. cbv iota.
  f_equal. destruct c as [[] [] [] [] [] [] [] []]; reflexivity.
Qed.

Lemma escape_byte_chars (c : ascii) :
  all_chars is_encoded_char (JS.escape_byte c) = true.
Proof. destruct c as [[] [] [] [] [] [] [] []]; reflexivity. Qed.

Lemma unreserved_not_percent (c : ascii) :
  JS.is_unreserved c = true -> Ascii.eqb c "%" = false.
Proof. destruct c as [[] [] [] [] [] [] [] []]; vm_compute; congruence. Qed.

Lemma encodeURIComponent_decode (s : string) :
  percent_decode (JS.encodeURIComponent s) = s.
Proof.
  induction s as [|c s IH]; [reflexivity|]. cbn [JS.encodeURIComponent].
  destruct (JS.is_unreserved c) eqn:E.
  - cbn [percent_decode]. rewrite (unreserved_not_percent c E). now rewrite IH.
  - rewrite escape_byte_decode. now rewrite IH.
Qed.

Lemma encodeURIComponent_chars (s : string) :
  all_chars is_encoded_char (JS.encodeURIComponent s) = true.
Proof.
  induction s as [|c s IH]; [reflexivity|]. cbn [JS.encodeURIComponent].
  destruct (JS.is_unreserved c) eqn:E.
  - cbn [all_chars]. unfold is_encoded_char at 1. now rewrite E, IH.
  - now rewrite all_chars_app, escape_byte_chars, IH.
Qed.

Lemma append_empty_r (s : string) : s +:+ EmptyString = s.
Proof. induction s as [|c s IH]; [reflexivity|]. rewrite append_cons. now f_equal. Qed.

Lemma split_runs_piece (sep : ascii -> bool) (cur p rest : string) :
  all_chars (fun c => negb (sep c)) p = true ->
  JS.split_runs sep cur false (p +:+ rest)
  = JS.split_runs sep (JS.rev_str cur p) false rest.
Proof.
  revert cur. induction p as [|c p IH]; intros cur Hp; [reflexivity|].
  cbn [all_chars] in Hp. apply andb_prop in Hp as [Hc Hp].
  apply negb_true_iff in Hc. rewrite append_cons. cbn [JS.split_runs JS.rev_str].
  rewrite Hc. now apply IH.
Qed.

Lemma split_runs_start (sep : ascii -> bool) (cur : string) (b : bool) (c : ascii)
      (s : string) :
  sep c = false ->
  JS.split_runs sep cur b (String c s) = JS.split_runs sep cur false (String c s).
Proof. intros Hc. cbn [JS.split_runs]. now rewrite Hc. Qed.

Lemma split_join (sep : ascii -> bool) (d : ascii) (l : list string) :
  sep d = true -> l <> [] ->
  Forall (fun p => p <> EmptyString /\ all_chars (fun c => negb (sep c)) p = true) l ->
  JS.split_on sep (JS.join (String d EmptyString) l) = l.
Proof.
  intros Hd Hl HF. unfold JS.split_on.
  induction HF as [|x l [Hx Hp] HF IH]; [now contradict Hl|].
  destruct l as [|y l].
  - cbn [JS.join]. rewrite <- (append_empty_r x) at 1.
    rewrite split_runs_piece by exact Hp. cbn [JS.split_runs].
    fold (JS.rev_str EmptyString x). now rewrite rev_str_involutive.
  - change (JS.join (String d EmptyString) (x :: y :: l))
      with (x +:+ String d EmptyString +:+ JS.join (String d EmptyString) (y :: l)).
    rewrite split_runs_piece by exact Hp.
    rewrite append_cons, append_nil. cbn [JS.split_runs]. rewrite Hd.
    fold (JS.rev_str EmptyString x). rewrite rev_str_involutive. f_equal.
    specialize (IH ltac:(discriminate)).
    inversion HF as [|? ? [Hy Hyp] _]; subst.
    assert (Hs : exists c s, JS.join (String d EmptyString) (y :: l) = String c s
                             /\ sep c = false).
    { destruct y as [|c y']; [now contradict Hy|].
      cbn [all_chars] in Hyp. apply andb_prop in Hyp as [Hc _].
      apply negb_true_iff in Hc.
      destruct l; cbn [JS.join]; [now exists c, y'|].
      rewrite append_cons. now eexists c, _. }
    destruct Hs as (c & s & Es & Hc). rewrite Es in *.
    rewrite split_runs_start by exact Hc. exact IH.
Qed.

Lemma before_char_app (c : ascii) (a b : string) :
  all_chars (fun d => negb (Ascii.eqb c d)) a = true ->
  JS.before_char c (a +:+ String c b) = a /\ after_char c (a +:+ String c b) = b.
Proof.
  induction a as [|d a IH]; intros Ha.
  - rewrite append_nil. cbn [JS.before_char after_char]. now rewrite Ascii.eqb_refl.
  - cbn [all_chars] in Ha. apply andb_prop in Ha as [Hd Ha].
    apply negb_true_iff in Hd. rewrite append_cons. cbn [JS.before_char after_char].
    rewrite Hd. destruct (IH Ha) as [-> ->]. now split.
Qed.

Lemma all_chars_impl (p q : ascii -> bool) (s : string) :
  (forall c, p c = true -> q c = true) ->
  all_chars p s = true -> all_chars q s = true.
Proof.
  intros Hpq. induction s as [|c s IH]; [reflexivity|]. cbn [all_chars].
  intros H. apply andb_prop in H as [Hc H]. now rewrite (Hpq c Hc), IH.
Qed.

Lemma encoded_lacks (c : ascii) (s : string) :
  is_encoded_char c = false ->
  all_chars (fun d => negb (Ascii.eqb c d)) (JS.encodeURIComponent s) = true.
Proof.
  intros Hc. apply (all_chars_impl is_encoded_char); [|apply encodeURIComponent_chars].
  intros d Hd. destruct (Ascii.eqb_spec c d) as [->|_]; [congruence|reflexivity].
Qed.

Lemma parse_encode_pair (kv : string * string) :
  parse_pair (Main.encode_pair kv) = kv.
Proof.
  destruct kv as [k v]. unfold parse_pair, Main.encode_pair. cbn [fst snd].
  change ("=" +:+ JS.encodeURIComponent v) with (String "=" (JS.encodeURIComponent v)).
  destruct (before_char_app "=" (JS.encodeURIComponent k) (JS.encodeURIComponent v))
    as [-> ->]; [now apply encoded_lacks|].
  now rewrite !encodeURIComponent_decode.
Qed.

Lemma encode_pair_piece (kv : string * string) :
  Main.encode_pair kv <> EmptyString
  /\ all_chars (fun c => negb (Ascii.eqb "&" c)) (Main.encode_pair kv) = true.
Proof.
  destruct kv as [k v]. unfold Main.encode_pair. cbn [fst snd]. split.
  - destruct (JS.encodeURIComponent k); discriminate.
  - rewrite all_chars_app.
    change ("=" +:+ JS.encodeURIComponent v) with (String "=" (JS.encodeURIComponent v)).
    cbn [all_chars]. now rewrite !encoded_lacks.
Qed.

Lemma parse_payload_join (es : list (string * string)) :
  es <> [] -> parse_payload (JS.join "&" (map Main.encode_pair es)) = es.
Proof.
  intros Hes. unfold parse_payload.
  rewrite (split_join (Ascii.eqb "&") "&").
  - rewrite map_map. rewrite <- (map_id es) at 2. apply map_ext, parse_encode_pair.
  - reflexivity.
  - now destruct es.
  - apply Forall_forall. intros p Hp.
    apply list_elem_of_In, in_map_iff in Hp as (kv & <- & _). apply encode_pair_piece.
Qed.

Lemma insert_index_elem (x y : Z * (string * string)) (l : list (Z * (string * string))) :
  y ∈ JSObject.insert_index x l <-> y = x \/ y ∈ l.
Proof.
  induction l as [|z l IH]; cbn [JSObject.insert_index].
  - rewrite list_elem_of_singleton. split; [now left|].
    intros [->|Hy]; [reflexivity|now apply elem_of_nil in Hy].
  - destruct (fst x <=? fst z); rewrite !elem_of_cons; [tauto|].
    rewrite IH. tauto.
Qed.

Lemma index_entries_elem (o : JSObject.object) (i : Z) (kv : string * string) :
  (i, kv) ∈ JSObject.index_entries o
  <-> kv ∈ o /\ JSObject.array_index (fst kv) = Some i.
Proof.
  unfold JSObject.index_entries. induction o as [|x o IH].
  - cbn. split; [intros Hy; now apply elem_of_nil in Hy|].
    intros [Hy _]. now apply elem_of_nil in Hy.
  - rewrite omap_step.
    destruct (JSObject.array_index (fst x)) as [j|] eqn:E; cbn [fmap option_fmap option_map].
    + cbn [foldr]. rewrite insert_index_elem, IH, elem_of_cons. split.
      * intros [[= -> ->]|[Hin Hi]]; [split; [now left|exact E]|split; [now right|exact Hi]].
      * intros [[->|Hin] Hi]; [left; congruence|right; now split].
    + rewrite IH, elem_of_cons. split; [intros [Hin Hi]; split; [now right|exact Hi]|].
      intros [[->|Hin] Hi]; [congruence|now split].
Qed.

(** [Object.entries] lists the properties of the object, each once. *)
Lemma entries_elem (o : JSObject.object) (kv : string * string) :
  kv ∈ JSObject.entries o <-> kv ∈ o.
Proof.
  unfold JSObject.entries. rewrite elem_of_app, list_elem_of_filter. split.
  - intros [Hin|[_ Hin]]; [|exact Hin].
    apply list_elem_of_In, in_map_iff in Hin as ([i kv'] & E & Hin). cbn in E. subst kv'.
    now apply list_elem_of_In, index_entries_elem in Hin as [Hin _].
  - intros Hin. destruct (JSObject.array_index (fst kv)) as [i|] eqn:E; [left|now right].
    apply list_elem_of_In, in_map_iff. exists (i, kv). split; [reflexivity|].
    apply list_elem_of_In, index_entries_elem. now split.
Qed.

Lemma put_elem (k v : string) (o : JSObject.object) : (k, v) ∈ JSObject.put k v o.
Proof.
  induction o as [|[k0 v0] o IH]; cbn [JSObject.put]; [apply elem_of_cons; now left|].
  destruct (String.eqb_spec k0 k) as [->|_]; apply elem_of_cons; [now left|now right].
Qed.

Lemma put_keys (k v : string) (o : JSObject.object) (k' : string) :
  k' ∈ map fst (JSObject.put k v o) <-> k' = k \/ k' ∈ map fst o.
Proof.
  induction o as [|[k0 v0] o IH]; cbn [JSObject.put map fst].
  - rewrite list_elem_of_singleton. split; [now left|].
    intros [->|Hy]; [reflexivity|now apply elem_of_nil in Hy].
  - destruct (String.eqb_spec k0 k) as [->|_]; cbn [map fst]; rewrite !elem_of_cons.
    + tauto.
    + rewrite IH. tauto.
Qed.

Lemma put_NoDup (k v : string) (o : JSObject.object) :
  NoDup (map fst o) -> NoDup (map fst (JSObject.put k v o)).
Proof.
  induction o as [|[k0 v0] o IH]; cbn [JSObject.put map fst]; intros Hn.
  - apply NoDup_singleton.
  - apply NoDup_cons in Hn as [Hk0 Hn].
    destruct (String.eqb_spec k0 k) as [->|Hne]; cbn [map fst]; apply NoDup_cons.
    + now split.
    + split; [|now apply IH]. rewrite put_keys. intros [->|Hin]; [now contradict Hne|].
      now contradict Hk0.
Qed.

Lemma get_elem (k v : string) (o : JSObject.object) :
  NoDup (map fst o) -> ((k, v) ∈ o <-> JSObject.get k o = Some v).
Proof.
  induction o as [|[k0 v0] o IH]; cbn [JSObject.get map fst]; intros Hn.
  - split; [intros Hy; now apply elem_of_nil in Hy|discriminate].
  - apply NoDup_cons in Hn as [Hk0 Hn]. rewrite elem_of_cons.
    destruct (String.eqb_spec k0 k) as [->|Hne].
    + split; [|intros [= ->]; now left].
      intros [[= ->]|Hin]; [reflexivity|]. contradict Hk0.
      apply list_elem_of_In, in_map_iff. exists (k, v). split; [reflexivity|].
      now apply list_elem_of_In.
    + rewrite <- (IH Hn). split; [|now right]. intros [[= -> ->]|Hin]; [now contradict Hne|exact Hin].
Qed.

Lemma set_NoDup (k v : string) (o : JSObject.object) :
  NoDup (map fst o) -> NoDup (map fst (JSObject.set k v o)).
Proof.
  unfold JSObject.set. destruct (String.eqb k "__proto__"); [easy|apply put_NoDup].
Qed.

Lemma extractFormFieldsObject_NoDup (html : Dom.document) :
  NoDup (map fst (Main.extractFormFieldsObject html)).
Proof.
  unfold Main.extractFormFieldsObject.
  assert (Hgen : forall els o, NoDup (map fst o) ->
            NoDup (map fst (foldl (fun formData el =>
                                     match Main.field_assignment el with
                                     | Some (k, v) => JSObject.set k v formData
                                     | None => formData
                                     end) o els))).
  { induction els as [|el els IH]; intros o Ho; [exact Ho|]. cbn [foldl]. apply IH.
    destruct (Main.field_assignment el) as [[k v]|]; [now apply set_NoDup|exact Ho]. }
  apply Hgen. cbn. apply NoDup_nil_2.
Qed.

Lemma state_field_entries (stateId : Z) (formData : JSObject.object) :
  JSObject.entries (JSObject.set "state_ForSearch" (pretty stateId) formData) <> [].
Proof.
  intros E.
  assert (Hin : ("state_ForSearch", pretty stateId)
                ∈ JSObject.entries (JSObject.set "state_ForSearch" (pretty stateId) formData)).
  { apply entries_elem. unfold JSObject.set.
    change (String.eqb "state_ForSearch" "__proto__") with false. cbv iota.
    apply put_elem. }
  rewrite E in Hin. now apply elem_of_nil in Hin.
Qed.

(** X16 - The payload that [buildSearchPostRequest] writes reads back
    as the form data: split at the ampersands, each part split at its
    first equals sign and percent-decoded, it gives the entries of
    the form data with the state field set, in their order.  No name
    and no value can add a field or change another. *)
Theorem buildSearchPostRequest_payload (stateId : Z) (formData : JSObject.object) :
  parse_payload (Main.post_payload (Main.buildSearchPostRequest stateId formData))
  = JSObject.entries (JSObject.set "state_ForSearch" (pretty stateId) formData).
Proof.
  unfold Main.buildSearchPostRequest. cbv zeta. cbn [Main.post_payload].
  apply parse_payload_join, state_field_entries.
Qed.

(** X17 - [handleSearchForm] asks for one request: a POST to the
    result list, filed under the key of page 1 of the state.  Its
    payload carries the state field once, with the id of the state
    whatever the form selects, and every other field with the value
    the form data give it. *)
Theorem handleSearchForm_request (html : Dom.document) (stateId : Z)
        (stateName : option string) :
  exists post,
    Main.handleSearchForm html stateId stateName
    = [ (mkRequest "https://nsr.org.my/list1pview.asp"
                   (Some (search_key (Some stateId) (Some 1)))
                   (mkUserData "SEARCH" (Some stateId) stateName None (Some 1)),
         post) ]
    /\ Main.post_method post = "POST"
    /\ Main.post_url post = "https://nsr.org.my/list1pview.asp"
    /\ forall k v,
         (k, v) ∈ parse_payload (Main.post_payload post)
         <-> (if String.eqb k "state_ForSearch"
              then v = pretty stateId
              else JSObject.get k (Main.extractFormFieldsObject html) = Some v).
Proof.
  eexists. split; [reflexivity|]. split; [reflexivity|]. split; [reflexivity|].
  intros k v. unfold Main.buildSearchPostRequest. cbv zeta. cbn [Main.post_payload].
  rewrite parse_payload_join by apply state_field_entries. rewrite entries_elem.
  pose proof (extractFormFieldsObject_NoDup html) as Hn.
  rewrite (get_elem k v _ (set_NoDup "state_ForSearch" (pretty stateId) _ Hn)).
  unfold JSObject.set. change (String.eqb "state_ForSearch" "__proto__") with false.
  cbv iota. rewrite get_put, (String.eqb_sym "state_ForSearch" k).
  destruct (String.eqb k "state_ForSearch"); [|reflexivity].
  split; [now intros [= <-]|now intros ->].
Qed.

(** ** The start requests *)

Lemma statesToScrape_elem (states : list string) (id : Z) :
  id ∈ Crawler.statesToScrape states ->
  match states with
  | [] => id ∈ map fst Constants.MALAYSIAN_STATES
  | _ => exists s, s ∈ states
                   /\ Constants.STATE_NAME_TO_ID !! JS.toLowerCase s = Some id
  end.
Proof.
  unfold Crawler.statesToScrape. destruct states as [|s0 states]; [easy|].
  change (0 <? length (s0 :: states))%nat with true. cbv iota.
  intros Hid. apply list_elem_of_omap in Hid as (s & Hs & E). exists s. split; [exact Hs|].
  destruct (Constants.STATE_NAME_TO_ID !! JS.toLowerCase s) as [id'|]; [|discriminate].
  destruct (id' =? 0); [discriminate|]. congruence.
Qed.

Lemma statesToScrape_unknown (states : list string) :
  states <> [] ->
  (forall s, s ∈ states -> Constants.STATE_NAME_TO_ID !! JS.toLowerCase s = None) ->
  Crawler.statesToScrape states = [].
Proof.
  intros Hne Hu. unfold Crawler.statesToScrape.
  destruct states as [|s0 states]; [now contradict Hne|].
  change (0 <? length (s0 :: states))%nat with true. cbv iota.
  revert Hu. generalize (s0 :: states). clear. intros l Hu.
  induction l as [|s l IH]; [reflexivity|].
  rewrite omap_step. rewrite (Hu s) by (apply elem_of_cons; now left).
  apply IH. intros s' Hs'. apply Hu, elem_of_cons. now right.
Qed.

(** X18 - The start requests of the form crawler, when no start URL
    is given: each one asks for the search form under the key
    [SEARCH-FORM-<id>] of a state of the table, with the display name
    of that state and page 1.  With no state named the special
    categories are left out and the sixteen states and territories
    remain, in the order of their ids; with states named each request
    answers one of the names, and names the table lacks are passed
    over, so that a run given unknown names only starts nothing. *)
Theorem main_start_requests :
  (forall (states : list string) (r : request),
      r ∈ Main.startRequests [] states ->
      exists id info,
        Utils.getStateById id = Some info
        /\ r = mkRequest Constants.NSR_SEARCH_URL (Some ("SEARCH-FORM-" +:+ pretty id))
                 (mkUserData "SEARCH_FORM" (Some id) (Some (Constants.displayName info))
                             None (Some 1))
        /\ match states with
           | [] => Constants.category info <> "special"
           | _ => exists s, s ∈ states
                            /\ Constants.STATE_NAME_TO_ID !! JS.toLowerCase s = Some id
           end)
  /\ map (fun r => ud_stateId (req_userData r)) (Main.startRequests [] [])
     = map Some (seqZ 1 16)
  /\ (forall states,
         states <> [] ->
         (forall s, s ∈ states -> Constants.STATE_NAME_TO_ID !! JS.toLowerCase s = None) ->
         Main.startRequests [] states = []).
Proof.
  split; [|split; [vm_compute; reflexivity|]].
  - intros states r Hr. unfold Main.startRequests in Hr.
    change (0 <? length (@nil request))%nat with false in Hr. cbv iota in Hr.
    apply list_elem_of_omap in Hr as (id & Hid & Er).
    unfold Main.start_request in Er.
    destruct (Utils.getStateById id) as [info|] eqn:Ei; [|discriminate].
    exists id, info. split; [exact Ei|].
    apply statesToScrape_elem in Hid.
    destruct states as [|s0 states].
    + destruct (String.eqb_spec (Constants.category info) "special") as [Ec|Ec];
        [discriminate|].
      cbn [andb] in Er. injection Er as <-. now split.
    + rewrite andb_false_r in Er. injection Er as <-. now split.
  - intros states Hne Hu. unfold Main.startRequests.
    change (0 <? length (@nil request))%nat with false. cbv iota.
    now rewrite statesToScrape_unknown.
Qed.

Lemma main_start_requests_witness :
  exists id info,
    Utils.getStateById id = Some info
    /\ mkRequest "https://nsr.org.my/list11.asp" (Some "SEARCH-FORM-9")
         (mkUserData "SEARCH_FORM" (Some 9) (Some "Pulau Pinang") None (Some 1))
       = mkRequest Constants.NSR_SEARCH_URL (Some ("SEARCH-FORM-" +:+ pretty id))
           (mkUserData "SEARCH_FORM" (Some id) (Some (Constants.displayName info))
                       None (Some 1))
    /\ exists s, s ∈ ["Penang"]
                 /\ Constants.STATE_NAME_TO_ID !! JS.toLowerCase s = Some id.
Proof.
  assert (H : mkRequest "https://nsr.org.my/list11.asp" (Some "SEARCH-FORM-9")
                (mkUserData "SEARCH_FORM" (Some 9) (Some "Pulau Pinang") None (Some 1))
              ∈ Main.startRequests [] ["Penang"])
    by (vm_compute; apply list_elem_of_here).
  exact (proj1 main_start_requests ["Penang"] _ H).
Defined.

Lemma addRequests_fresh `{Platform} (q : queue) (rs : list request) :
  NoDup (map request_key rs) ->
  (forall r, r ∈ rs -> request_key r ∉ seen q) ->
  accepted (addRequests q rs) = accepted q ++ rs.
Proof.
  unfold addRequests. revert q.
  induction rs as [|r rs IH]; intros q Hnd Hq; cbn [foldl]; [now rewrite app_nil_r|].
  cbn [map] in Hnd. apply NoDup_cons in Hnd as [Hr Hnd].
  assert (Hout : request_key r ∉ seen q) by (apply Hq, elem_of_cons; now left).
  rewrite IH.
  - unfold addRequest. rewrite decide_False by exact Hout. cbn [accepted].
    now rewrite <- app_assoc.
  - exact Hnd.
  - intros r' Hr'. unfold addRequest. rewrite decide_False by exact Hout. cbn [seen].
    intros Hin. apply elem_of_union in Hin as [Hin|Hin].
    + apply elem_of_singleton in Hin. apply Hr. rewrite <- Hin.
      apply list_elem_of_In, in_map, list_elem_of_In, Hr'.
    + revert Hin. apply Hq, elem_of_cons. now right.
Qed.

Lemma page_request_key_inj `{Platform} (p q : Z) :
  request_key (Crawler.page_request p) = request_key (Crawler.page_request q) -> p = q.
Proof.
  unfold request_key, Crawler.page_request. cbn [req_uniqueKey]. intros E.
  apply String.app_inj in E. now apply pretty_Z_inj in E.
Qed.

(** X19 - In full crawl mode, with no start URL given, the start
    requests are the pages 1 to [totalPages] of the unfiltered list,
    one request each and none for a [totalPages] below 1, whatever
    states are named; their keys differ, so the queue accepts every
    one of them. *)
Theorem full_crawl_start_requests :
  forall (P : Platform) (states : list string) (totalPages : Z),
  exists reqs,
    Crawler.startRequests [] states true totalPages = Some reqs
    /\ length reqs = Z.to_nat totalPages
    /\ (forall r, r ∈ reqs
                  <-> exists p, 1 <= p <= totalPages /\ r = Crawler.page_request p)
    /\ accepted (addRequests empty_queue reqs) = reqs.
Proof.
  intros P states totalPages. eexists. split; [reflexivity|].
  split; [now rewrite length_map, length_seqZ|]. split.
  - intros r. rewrite list_elem_of_In, in_map_iff. split.
    + intros (p & <- & Hp). apply list_elem_of_In, elem_of_seqZ in Hp. exists p.
      split; [lia|reflexivity].
    + intros (p & Hp & ->). exists p. split; [reflexivity|].
      apply list_elem_of_In, elem_of_seqZ. lia.
  - rewrite addRequests_fresh; [reflexivity| |intros r _; apply not_elem_of_empty].
    rewrite map_map.
    change (map (fun x => request_key (Crawler.page_request x)) (seqZ 1 totalPages))
      with ((fun x => request_key (Crawler.page_request x)) <$> seqZ 1 totalPages).
    apply NoDup_fmap_2; [|apply NoDup_seqZ].
    intros p q. apply page_request_key_inj.
Qed.

Lemma foldM_result {A B : Type} (I : A -> Prop) (step : A -> B -> option A)
      (l : list B) (a a' : A) :
  (forall a x a', x ∈ l -> I a -> step a x = Some a' -> I a') ->
  I a -> Parser.foldM step l a = Some a' -> I a'.
Proof.
  unfold Parser.foldM. revert a.
  induction l as [|x l IH]; intros a Hstep Ha; cbn [foldl].
  - now intros [= <-].
  - cbn [mbind option_bind]. destruct (step a x) as [a1|] eqn:E.
    + apply IH.
      * intros a0 y a0' Hy. apply Hstep, elem_of_cons. now right.
      * eapply Hstep; [apply elem_of_cons; now left|exact Ha|exact E].
    + intros Hf. exfalso. clear -Hf. induction l as [|y l IHl]; [discriminate|].
      cbn [foldl mbind option_bind] in Hf. exact (IHl Hf).
Qed.

(** X20 - In state mode, with no start URL given, every start request
    of the crawler with direct search URLs asks for the first result
    page of a state of the table: its URL is the one
    [buildSearchGetUrl] gives for the state, its key is
    [SEARCH-<id>-1], and it carries the display name of the state.
    The special categories appear only when states are named. *)
Theorem state_start_requests :
  forall (P : Platform) (states : list string) (totalPages : Z)
         (reqs : list request) (r : request),
    Crawler.startRequests [] states false totalPages = Some reqs ->
    r ∈ reqs ->
    exists id info url,
      Utils.getStateById id = Some info
      /\ Crawler.buildSearchGetUrl id 1 = Some url
      /\ r = mkRequest url (Some (search_key (Some id) (Some 1)))
               (mkUserData "SEARCH" (Some id) (Some (Constants.displayName info))
                           None (Some 1))
      /\ match states with
         | [] => Constants.category info <> "special"
         | _ => exists s, s ∈ states
                          /\ Constants.STATE_NAME_TO_ID !! JS.toLowerCase s = Some id
         end.
Proof.
  intros P states totalPages reqs r Hs. unfold Crawler.startRequests in Hs.
  change (0 <? length (@nil request))%nat with false in Hs. cbv iota in Hs.
  revert r. pattern reqs.
  eapply foldM_result; [| |exact Hs]; [|intros r Hr; now apply elem_of_nil in Hr].
  cbv beta. intros urls id urls' Hid IH Hstep r Hr.
  unfold Crawler.state_request in Hstep.
  destruct (Utils.getStateById id) as [info|] eqn:Ei.
  2:{ cbn in Hstep. injection Hstep as <-. now apply IH. }
  apply statesToScrape_elem in Hid.
  destruct (String.eqb (Constants.category info) "special" && (length states =? 0)%nat)
    eqn:Ec.
  { cbn in Hstep. injection Hstep as <-. now apply IH. }
  destruct (Crawler.buildSearchGetUrl id 1) as [url|] eqn:Eu; [|discriminate].
  cbn [mbind option_bind] in Hstep. injection Hstep as <-.
  apply elem_of_app in Hr as [Hr|Hr]; [now apply IH|].
  apply list_elem_of_singleton in Hr. subst r. exists id, info, url.
  split; [exact Ei|]. split; [exact Eu|]. split; [reflexivity|].
  destruct states as [|s0 states]; [|exact Hid].
  rewrite andb_true_r in Ec. now apply String.eqb_neq in Ec.
Qed.

Lemma state_start_requests_witness :
  exists id info url,
    Utils.getStateById id = Some info
    /\ @Crawler.buildSearchGetUrl SimplePlatform.platform id 1 = Some url
    /\ mkRequest search_url (Some "SEARCH-4-1")
         (mkUserData "SEARCH" (Some 4) (Some "Melaka") None (Some 1))
       = mkRequest url (Some (search_key (Some id) (Some 1)))
           (mkUserData "SEARCH" (Some id) (Some (Constants.displayName info))
                       None (Some 1))
    /\ exists s, s ∈ ["melaka"]
                 /\ Constants.STATE_NAME_TO_ID !! JS.toLowerCase s = Some id.
Proof.
  assert (Hs : @Crawler.startRequests SimplePlatform.platform [] ["melaka"] false 1006
               = Some [mkRequest search_url (Some "SEARCH-4-1")
                         (mkUserData "SEARCH" (Some 4) (Some "Melaka") None (Some 1))])
    by (vm_compute; reflexivity).
  exact (state_start_requests SimplePlatform.platform ["melaka"] 1006 _ _ Hs
           (list_elem_of_here _ _)).
Defined.

(** ** The stubs of a listing page *)

(** X21 - Every stub of [parseListingPage] holds clean texts: id,
    title, name, gender, location and specialty have no white space
    at their ends and single blanks inside; the profile URL is an
    absolute [https] URL; and the page yields at most one stub per
    row of the listing table. *)
Theorem parseListingPage_stub_texts (html : Dom.document) :
  (forall s, s ∈ Parser.parseListingPage html ->
     clean (Parser.stub_nsrNo s) = true /\ clean (Parser.stub_title s) = true
     /\ clean (Parser.stub_name s) = true /\ clean (Parser.stub_gender s) = true
     /\ clean (Parser.stub_location s) = true /\ clean (Parser.stub_specialty s) = true
     /\ String.prefix "https://" (Parser.stub_profileUrl s) = true)
  /\ (length (Parser.parseListingPage html)
      <= length (Dom.select Parser.sel_listing_rows html))%nat.
Proof.
  unfold Parser.parseListingPage. rewrite parseListingRows_omap. split.
  - intros s Hs. apply list_elem_of_omap in Hs as (row & _ & E).
    unfold Parser.listing_row in E.
    destruct (Dom.hasClass "table-heading" row); [discriminate|].
    destruct (Dom.find (Parser.sel_tag "td") [row])
      as [|c0 [|c1 [|c2 [|c3 [|c4 [|c5 cells]]]]]]; try discriminate.
    destruct (negb _); [discriminate|]. cbv zeta in E.
    match type of E with
    | context [Utils.cleanText (Some (JS.or_else ?a ?b))] =>
        pose proof (cleanText_clean (Some (JS.or_else a b))) as Hn;
        set (nm := Utils.cleanText (Some (JS.or_else a b))) in *
    end.
    pose proof (cleanText_clean (Some (Dom.elem_text c0))) as H0.
    fold (Parser.cell_text c0) in H0.
    match type of E with
    | context [Dom.attr_of "href" ?l] =>
        assert (Hu : String.prefix "https://"
                       match Dom.attr_of "href" l with
                       | Some (String h href) => "https://www.nsr.org.my/" +:+ String h href
                       | _ => Utils.buildProfileUrl (Parser.cell_text c0)
                       end = true)
          by (destruct (Dom.attr_of "href" l) as [[|h href]|]; reflexivity)
    end.
    injection E as <-.
    cbn [Parser.stub_nsrNo Parser.stub_title Parser.stub_name Parser.stub_gender
         Parser.stub_location Parser.stub_specialty Parser.stub_profileUrl].
    repeat split; try assumption; apply cleanText_clean.
  - induction (Dom.select Parser.sel_listing_rows html) as [|row rows IH]; [reflexivity|].
    rewrite omap_step. destruct (Parser.listing_row row); cbn [length]; lia.
Qed.

Lemma parseListingPage_stub_texts_witness :
  exists s, s ∈ Parser.parseListingPage sample_listing
            /\ Parser.stub_nsrNo s = "765432"
            /\ clean (Parser.stub_nsrNo s) = true.
Proof.
  set (s := Parser.mkStub "765432" "Prof." "Siti Aminah" "Female" "Perak" "Paediatrics"
              "https://www.nsr.org.my/list1viewdetails.asp?Acc=765432").
  assert (H : s ∈ Parser.parseListingPage sample_listing).
  { vm_compute. apply list_elem_of_further, list_elem_of_further, list_elem_of_here. }
  exists s. split; [exact H|]. split; [reflexivity|].
  exact (proj1 (proj1 (parseListingPage_stub_texts sample_listing) s H)).
Defined.

(** ** The first state named in an address *)

Lemma search_head (ws : list string) (s m : string) :
  Constants.match_alternatives true ws s = Some m ->
  Constants.search true ws false s = Some m.
Proof.
  intros E. destruct s as [|c s]; cbn [Constants.search andb]; now rewrite E.
Qed.

Lemma alternatives_skip (b : bool) (w : string) (ws : list string) (s : string) :
  Constants.match_word w s = None ->
  Constants.match_alternatives b (w :: ws) s = Constants.match_alternatives b ws s.
Proof. intros E. cbn [Constants.match_alternatives]. now rewrite E. Qed.

Lemma alternatives_hit (w : string) (ws : list string) (s m rest : string) :
  Constants.match_word w s = Some (m, rest) ->
  Constants.at_word_end rest = true ->
  Constants.match_alternatives true (w :: ws) s = Some m.
Proof. intros E Hr. cbn [Constants.match_alternatives]. now rewrite E, Hr. Qed.

Lemma lower_char_blank (d : ascii) : JS.lower_char d = " "%char -> d = " "%char.
Proof. destruct d as [[] [] [] [] [] [] [] []]; vm_compute; congruence. Qed.

Lemma is_space_lower_char (d : ascii) : JS.is_space (JS.lower_char d) = JS.is_space d.
Proof. destruct d as [[] [] [] [] [] [] [] []]; reflexivity. Qed.

Lemma match_word_none_prefix (w s : string) :
  all_chars no_blank w = true ->
  String.prefix w (JS.toLowerCase s) = false ->
  Constants.match_word w s = None.
Proof.
  intros Hw Hp. pose proof (match_word_prefix w s Hw) as H.
  destruct (Constants.match_word w s) as [[m rest]|]; [|reflexivity].
  destruct H as [Hm ->]. rewrite toLowerCase_app, Hm in Hp.
  exfalso. revert Hp. clear. induction w as [|c w IH]; [now destruct (JS.toLowerCase rest)|].
  rewrite append_cons. cbn [String.prefix].
  destruct (ascii_dec c c); [exact IH|congruence].
Qed.

Lemma match_word_app_none (w1 w2 s : string) :
  Constants.match_word w1 s = None -> Constants.match_word (w1 +:+ w2) s = None.
Proof.
  revert s. induction w1 as [|c w1 IH]; intros s; [discriminate|].
  rewrite append_cons. destruct (ascii_dec c " ") as [->|Hc].
  - change (Constants.match_word (String " " w1) s)
      with (match Constants.span_spaces s with
            | (String c sp, rest) =>
                '(m, rest') ← Constants.match_word w1 rest; Some (String c sp +:+ m, rest')
            | _ => None
            end).
    change (Constants.match_word (String " " (w1 +:+ w2)) s)
      with (match Constants.span_spaces s with
            | (String c sp, rest) =>
                '(m, rest') ← Constants.match_word (w1 +:+ w2) rest;
                Some (String c sp +:+ m, rest')
            | _ => None
            end).
    destruct (Constants.span_spaces s) as [[|c sp] rest]; [reflexivity|].
    destruct (Constants.match_word w1 rest) as [[m r]|] eqn:E; [discriminate|].
    intros _. now rewrite (IH rest E).
  - rewrite !match_word_letter by exact Hc.
    destruct s as [|d s]; [reflexivity|].
    destruct (Ascii.eqb (JS.lower_char d) c); [|reflexivity].
    destruct (Constants.match_word w1 s) as [[m r]|] eqn:E; [discriminate|].
    intros _. now rewrite (IH s E).
Qed.

Lemma match_word_lower (w a rest : string) :
  word_ok w = true -> JS.toLowerCase a = w ->
  Constants.match_word w (a +:+ rest) = Some (a, rest).
Proof.
  revert a. induction w as [|c w IH]; intros a Hw Ha.
  - destruct a; [reflexivity|discriminate Ha].
  - destruct a as [|d a]; [discriminate Ha|].
    cbn [JS.toLowerCase JS.map_str] in Ha. injection Ha as Hd Ha.
    cbn [word_ok] in Hw. apply andb_prop in Hw as [Hw Hw'].
    apply andb_prop in Hw as [_ Hw].
    rewrite append_cons. destruct (Ascii.eqb_spec c " ") as [->|Hc].
    + apply lower_char_blank in Hd. subst d.
      change (Constants.match_word (String " " w) (String " " (a +:+ rest)))
        with (match Constants.span_spaces (String " " (a +:+ rest)) with
              | (String c sp, rest0) =>
                  '(m, rest') ← Constants.match_word w rest0;
                  Some (String c sp +:+ m, rest')
              | _ => None
              end).
      assert (Hsp : Constants.span_spaces (String " " (a +:+ rest))
                    = (String " " EmptyString, a +:+ rest)).
      { cbn [Constants.span_spaces]. change (JS.is_space " ") with true. cbv iota.
        destruct w as [|e w]; [discriminate Hw|].
        destruct a as [|x a]; [discriminate Ha|].
        cbn [JS.toLowerCase JS.map_str] in Ha. injection Ha as Hx _.
        rewrite append_cons. cbn [Constants.span_spaces].
        rewrite <- is_space_lower_char, Hx.
        apply negb_true_iff in Hw. now rewrite Hw. }
      rewrite Hsp, (IH a Hw' Ha). reflexivity.
    + rewrite match_word_letter by exact Hc.
      rewrite Hd, Ascii.eqb_refl, (IH a Hw' Ha). reflexivity.
Qed.

Ltac skip_alternative Ha :=
  first
    [ apply match_word_none_prefix;
      [reflexivity|rewrite toLowerCase_app, Ha; vm_compute; reflexivity]
    | apply (match_word_app_none "negeri" " sembilan"); apply match_word_none_prefix;
      [reflexivity|rewrite toLowerCase_app, Ha; vm_compute; reflexivity]
    | apply (match_word_app_none "pulau" " pinang"); apply match_word_none_prefix;
      [reflexivity|rewrite toLowerCase_app, Ha; vm_compute; reflexivity]
    | apply (match_word_app_none "kuala" " lumpur"); apply match_word_none_prefix;
      [reflexivity|rewrite toLowerCase_app, Ha; vm_compute; reflexivity] ].

(** X22 - An address that begins with a state name, in any case,
    takes that state, whatever states it names later: the pattern is
    searched from the left and the first state found decides. *)
Theorem state_named_first (a rest : string) :
  JS.toLowerCase a ∈ Constants.state_words ->
  Constants.at_word_end rest = true ->
  exists id info,
    Constants.STATE_NAME_TO_ID !! JS.toLowerCase a = Some id
    /\ Utils.getStateById id = Some info
    /\ Utils.extractStateFromAddress (Some (a +:+ rest))
       = Some (Utils.mkStateInfo id (Constants.displayName info)
                                 (Constants.category info)).
Proof.
  intros Hw Hrest. unfold Constants.state_words in Hw.
  repeat (apply elem_of_cons in Hw as [Ha|Hw];
    [ assert (Hm : Constants.search true Constants.state_words false (a +:+ rest) = Some a)
        by (apply search_head; unfold Constants.state_words;
            repeat (rewrite alternatives_skip by skip_alternative Ha);
            eapply alternatives_hit;
            [apply match_word_lower; [reflexivity|exact Ha]|exact Hrest]);
      rewrite Ha; eexists _, _;
      split; [vm_compute; reflexivity|]; split; [vm_compute; reflexivity|];
      destruct a as [|d a']; [discriminate Ha|];
      rewrite append_cons in *;
      unfold Utils.extractStateFromAddress, Constants.match_state;
      rewrite Hm; cbv zeta; rewrite Ha; reflexivity
    |]).
  now apply elem_of_nil in Hw.
Qed.

Lemma state_named_first_witness :
  exists id info,
    Constants.STATE_NAME_TO_ID !! JS.toLowerCase "Kedah" = Some id
    /\ Utils.getStateById id = Some info
    /\ Utils.extractStateFromAddress
         (Some ("Kedah" +:+ " Medical Centre, Jalan Masjid, Pulau Pinang"))
       = Some (Utils.mkStateInfo id (Constants.displayName info)
                                 (Constants.category info)).
Proof.
  apply state_named_first.
  - vm_compute. apply list_elem_of_further, list_elem_of_here.
  - reflexivity.
Defined.

(** ** Precedence of the tables of a profile page *)

Section Precedence.
Context `{Platform}.
Variable s0 : Parser.specialist.

Ltac fields :=
  unfold filled_from in *;
  cbn [Parser.jobTitle Parser.nsrNo Parser.name Parser.title Parser.gender Parser.specialty
       Parser.address Parser.establishment Parser.sector Parser.lastRenewalDate
       Parser.state Parser.stateId Parser.state_category Parser.city
       Parser.qualifications Parser.qualificationsStructured Parser.profileUrl
       Parser.set_name Parser.set_specialty Parser.set_state Parser.set_city
       Parser.set_address] in *.

Lemma filled_from_refl : filled_from s0 s0.
Proof. unfold filled_from. now repeat split. Qed.

Lemma set_name_filled (v : option string) (s : Parser.specialist) :
  JS.truthy (Parser.name s) = false -> filled_from s0 s ->
  filled_from s0 (Parser.set_name v s).
Proof.
  intros Hn Hs. destruct s. fields.
  destruct Hs as (? & ? & ? & ? & ? & ? & ? & ? & ? & ? & Hname & ? & ?).
  repeat split; try assumption. intros Ht. rewrite (Hname Ht) in Hn. congruence.
Qed.

Lemma set_specialty_filled (v : option string) (s : Parser.specialist) :
  JS.truthy (Parser.specialty s) = false -> filled_from s0 s ->
  filled_from s0 (Parser.set_specialty v s).
Proof.
  intros Hn Hs. destruct s. fields.
  destruct Hs as (? & ? & ? & ? & ? & ? & ? & ? & ? & ? & ? & Hsp & ?).
  repeat split; try assumption. intros Ht. rewrite (Hsp Ht) in Hn. congruence.
Qed.

Lemma assign_address_filled (value : string) (s : Parser.specialist) :
  JS.truthy (Parser.address s) = false -> filled_from s0 s ->
  exists s', Parser.assign_address value s = Some s' /\ filled_from s0 s'.
Proof.
  intros Hn Hs. unfold Parser.assign_address.
  destruct (extractState_total (Some value)) as [i ->]. cbn [mbind option_bind].
  eexists. split; [reflexivity|]. destruct s. fields.
  destruct Hs as (? & ? & ? & ? & ? & ? & ? & ? & ? & ? & ? & ? & Ha).
  repeat split; try assumption. intros Ht. rewrite (Ha Ht) in Hn. congruence.
Qed.

Lemma fill_from_elements_filled (html : Dom.document) (s : Parser.specialist) :
  filled_from s0 s -> filled_from s0 (Parser.fill_from_elements html s).
Proof.
  intros Hs. unfold Parser.fill_from_elements. cbv zeta.
  set (s1 := if (0 <? length (Dom.select Parser.sel_name_element html))%nat
                && negb (JS.truthy (Parser.name s))
             then _ else s).
  assert (H1 : filled_from s0 s1).
  { unfold s1. destruct (0 <? length _)%nat; cbn [andb]; [|exact Hs].
    destruct (JS.truthy (Parser.name s)) eqn:E; cbn [negb]; [exact Hs|].
    now apply set_name_filled. }
  clearbody s1.
  destruct (0 <? length _)%nat; cbn [andb]; [|exact H1].
  destruct (JS.truthy (Parser.specialty s1)) eqn:E; cbn [negb]; [exact H1|].
  now apply set_specialty_filled.
Qed.

Lemma definition_list_filled (s : Parser.specialist) (dl : Dom.elem) :
  filled_from s0 s ->
  exists s', Parser.definition_list s dl = Some s' /\ filled_from s0 s'.
Proof.
  intros Hs. unfold Parser.definition_list. cbv zeta.
  apply foldM_invariant; [|exact Hs].
  intros a p Ha. unfold Parser.definition_pair. cbv zeta.
  destruct (JS.includes "name" _); cbn [andb].
  { destruct (JS.truthy (Parser.name a)) eqn:E; cbn [negb].
    2:{ eexists. split; [reflexivity|]. now apply set_name_filled. }
    destruct (JS.includes "specialty" _); cbn [andb].
    { destruct (JS.truthy (Parser.specialty a)) eqn:E2; cbn [negb].
      2:{ eexists. split; [reflexivity|]. now apply set_specialty_filled. }
      destruct (JS.includes "address" _); cbn [andb]; [|now exists a].
      destruct (JS.truthy (Parser.address a)) eqn:E3; cbn [negb]; [now exists a|].
      now apply assign_address_filled. }
    destruct (JS.includes "address" _); cbn [andb]; [|now exists a].
    destruct (JS.truthy (Parser.address a)) eqn:E3; cbn [negb]; [now exists a|].
    now apply assign_address_filled. }
  destruct (JS.includes "specialty" _); cbn [andb].
  { destruct (JS.truthy (Parser.specialty a)) eqn:E2; cbn [negb].
    2:{ eexists. split; [reflexivity|]. now apply set_specialty_filled. }
    destruct (JS.includes "address" _); cbn [andb]; [|now exists a].
    destruct (JS.truthy (Parser.address a)) eqn:E3; cbn [negb]; [now exists a|].
    now apply assign_address_filled. }
  destruct (JS.includes "address" _); cbn [andb]; [|now exists a].
  destruct (JS.truthy (Parser.address a)) eqn:E3; cbn [negb]; [now exists a|].
  now apply assign_address_filled.
Qed.

Lemma fill_state_filled (s : Parser.specialist) :
  filled_from s0 s ->
  exists s', Parser.fill_state s = Some s' /\ filled_from s0 s'.
Proof.
  intros Hs. unfold Parser.fill_state.
  destruct (negb _ && _); [|now exists s].
  destruct (extractState_total (Parser.address s)) as [i ->]. cbn [mbind option_bind].
  eexists. split; [reflexivity|]. destruct s. fields. exact Hs.
Qed.

End Precedence.

(** X23 - What the profile parser reads off the bordered tables
    stands: the look-ups by id and class and the definition lists
    only fill a name, a specialty or an address that the tables left
    empty, and change no other text field, nor the qualifications. *)
Theorem profile_tables_take_precedence :
  forall (P : Platform) (html : Dom.document) (nsrNo : string),
  exists st s,
    Parser.foldM (Parser.profile_table nsrNo) (Dom.select Parser.sel_bordered_tables html)
                 (Parser.mkSection false false false, Parser.initial_specialist nsrNo)
    = Some st
    /\ Parser.parseProfilePage html nsrNo = Some s
    /\ filled_from (snd st) s.
Proof.
  intros P html nsrNo. unfold Parser.parseProfilePage.
  destruct (foldM_invariant (fun st => profile_ok nsrNo (snd st))
              (Parser.profile_table nsrNo) (Dom.select Parser.sel_bordered_tables html)
              (Parser.mkSection false false false, Parser.initial_specialist nsrNo))
    as (st & -> & _).
  { intros a x Ha. now apply profile_table_ok. }
  { apply initial_specialist_ok. }
  exists st. cbn [mbind option_bind].
  destruct (foldM_invariant (filled_from (snd st))
              Parser.definition_list (Dom.select (Parser.sel_tag "dl") html)
              (Parser.fill_from_elements html (snd st)))
    as (s & -> & Hs).
  { intros a x Ha. now apply definition_list_filled. }
  { apply fill_from_elements_filled, filled_from_refl. }
  cbn [mbind option_bind].
  destruct (fill_state_filled (snd st) s Hs) as (s' & -> & Hs').
  now exists s'.
Qed.

(** ** Records without a state *)

Lemma single_spaced_well (b : bool) (s : string) :
  single_spaced b s = true -> well_spaced b s = true.
Proof.
  revert b. induction s as [|c s IH]; intros b; [reflexivity|].
  cbn [single_spaced well_spaced]. destruct (JS.is_space c); [|apply IH].
  intros H. apply andb_prop in H as [H Hs]. now rewrite H, (IH true Hs).
Qed.

Lemma clean_well_spaced (s : string) : clean s = true -> well_spaced true s = true.
Proof.
  destruct s as [|c s]; [reflexivity|]. unfold clean. apply single_spaced_well.
Qed.

Lemma well_spaced_suffix (b : bool) (pre t : string) :
  well_spaced b (pre +:+ t) = true -> exists b', well_spaced b' t = true.
Proof.
  revert b. induction pre as [|c pre IH]; intros b; [now exists b|].
  rewrite append_cons. cbn [well_spaced].
  destruct (JS.is_space c); [|apply IH].
  intros H. apply andb_prop in H as [_ H]. now apply (IH true).
Qed.

Lemma search_word_suffix (b : bool) (ws : list string) (p : bool) (s m : string) :
  Constants.search b ws p s = Some m ->
  exists w pre t rest, w ∈ ws /\ s = pre +:+ t
                       /\ Constants.match_word w t = Some (m, rest).
Proof.
  revert p. induction s as [|c s IH]; intros p; cbn [Constants.search];
    destruct (if b && p then None else Constants.match_alternatives b ws _) eqn:E.
  - intros [= <-]. destruct (b && p); [discriminate E|].
    apply match_alternatives_word in E as (w & r & ? & ?).
    now exists w, EmptyString, EmptyString, r.
  - discriminate.
  - intros [= <-]. destruct (b && p); [discriminate E|].
    apply match_alternatives_word in E as (w & r & ? & ?).
    now exists w, EmptyString, (String c s), r.
  - intros H. apply IH in H as (w & pre & t & r & Hw & -> & Hm).
    now exists w, (String c pre), t, r.
Qed.

Lemma match_word_spaced (w t m rest : string) (b : bool) :
  word_ok w = true -> well_spaced b t = true ->
  Constants.match_word w t = Some (m, rest) -> JS.toLowerCase m = w.
Proof.
  revert t m b. induction w as [|c w IH]; intros t m b Hw Ht.
  - now intros [= <- <-].
  - cbn [word_ok] in Hw. apply andb_prop in Hw as [Hw Hw'].
    apply andb_prop in Hw as [_ Hw].
    destruct (Ascii.eqb_spec c " ") as [->|Hc].
    + change (Constants.match_word (String " " w) t)
        with (match Constants.span_spaces t with
              | (String c sp, rest0) =>
                  '(m, rest') ← Constants.match_word w rest0;
                  Some (String c sp +:+ m, rest')
              | _ => None
              end).
      destruct t as [|d t]; [discriminate|]. cbn [Constants.span_spaces well_spaced] in *.
      destruct (JS.is_space d) eqn:Ed; [|discriminate].
      apply andb_prop in Ht as [Hd Ht]. apply andb_prop in Hd as [Hd _].
      apply Ascii.eqb_eq in Hd. subst d.
      assert (Hsp : Constants.span_spaces t = (EmptyString, t)).
      { destruct t as [|x t]; [reflexivity|]. cbn [Constants.span_spaces well_spaced] in *.
        destruct (JS.is_space x); [|reflexivity]. now rewrite andb_false_r in Ht. }
      rewrite Hsp.
      destruct (Constants.match_word w t) as [[m' r]|] eqn:Em; [|discriminate].
      cbn [mbind option_bind]. intros [= <- <-]. rewrite append_cons, append_nil.
      cbn [JS.toLowerCase JS.map_str]. f_equal. exact (IH t m' true Hw' Ht Em).
    + rewrite match_word_letter by exact Hc.
      destruct t as [|d t]; [discriminate|].
      destruct (Ascii.eqb_spec (JS.lower_char d) c) as [Ed|]; [|discriminate].
      destruct (Constants.match_word w t) as [[m' r]|] eqn:Em; [|discriminate].
      cbn [mbind option_bind]. intros [= <- <-].
      cbn [JS.toLowerCase JS.map_str]. rewrite Ed. f_equal.
      cbn [well_spaced] in Ht. rewrite <- is_space_lower_char, Ed in Ht.
      apply negb_true_iff in Hw. rewrite Hw in Ht.
      exact (IH t m' false Hw' Ht Em).
Qed.

(** On a clean address the state is missing exactly when the pattern
    finds no state name in it. *)
Lemma clean_address_state (a : string) :
  clean a = true ->
  (Utils.extractStateFromAddress (Some a) = Some Utils.missing_state
   <-> Constants.match_state a = None).
Proof.
  intros Ha. destruct a as [|c s]; [now split|].
  unfold Utils.extractStateFromAddress.
  destruct (Constants.match_state (String c s)) as [m|] eqn:Em; [|now split].
  split; [|discriminate]. intros Hx. exfalso. revert Hx. cbv zeta.
  apply search_word_suffix in Em as (w & pre & t & rest & Hw & Es & Hm).
  apply clean_well_spaced in Ha. rewrite Es in Ha.
  apply well_spaced_suffix in Ha as [b' Ht].
  assert (Hl : JS.toLowerCase m = w).
  { apply (match_word_spaced w t m rest b'); [|exact Ht|exact Hm].
    unfold Constants.state_words in Hw.
    repeat (apply elem_of_cons in Hw as [->|Hw]; [reflexivity|]).
    now apply elem_of_nil in Hw. }
  rewrite Hl. unfold Constants.state_words in Hw.
  repeat (apply elem_of_cons in Hw as [->|Hw]; [vm_compute; discriminate|]).
  now apply elem_of_nil in Hw.
Qed.

Lemma missing_state_id (address : option string) (i : Utils.stateInfo) :
  Utils.extractStateFromAddress address = Some i ->
  Utils.stateId i = 9999 -> i = Utils.missing_state.
Proof.
  assert (Hm : Some Utils.missing_state = Some i -> i = Utils.missing_state) by congruence.
  destruct address as [[|c s]|]; cbn [Utils.extractStateFromAddress];
    [intros; now apply Hm| |intros; now apply Hm].
  destruct (Constants.match_state (String c s)) as [m|]; [|intros; now apply Hm]. cbv zeta.
  destruct (Utils.getStateIdByName _) as [[id|k]|]; [|discriminate|intros; now apply Hm].
  destruct (Utils.getStateById id) as [info|] eqn:E; [|discriminate].
  cbn [mbind option_bind]. intros [= <-]. cbn [Utils.stateId]. intros ->.
  vm_compute in E. now injection E as <-.
Qed.

(** X24 - A record of the profile parser that has an address carries
    the state "Missing" (id 9999) exactly when the state pattern
    finds no state name in that address: the address is a clean
    text, so the white space inside a state name of two words is
    always the single blank the table of names expects. *)
Theorem parseProfilePage_missing_state :
  forall (P : Platform) (html : Dom.document) (nsrNo : string),
  exists s, Parser.parseProfilePage html nsrNo = Some s
            /\ forall a, Parser.address s = Some a ->
                 (Parser.stateId s = Some 9999 <-> Constants.match_state a = None).
Proof.
  intros P html nsrNo.
  destruct (parseProfilePage_ok nsrNo html) as (s & E & Ht & Hr & _).
  exists s. split; [exact E|]. intros a Ha.
  unfold region_ok in Hr. rewrite Ha in Hr. destruct Hr as (i & Ei & _ & -> & _).
  destruct Ht as (_ & _ & _ & _ & _ & _ & Hc & _).
  specialize (Hc a Ha). rewrite <- (clean_address_state a Hc), Ei.
  split.
  - intros [= Hi]. f_equal. eapply missing_state_id; eassumption.
  - now intros [= ->].
Qed.

(** ** Pages without profile data *)

(** X25 - On a page with no bordered table, no name or specialty
    element and no definition list the profile parser returns the
    record it starts from: the id and the profile URL of the call,
    every other field empty.  [handleProfilePage] appends this record
    to the dataset like any other. *)
Theorem parseProfilePage_empty_page :
  forall (P : Platform) (html : Dom.document) (nsrNo : string)
         (dataset : list Parser.specialist),
    Dom.select Parser.sel_bordered_tables html = [] ->
    Dom.select Parser.sel_name_element html = [] ->
    Dom.select Parser.sel_specialty_element html = [] ->
    Dom.select (Parser.sel_tag "dl") html = [] ->
    Parser.parseProfilePage html nsrNo
    = Some (Parser.mkSpecialist nsrNo (Utils.buildProfileUrl nsrNo) None None None None
              None [] [] None None None None None None None None)
    /\ Crawler.handleProfilePage html nsrNo dataset
       = Some (dataset ++ [Parser.mkSpecialist nsrNo (Utils.buildProfileUrl nsrNo) None None
                             None None None [] [] None None None None None None None None]).
Proof.
  intros P html nsrNo dataset Ht Hn Hs Hd.
  assert (E : Parser.parseProfilePage html nsrNo
              = Some (Parser.initial_specialist nsrNo)).
  { unfold Parser.parseProfilePage. rewrite Ht, Hd.
    unfold Parser.foldM. cbn [foldl mbind option_bind snd].
    unfold Parser.fill_from_elements. rewrite Hn, Hs. reflexivity. }
  split; [exact E|]. unfold Crawler.handleProfilePage. now rewrite E.
Qed.

Lemma parseProfilePage_empty_page_witness :
  @Parser.parseProfilePage SimplePlatform.platform error_page "123456"
  = Some (Parser.mkSpecialist "123456"
            "https://nsr.org.my/nsr/ViewSpecialistProfile.jsp?nsrNo=123456"
            None None None None None [] [] None None None None None None None None).
Proof.
  apply (parseProfilePage_empty_page SimplePlatform.platform error_page "123456" []);
    vm_compute; reflexivity.
Defined.
